(** * XR session manager and camera component: a shallow embedding

    The development follows [src/framework/xr/xr-manager.js] (class
    [XrManager]) and the depth-map request counter of
    [src/framework/components/camera/component.js] (class
    [CameraComponent]).

    The manager is written in JavaScript against asynchronous host
    interfaces.  The embedding is by explicit state passing over a [world]:
    the manager's fields, the stores of the objects it shares with its
    collaborators (camera components, XR sessions), the list of asynchronous
    operations that have been issued and not yet completed, and the trace of
    the calls the manager makes on its collaborators.  Every method and every
    promise handler of the class is one function on that world. *)

From Stdlib Require Import ZArith List Lia QArith Qcanon.
From stdpp Require Import base option list strings gmap numbers.
From Equations Require Import Equations.
Import ListNotations.

Open Scope Z_scope.

(** ** JavaScript values used by the two classes *)

(** Finite JavaScript numbers; [===] on them is equality.  For the numbers
    held outside typed arrays (clip planes, viewports, transforms) NaN and
    the infinities are outside the model; the elements of typed arrays are
    [float32] below. *)
Abbreviation num := Qc (only parsing).

Definition Vec3 : Type := num * num * num.
Definition Vec4 : Type := num * num * num * num.
Definition Quat : Type := num * num * num * num.

(** An element of a [Float32Array]: a finite number, an infinity or NaN.
    Zero and negative zero are one value here: [===] answers [true] on them
    and no method below tells them apart. *)
Inductive float32 :=
| Finite (x : num)
| PosInfinity
| NegInfinity
| NaN.

(** [a === b] on two elements of a [Float32Array]: NaN is equal to nothing,
    itself included. *)
Definition strict_equals (a b : float32) : bool :=
  match a, b with
  | Finite x, Finite y => bool_decide (x = y)
  | PosInfinity, PosInfinity => true
  | NegInfinity, NegInfinity => true
  | _, _ => false
  end.

(** [Mat3] and [Mat4] hold a flat [Float32Array] of elements ([this.data]). *)
Definition Mat3 : Type := list float32.
Definition Mat4 : Type := list float32.

Definition Vec3_new : Vec3 := (0%Qc, 0%Qc, 0%Qc).
Definition Vec4_new : Vec4 := (0%Qc, 0%Qc, 0%Qc, 0%Qc).
Definition Quat_new : Quat := (0%Qc, 0%Qc, 0%Qc, 1%Qc).

(** [new Mat3()]: nine zeros with [data[0] = data[4] = data[8] = 1]. *)
Definition Mat3_new : Mat3 :=
  [Finite 1; Finite 0; Finite 0;
   Finite 0; Finite 1; Finite 0;
   Finite 0; Finite 0; Finite 1].

Definition Mat4_new : Mat4 :=
  [Finite 1; Finite 0; Finite 0; Finite 0;
   Finite 0; Finite 1; Finite 0; Finite 0;
   Finite 0; Finite 0; Finite 1; Finite 0;
   Finite 0; Finite 0; Finite 0; Finite 1].

(** [new Float32Array(3)] *)
Definition Float32Array3_new : list float32 := [Finite 0; Finite 0; Finite 0].

(** Exceptions and error objects. *)
Inductive js_error :=
| Error (message : string)   (* new Error(message) *)
| TypeError                  (* property access on undefined or null *)
| HostError (tag : nat).     (* a rejection value supplied by the host *)

(** What a method call produces: a returned value or a thrown exception. *)
Inductive outcome (A : Type) :=
| Return (a : A)
| Throw (e : js_error).
Arguments Return {A} a.
Arguments Throw {A} e.

(** A value returned by an accessor that answers [null] or a string. *)
Inductive js_value :=
| JsNull
| JsString (s : string).

(** Caller-supplied functions are known by their identity. *)
Abbreviation callback_id := nat (only parsing).

(** Truthiness of a string. *)
Definition truthy_string (s : string) : bool := negb (String.eqb s "").

(** ** JavaScript arrays and plain objects *)

(** [Array.prototype.pop]: the removed last element and the rest; [None]
    when the array is empty (the call answers [undefined]). *)
Definition js_pop {A} (l : list A) : option (A * list A) :=
  match reverse l with
  | [] => None
  | x :: r => Some (x, reverse r)
  end.

(** [Array.prototype.push] *)
Definition js_push {A} (l : list A) (x : A) : list A := l ++ [x].

(** [Array.prototype.indexOf]; [None] stands for -1. *)
Fixpoint indexOf (x : string) (l : list string) : option nat :=
  match l with
  | [] => None
  | y :: l' => if String.eqb y x then Some 0%nat else S <$> indexOf x l'
  end.

(** [l.splice(ind, 1)] *)
Definition splice1 (ind : nat) (l : list string) : list string := delete ind l.

(** [Array.prototype.unshift] *)
Definition unshift (x : string) (l : list string) : list string := x :: l.

(** A plain object used as a map from strings, in insertion order (the order
    in which [for ... in] visits the keys). *)
Fixpoint js_get {V} (o : list (string * V)) (k : string) : option V :=
  match o with
  | [] => None
  | (k', v) :: o' => if String.eqb k' k then Some v else js_get o' k
  end.

Fixpoint js_set {V} (o : list (string * V)) (k : string) (v : V) : list (string * V) :=
  match o with
  | [] => [(k, v)]
  | (k', v') :: o' =>
      if String.eqb k' k then (k', v) :: o' else (k', v') :: js_set o' k v
  end.

(** The names a plain object inherits from [Object.prototype]: its methods,
    [constructor], and the accessors of Annex B of the language.  None of
    them is enumerable, so [for ... in] does not visit them. *)
Definition Object_prototype : list string :=
  ["constructor"; "hasOwnProperty"; "isPrototypeOf"; "propertyIsEnumerable";
   "toLocaleString"; "toString"; "valueOf"; "__proto__"; "__defineGetter__";
   "__defineSetter__"; "__lookupGetter__"; "__lookupSetter__"].

(** What [o[k]] answers on a plain object [o] that was created as [{}] and
    holds booleans: the boolean stored under [k]; else the member of
    [Object.prototype] of that name (a function or, for [__proto__], the
    prototype itself); else [undefined], which is [None]. *)
Inductive property :=
| Own (b : bool)
| Inherited (name : string).

#[global] Instance property_eq_dec : EqDecision property.
Proof. solve_decision. Defined.

Definition js_lookup (o : list (string * bool)) (k : string) : option property :=
  match js_get o k with
  | Some b => Some (Own b)
  | None => if bool_decide (k ∈ Object_prototype) then Some (Inherited k) else None
  end.

(** Truthiness of what a property read answers: a stored boolean is its own
    value, an inherited member is an object, [undefined] is falsy. *)
Definition truthy (v : option property) : bool :=
  match v with
  | Some (Own b) => b
  | Some (Inherited _) => true
  | None => false
  end.

(** ** Constants of [xr/constants.js] *)

(** Modelled from the spec: [xr/constants.js] is not among the sources; the
    values are the ones the documentation comments of [start] and the
    end-to-end scenarios name. *)
Definition XRTYPE_INLINE : string := "inline".
Definition XRTYPE_VR : string := "immersive-vr".
Definition XRTYPE_AR : string := "immersive-ar".
Definition XRDEPTHSENSINGUSAGE_CPU : string := "cpu-optimized".
Definition XRDEPTHSENSINGFORMAT_L8A8 : string := "luminance-alpha".

(** ** The data model *)

(** A view record of [XrManager.update]: the object literal built when the
    pool is empty.  [vid] is the identity of the object (the number of view
    records created before it); the other fields are its properties. *)
Record view := {
  vid : nat;
  viewport : Vec4;
  projMat : Mat4;
  viewMat : Mat4;
  viewOffMat : Mat4;
  viewInvMat : Mat4;
  viewInvOffMat : Mat4;
  projViewOffMat : Mat4;
  viewMat3 : Mat3;
  position : list float32;
  rotation : Quat
}.

(** The fields of [XrManager].  Object references are identities: a session,
    a reference space, a camera component.  The base layer created for a
    session is known by that session. *)
Record XrManager := {
  _supported : bool;
  _available : list (string * bool);
  _type : option string;
  _spaceType : option string;
  _session : option nat;
  _baseLayer : option nat;
  _referenceSpace : option nat;
  _camera : option nat;
  views : list view;
  viewsPool : list view;
  _localPosition : Vec3;
  _localRotation : Quat;
  _depthNear : num;
  _depthFar : num;
  _width : Z;
  _height : Z
}.

(** What the manager reads of its capability sub-modules. *)
Record submodules := {
  depthSensing_supported : bool;
  domOverlay_supported : bool;
  domOverlay_root : option nat;
  hitTest_supported : bool;
  imageTracking_supported : bool;
  imageTracking_images_length : nat;
  lightEstimation_supported : bool;
  planeDetection_supported : bool
}.

(** A camera component.  The counters and flags of the scene-map requests
    and the layer ids are fields of [CameraComponent]; [camera_xr] is
    [camera.camera.xr] ([true] when it refers to the manager); the clip
    planes are stored on the render camera; the listeners of the two change
    notifications are [onClipPlanesChange] closures, each known by the
    session of the [_onSessionStart] call that created it; the local
    transform is the one of [camera.camera._node]. *)
Record CameraComponent := {
  _renderSceneDepthMap : Z;
  _renderSceneColorMap : Z;
  _sceneDepthMapRequested : bool;
  _sceneColorMapRequested : bool;
  layers : list Z;
  camera_xr : bool;
  nearClip : num;
  farClip : num;
  on_set_nearClip : list nat;
  on_set_farClip : list nat;
  node_localPosition : Vec3;
  node_localRotation : Quat
}.

(** An [XRSession] object of the host: its visibility state, whether the
    manager's [onEnd] and [onVisibilityChange] closures are registered on it,
    and the variable [failed] those closures share. *)
Record XRSession := {
  visibilityState_of : string;
  end_listener : bool;
  visibilitychange_listener : bool;
  failed : bool
}.

(** The dictionary passed to [navigator.xr.requestSession]. *)
Record depth_sensing_init := {
  usagePreference : list string;
  dataFormatPreference : list string
}.

Record session_init := {
  requiredFeatures : list string;
  optionalFeatures : list string;
  domOverlay : option nat;
  depthSensing : option depth_sensing_init;
  trackedImages : option nat
}.

(** The [options] argument of [start] in the forms its documentation
    describes: absent, a function (the callback itself), or an object.  The
    one other value that [typeof] calls an object is [null]; a call with it
    is [start_null] below. *)
Record depth_sensing_options := {
  opt_usagePreference : option string;
  opt_dataFormatPreference : option string
}.

Record start_options := {
  opt_optionalFeatures : option (list string);
  opt_imageTracking : bool;
  opt_planeDetection : bool;
  opt_callback : option callback_id;
  opt_depthSensing : option depth_sensing_options
}.

Inductive start_arg :=
| ArgUndefined
| ArgFunction (f : callback_id)
| ArgObject (o : start_options).

(** Asynchronous operations that were issued and have not completed, each
    with what its completion handlers captured. *)
Inductive pending_op :=
| PIsSessionSupported (type : string)
| PPrepareImages (type spaceType : string) (opts : session_init) (callback : option callback_id)
| PRequestSession (type spaceType : string) (opts : session_init) (callback : option callback_id)
| PRequestReferenceSpace (session : nat) (spaceType : string) (callback : option callback_id)
| PSessionEnd (session : nat).

(** Notifications the manager fires on itself. *)
Inductive notification :=
| NError (ex : js_error)
| NAvailable (type : string) (available : bool)
| NAvailableType (type : string) (available : bool)
| NStart
| NEnd
| NUpdate (frame : nat)
| NVisibilityChange (state : string).

(** Calls the manager makes on its collaborators, in program order. *)
Inductive effect :=
| ECallback (cb : callback_id) (err : option js_error)
| EFire (n : notification)
| EIsSessionSupported (type : string)
| EPrepareImages
| ERequestSession (type : string) (opts : session_init)
| ENewWebGLLayer (session : nat)
| EUpdateRenderState (session : nat) (baseLayer : option nat) (depthNear depthFar : num)
| ERequestReferenceSpace (session : nat) (spaceType : string)
| ESessionEnd (session : nat)
| ESetResolution (width height : Z)
| EAppTick
| ESubmoduleUpdate (name : string).

(** Everything the manager's code reads or writes: the manager itself, the
    camera components and sessions by identity, the sub-modules, the
    asynchronous operations not yet completed, the callbacks registered with
    [once('end', ...)], the number of view records created so far, and the
    trace. *)
Record world := {
  xr : XrManager;
  cameras : gmap nat CameraComponent;
  sessions : gmap nat XRSession;
  modules : submodules;
  pending : list pending_op;
  once_end : list callback_id;
  allocated : nat;
  trace : list effect
}.

(** Field updates: [mset_f v x] is [x] with field [_f] (or [f]) set to [v];
    [upd_f g w] applies [g] to field [f] of the world; [set_f v] sets a field
    of the manager inside the world; [cset_f] and [sset_f] set a field of a
    camera component and of a session. *)
Definition mset_available (v : list (string * bool)) (x : XrManager) : XrManager :=
  {| _supported := _supported x; _available := v; _type := _type x;
     _spaceType := _spaceType x; _session := _session x; _baseLayer := _baseLayer x;
     _referenceSpace := _referenceSpace x; _camera := _camera x; views := views x;
     viewsPool := viewsPool x; _localPosition := _localPosition x;
     _localRotation := _localRotation x; _depthNear := _depthNear x;
     _depthFar := _depthFar x; _width := _width x; _height := _height x |}.

Definition mset_type (v : option string) (x : XrManager) : XrManager :=
  {| _supported := _supported x; _available := _available x; _type := v;
     _spaceType := _spaceType x; _session := _session x; _baseLayer := _baseLayer x;
     _referenceSpace := _referenceSpace x; _camera := _camera x; views := views x;
     viewsPool := viewsPool x; _localPosition := _localPosition x;
     _localRotation := _localRotation x; _depthNear := _depthNear x;
     _depthFar := _depthFar x; _width := _width x; _height := _height x |}.

Definition mset_spaceType (v : option string) (x : XrManager) : XrManager :=
  {| _supported := _supported x; _available := _available x; _type := _type x;
     _spaceType := v; _session := _session x; _baseLayer := _baseLayer x;
     _referenceSpace := _referenceSpace x; _camera := _camera x; views := views x;
     viewsPool := viewsPool x; _localPosition := _localPosition x;
     _localRotation := _localRotation x; _depthNear := _depthNear x;
     _depthFar := _depthFar x; _width := _width x; _height := _height x |}.

Definition mset_session (v : option nat) (x : XrManager) : XrManager :=
  {| _supported := _supported x; _available := _available x; _type := _type x;
     _spaceType := _spaceType x; _session := v; _baseLayer := _baseLayer x;
     _referenceSpace := _referenceSpace x; _camera := _camera x; views := views x;
     viewsPool := viewsPool x; _localPosition := _localPosition x;
     _localRotation := _localRotation x; _depthNear := _depthNear x;
     _depthFar := _depthFar x; _width := _width x; _height := _height x |}.

Definition mset_baseLayer (v : option nat) (x : XrManager) : XrManager :=
  {| _supported := _supported x; _available := _available x; _type := _type x;
     _spaceType := _spaceType x; _session := _session x; _baseLayer := v;
     _referenceSpace := _referenceSpace x; _camera := _camera x; views := views x;
     viewsPool := viewsPool x; _localPosition := _localPosition x;
     _localRotation := _localRotation x; _depthNear := _depthNear x;
     _depthFar := _depthFar x; _width := _width x; _height := _height x |}.

Definition mset_referenceSpace (v : option nat) (x : XrManager) : XrManager :=
  {| _supported := _supported x; _available := _available x; _type := _type x;
     _spaceType := _spaceType x; _session := _session x; _baseLayer := _baseLayer x;
     _referenceSpace := v; _camera := _camera x; views := views x;
     viewsPool := viewsPool x; _localPosition := _localPosition x;
     _localRotation := _localRotation x; _depthNear := _depthNear x;
     _depthFar := _depthFar x; _width := _width x; _height := _height x |}.

Definition mset_camera (v : option nat) (x : XrManager) : XrManager :=
  {| _supported := _supported x; _available := _available x; _type := _type x;
     _spaceType := _spaceType x; _session := _session x; _baseLayer := _baseLayer x;
     _referenceSpace := _referenceSpace x; _camera := v; views := views x;
     viewsPool := viewsPool x; _localPosition := _localPosition x;
     _localRotation := _localRotation x; _depthNear := _depthNear x;
     _depthFar := _depthFar x; _width := _width x; _height := _height x |}.

Definition mset_views (v : list view) (x : XrManager) : XrManager :=
  {| _supported := _supported x; _available := _available x; _type := _type x;
     _spaceType := _spaceType x; _session := _session x; _baseLayer := _baseLayer x;
     _referenceSpace := _referenceSpace x; _camera := _camera x; views := v;
     viewsPool := viewsPool x; _localPosition := _localPosition x;
     _localRotation := _localRotation x; _depthNear := _depthNear x;
     _depthFar := _depthFar x; _width := _width x; _height := _height x |}.

Definition mset_viewsPool (v : list view) (x : XrManager) : XrManager :=
  {| _supported := _supported x; _available := _available x; _type := _type x;
     _spaceType := _spaceType x; _session := _session x; _baseLayer := _baseLayer x;
     _referenceSpace := _referenceSpace x; _camera := _camera x; views := views x;
     viewsPool := v; _localPosition := _localPosition x;
     _localRotation := _localRotation x; _depthNear := _depthNear x;
     _depthFar := _depthFar x; _width := _width x; _height := _height x |}.

Definition mset_localPosition (v : Vec3) (x : XrManager) : XrManager :=
  {| _supported := _supported x; _available := _available x; _type := _type x;
     _spaceType := _spaceType x; _session := _session x; _baseLayer := _baseLayer x;
     _referenceSpace := _referenceSpace x; _camera := _camera x; views := views x;
     viewsPool := viewsPool x; _localPosition := v; _localRotation := _localRotation x;
     _depthNear := _depthNear x; _depthFar := _depthFar x; _width := _width x;
     _height := _height x |}.

Definition mset_localRotation (v : Quat) (x : XrManager) : XrManager :=
  {| _supported := _supported x; _available := _available x; _type := _type x;
     _spaceType := _spaceType x; _session := _session x; _baseLayer := _baseLayer x;
     _referenceSpace := _referenceSpace x; _camera := _camera x; views := views x;
     viewsPool := viewsPool x; _localPosition := _localPosition x; _localRotation := v;
     _depthNear := _depthNear x; _depthFar := _depthFar x; _width := _width x;
     _height := _height x |}.

Definition mset_depthNear (v : num) (x : XrManager) : XrManager :=
  {| _supported := _supported x; _available := _available x; _type := _type x;
     _spaceType := _spaceType x; _session := _session x; _baseLayer := _baseLayer x;
     _referenceSpace := _referenceSpace x; _camera := _camera x; views := views x;
     viewsPool := viewsPool x; _localPosition := _localPosition x;
     _localRotation := _localRotation x; _depthNear := v; _depthFar := _depthFar x;
     _width := _width x; _height := _height x |}.

Definition mset_depthFar (v : num) (x : XrManager) : XrManager :=
  {| _supported := _supported x; _available := _available x; _type := _type x;
     _spaceType := _spaceType x; _session := _session x; _baseLayer := _baseLayer x;
     _referenceSpace := _referenceSpace x; _camera := _camera x; views := views x;
     viewsPool := viewsPool x; _localPosition := _localPosition x;
     _localRotation := _localRotation x; _depthNear := _depthNear x; _depthFar := v;
     _width := _width x; _height := _height x |}.

Definition mset_width (v : Z) (x : XrManager) : XrManager :=
  {| _supported := _supported x; _available := _available x; _type := _type x;
     _spaceType := _spaceType x; _session := _session x; _baseLayer := _baseLayer x;
     _referenceSpace := _referenceSpace x; _camera := _camera x; views := views x;
     viewsPool := viewsPool x; _localPosition := _localPosition x;
     _localRotation := _localRotation x; _depthNear := _depthNear x;
     _depthFar := _depthFar x; _width := v; _height := _height x |}.

Definition mset_height (v : Z) (x : XrManager) : XrManager :=
  {| _supported := _supported x; _available := _available x; _type := _type x;
     _spaceType := _spaceType x; _session := _session x; _baseLayer := _baseLayer x;
     _referenceSpace := _referenceSpace x; _camera := _camera x; views := views x;
     viewsPool := viewsPool x; _localPosition := _localPosition x;
     _localRotation := _localRotation x; _depthNear := _depthNear x;
     _depthFar := _depthFar x; _width := _width x; _height := v |}.

Definition upd_xr (f : XrManager -> XrManager) (w : world) : world :=
  {| xr := f (xr w); cameras := cameras w; sessions := sessions w;
     modules := modules w; pending := pending w; once_end := once_end w;
     allocated := allocated w; trace := trace w |}.

Definition upd_cameras (f : gmap nat CameraComponent -> gmap nat CameraComponent) (w : world) : world :=
  {| xr := xr w; cameras := f (cameras w); sessions := sessions w;
     modules := modules w; pending := pending w; once_end := once_end w;
     allocated := allocated w; trace := trace w |}.

Definition upd_sessions (f : gmap nat XRSession -> gmap nat XRSession) (w : world) : world :=
  {| xr := xr w; cameras := cameras w; sessions := f (sessions w);
     modules := modules w; pending := pending w; once_end := once_end w;
     allocated := allocated w; trace := trace w |}.

Definition upd_pending (f : list pending_op -> list pending_op) (w : world) : world :=
  {| xr := xr w; cameras := cameras w; sessions := sessions w; modules := modules w;
     pending := f (pending w); once_end := once_end w; allocated := allocated w;
     trace := trace w |}.

Definition upd_once_end (f : list callback_id -> list callback_id) (w : world) : world :=
  {| xr := xr w; cameras := cameras w; sessions := sessions w; modules := modules w;
     pending := pending w; once_end := f (once_end w); allocated := allocated w;
     trace := trace w |}.

Definition upd_allocated (f : nat -> nat) (w : world) : world :=
  {| xr := xr w; cameras := cameras w; sessions := sessions w; modules := modules w;
     pending := pending w; once_end := once_end w; allocated := f (allocated w);
     trace := trace w |}.

Definition upd_trace (f : list effect -> list effect) (w : world) : world :=
  {| xr := xr w; cameras := cameras w; sessions := sessions w; modules := modules w;
     pending := pending w; once_end := once_end w; allocated := allocated w;
     trace := f (trace w) |}.

Definition set_available (v : list (string * bool)) : world -> world := upd_xr (mset_available v).
Definition set_type (v : option string) : world -> world := upd_xr (mset_type v).
Definition set_spaceType (v : option string) : world -> world := upd_xr (mset_spaceType v).
Definition set_session (v : option nat) : world -> world := upd_xr (mset_session v).
Definition set_baseLayer (v : option nat) : world -> world := upd_xr (mset_baseLayer v).
Definition set_referenceSpace (v : option nat) : world -> world := upd_xr (mset_referenceSpace v).
Definition set_camera (v : option nat) : world -> world := upd_xr (mset_camera v).
Definition set_views (v : list view) : world -> world := upd_xr (mset_views v).
Definition set_viewsPool (v : list view) : world -> world := upd_xr (mset_viewsPool v).
Definition set_localPosition (v : Vec3) : world -> world := upd_xr (mset_localPosition v).
Definition set_localRotation (v : Quat) : world -> world := upd_xr (mset_localRotation v).
Definition set_depthNear (v : num) : world -> world := upd_xr (mset_depthNear v).
Definition set_depthFar (v : num) : world -> world := upd_xr (mset_depthFar v).
Definition set_width (v : Z) : world -> world := upd_xr (mset_width v).
Definition set_height (v : Z) : world -> world := upd_xr (mset_height v).

Definition cset_renderSceneDepthMap (v : Z) (c : CameraComponent) : CameraComponent :=
  {| _renderSceneDepthMap := v; _renderSceneColorMap := _renderSceneColorMap c;
     _sceneDepthMapRequested := _sceneDepthMapRequested c;
     _sceneColorMapRequested := _sceneColorMapRequested c; layers := layers c;
     camera_xr := camera_xr c; nearClip := nearClip c; farClip := farClip c;
     on_set_nearClip := on_set_nearClip c; on_set_farClip := on_set_farClip c;
     node_localPosition := node_localPosition c;
     node_localRotation := node_localRotation c |}.

Definition cset_renderSceneColorMap (v : Z) (c : CameraComponent) : CameraComponent :=
  {| _renderSceneDepthMap := _renderSceneDepthMap c; _renderSceneColorMap := v;
     _sceneDepthMapRequested := _sceneDepthMapRequested c;
     _sceneColorMapRequested := _sceneColorMapRequested c; layers := layers c;
     camera_xr := camera_xr c; nearClip := nearClip c; farClip := farClip c;
     on_set_nearClip := on_set_nearClip c; on_set_farClip := on_set_farClip c;
     node_localPosition := node_localPosition c;
     node_localRotation := node_localRotation c |}.

Definition cset_sceneDepthMapRequested (v : bool) (c : CameraComponent) : CameraComponent :=
  {| _renderSceneDepthMap := _renderSceneDepthMap c;
     _renderSceneColorMap := _renderSceneColorMap c; _sceneDepthMapRequested := v;
     _sceneColorMapRequested := _sceneColorMapRequested c; layers := layers c;
     camera_xr := camera_xr c; nearClip := nearClip c; farClip := farClip c;
     on_set_nearClip := on_set_nearClip c; on_set_farClip := on_set_farClip c;
     node_localPosition := node_localPosition c;
     node_localRotation := node_localRotation c |}.

Definition cset_sceneColorMapRequested (v : bool) (c : CameraComponent) : CameraComponent :=
  {| _renderSceneDepthMap := _renderSceneDepthMap c;
     _renderSceneColorMap := _renderSceneColorMap c;
     _sceneDepthMapRequested := _sceneDepthMapRequested c;
     _sceneColorMapRequested := v; layers := layers c; camera_xr := camera_xr c;
     nearClip := nearClip c; farClip := farClip c;
     on_set_nearClip := on_set_nearClip c; on_set_farClip := on_set_farClip c;
     node_localPosition := node_localPosition c;
     node_localRotation := node_localRotation c |}.

Definition cset_layers (v : list Z) (c : CameraComponent) : CameraComponent :=
  {| _renderSceneDepthMap := _renderSceneDepthMap c;
     _renderSceneColorMap := _renderSceneColorMap c;
     _sceneDepthMapRequested := _sceneDepthMapRequested c;
     _sceneColorMapRequested := _sceneColorMapRequested c; layers := v;
     camera_xr := camera_xr c; nearClip := nearClip c; farClip := farClip c;
     on_set_nearClip := on_set_nearClip c; on_set_farClip := on_set_farClip c;
     node_localPosition := node_localPosition c;
     node_localRotation := node_localRotation c |}.

Definition cset_camera_xr (v : bool) (c : CameraComponent) : CameraComponent :=
  {| _renderSceneDepthMap := _renderSceneDepthMap c;
     _renderSceneColorMap := _renderSceneColorMap c;
     _sceneDepthMapRequested := _sceneDepthMapRequested c;
     _sceneColorMapRequested := _sceneColorMapRequested c; layers := layers c;
     camera_xr := v; nearClip := nearClip c; farClip := farClip c;
     on_set_nearClip := on_set_nearClip c; on_set_farClip := on_set_farClip c;
     node_localPosition := node_localPosition c;
     node_localRotation := node_localRotation c |}.

Definition cset_nearClip (v : num) (c : CameraComponent) : CameraComponent :=
  {| _renderSceneDepthMap := _renderSceneDepthMap c;
     _renderSceneColorMap := _renderSceneColorMap c;
     _sceneDepthMapRequested := _sceneDepthMapRequested c;
     _sceneColorMapRequested := _sceneColorMapRequested c; layers := layers c;
     camera_xr := camera_xr c; nearClip := v; farClip := farClip c;
     on_set_nearClip := on_set_nearClip c; on_set_farClip := on_set_farClip c;
     node_localPosition := node_localPosition c;
     node_localRotation := node_localRotation c |}.

Definition cset_farClip (v : num) (c : CameraComponent) : CameraComponent :=
  {| _renderSceneDepthMap := _renderSceneDepthMap c;
     _renderSceneColorMap := _renderSceneColorMap c;
     _sceneDepthMapRequested := _sceneDepthMapRequested c;
     _sceneColorMapRequested := _sceneColorMapRequested c; layers := layers c;
     camera_xr := camera_xr c; nearClip := nearClip c; farClip := v;
     on_set_nearClip := on_set_nearClip c; on_set_farClip := on_set_farClip c;
     node_localPosition := node_localPosition c;
     node_localRotation := node_localRotation c |}.

Definition cset_on_set_nearClip (v : list nat) (c : CameraComponent) : CameraComponent :=
  {| _renderSceneDepthMap := _renderSceneDepthMap c;
     _renderSceneColorMap := _renderSceneColorMap c;
     _sceneDepthMapRequested := _sceneDepthMapRequested c;
     _sceneColorMapRequested := _sceneColorMapRequested c; layers := layers c;
     camera_xr := camera_xr c; nearClip := nearClip c; farClip := farClip c;
     on_set_nearClip := v; on_set_farClip := on_set_farClip c;
     node_localPosition := node_localPosition c;
     node_localRotation := node_localRotation c |}.

Definition cset_on_set_farClip (v : list nat) (c : CameraComponent) : CameraComponent :=
  {| _renderSceneDepthMap := _renderSceneDepthMap c;
     _renderSceneColorMap := _renderSceneColorMap c;
     _sceneDepthMapRequested := _sceneDepthMapRequested c;
     _sceneColorMapRequested := _sceneColorMapRequested c; layers := layers c;
     camera_xr := camera_xr c; nearClip := nearClip c; farClip := farClip c;
     on_set_nearClip := on_set_nearClip c; on_set_farClip := v;
     node_localPosition := node_localPosition c;
     node_localRotation := node_localRotation c |}.

Definition cset_node_localPosition (v : Vec3) (c : CameraComponent) : CameraComponent :=
  {| _renderSceneDepthMap := _renderSceneDepthMap c;
     _renderSceneColorMap := _renderSceneColorMap c;
     _sceneDepthMapRequested := _sceneDepthMapRequested c;
     _sceneColorMapRequested := _sceneColorMapRequested c; layers := layers c;
     camera_xr := camera_xr c; nearClip := nearClip c; farClip := farClip c;
     on_set_nearClip := on_set_nearClip c; on_set_farClip := on_set_farClip c;
     node_localPosition := v; node_localRotation := node_localRotation c |}.

Definition cset_node_localRotation (v : Quat) (c : CameraComponent) : CameraComponent :=
  {| _renderSceneDepthMap := _renderSceneDepthMap c;
     _renderSceneColorMap := _renderSceneColorMap c;
     _sceneDepthMapRequested := _sceneDepthMapRequested c;
     _sceneColorMapRequested := _sceneColorMapRequested c; layers := layers c;
     camera_xr := camera_xr c; nearClip := nearClip c; farClip := farClip c;
     on_set_nearClip := on_set_nearClip c; on_set_farClip := on_set_farClip c;
     node_localPosition := node_localPosition c; node_localRotation := v |}.

Definition sset_visibilityState_of (v : string) (s : XRSession) : XRSession :=
  {| visibilityState_of := v; end_listener := end_listener s;
     visibilitychange_listener := visibilitychange_listener s; failed := failed s |}.

Definition sset_end_listener (v : bool) (s : XRSession) : XRSession :=
  {| visibilityState_of := visibilityState_of s; end_listener := v;
     visibilitychange_listener := visibilitychange_listener s; failed := failed s |}.

Definition sset_visibilitychange_listener (v : bool) (s : XRSession) : XRSession :=
  {| visibilityState_of := visibilityState_of s; end_listener := end_listener s;
     visibilitychange_listener := v; failed := failed s |}.

Definition sset_failed (v : bool) (s : XRSession) : XRSession :=
  {| visibilityState_of := visibilityState_of s; end_listener := end_listener s;
     visibilitychange_listener := visibilitychange_listener s; failed := v |}.

(** ** Shared objects and the trace *)

(** The layers a camera renders by default, as the documentation of
    [layers] gives them.  The five ids are constants of [scene/constants.js],
    which is not among the sources: they are parameters. *)
Definition default_layers
    (LAYERID_WORLD LAYERID_DEPTH LAYERID_SKYBOX LAYERID_UI LAYERID_IMMEDIATE : Z) : list Z :=
  [LAYERID_WORLD; LAYERID_DEPTH; LAYERID_SKYBOX; LAYERID_UI; LAYERID_IMMEDIATE].

(** A camera component as its constructor leaves it, on a render camera whose
    layers are [layers0] ([default_layers] of the five ids unless the camera
    was given others); the clip planes are the defaults of the render
    camera. *)
Definition CameraComponent_new (layers0 : list Z) : CameraComponent :=
  {| _renderSceneDepthMap := 0;
     _renderSceneColorMap := 0;
     _sceneDepthMapRequested := false;
     _sceneColorMapRequested := false;
     layers := layers0;
     camera_xr := false;
     nearClip := Q2Qc (1 # 10);
     farClip := Q2Qc (1000 # 1);
     on_set_nearClip := [];
     on_set_farClip := [];
     node_localPosition := Vec3_new;
     node_localRotation := Quat_new |}.

(** A session object as the host hands it over. *)
Definition XRSession_new : XRSession :=
  {| visibilityState_of := "visible";
     end_listener := false;
     visibilitychange_listener := false;
     failed := false |}.

(** A camera the manager and the host have not touched yet, as far as the
    manager is concerned: no back-reference, no listener, the clip planes and
    the node's transform of a new component.  The manager reads and writes
    nothing else of a camera; the layers and the scene-map counters, which it
    never looks at, are those of a component that was given no layers. *)
Definition camera_untouched : CameraComponent := CameraComponent_new [].

(** An object the stores have no entry for has not been touched yet. *)
Definition camera_of (w : world) (c : nat) : CameraComponent :=
  default camera_untouched (cameras w !! c).

Definition session_of (w : world) (s : nat) : XRSession :=
  default XRSession_new (sessions w !! s).

Definition upd_camera (c : nat) (f : CameraComponent -> CameraComponent) (w : world) : world :=
  upd_cameras (fun m => <[c := f (camera_of w c)]> m) w.

Definition upd_session (s : nat) (f : XRSession -> XRSession) (w : world) : world :=
  upd_sessions (fun m => <[s := f (session_of w s)]> m) w.

Definition emit (e : effect) : world -> world :=
  upd_trace (fun t => t ++ [e]).

Definition enqueue (p : pending_op) : world -> world :=
  upd_pending (fun q => q ++ [p]).

(** [if (callback) callback(err)] *)
Definition call (callback : option callback_id) (err : option js_error) (w : world) : world :=
  match callback with
  | Some cb => emit (ECallback cb err) w
  | None => w
  end.

(** Modelled from the spec: [EventHandler] ([core/event-handler.js]) is not
    among the sources.  [fire] notifies the observers; a callback registered
    with [once('end', callback)] runs at the next 'end' notification and is
    then forgotten. *)
Definition fire (n : notification) (w : world) : world :=
  let w := emit (EFire n) w in
  match n with
  | NEnd =>
      fold_left (fun w cb => emit (ECallback cb None) w) (once_end w)
                (upd_once_end (fun _ => []) w)
  | _ => w
  end.

(** [this.once('end', callback)] *)
Definition once_end_add (cb : callback_id) : world -> world :=
  upd_once_end (fun l => l ++ [cb]).

(** [on] and [off] of a camera's change notification. *)
Definition listener_on (s : nat) (l : list nat) : list nat := l ++ [s].
Definition listener_off (s : nat) (l : list nat) : list nat :=
  filter (fun s' => s' <> s) l.

(** ** [XrManager]: availability *)

(** [isAvailable(type)]: [this._available[type]], a property read on the
    plain object the constructor created as [{}]. *)
Definition isAvailable (type : string) (w : world) : option property :=
  js_lookup (_available (xr w)) type.

Definition _sessionSupportCheck (type : string) (w : world) : world :=
  enqueue (PIsSessionSupported type) (emit (EIsSessionSupported type) w).

Definition _deviceAvailabilityCheck (w : world) : world :=
  fold_left (fun w key => _sessionSupportCheck key w) (map fst (_available (xr w))) w.

(** The [then] handler of [isSessionSupported(type)].  The check was issued
    by [_sessionSupportCheck] for a key of [_available], one of the keys the
    object holds itself. *)
Definition isSessionSupported_then (type : string) (available : bool) (w : world) : world :=
  if bool_decide (isAvailable type w = Some (Own available)) then w
  else
    let w := set_available (js_set (_available (xr w)) type available) w in
    let w := fire (NAvailable type available) w in
    fire (NAvailableType type available) w.

(** The [catch] handler of [isSessionSupported(type)]. *)
Definition isSessionSupported_catch (ex : js_error) (w : world) : world :=
  fire (NError ex) w.

(** The constructor.  [supported] is [platform.browser && !!navigator.xr];
    [m] is what the freshly built sub-modules report. *)
Definition constructor (supported : bool) (m : submodules) : world :=
  let x :=
    {| _supported := supported;
       _available := [];
       _type := None;
       _spaceType := None;
       _session := None;
       _baseLayer := None;
       _referenceSpace := None;
       _camera := None;
       views := [];
       viewsPool := [];
       _localPosition := Vec3_new;
       _localRotation := Quat_new;
       _depthNear := Q2Qc (1 # 10);
       _depthFar := Q2Qc (1000 # 1);
       _width := 0;
       _height := 0 |} in
  let w :=
    {| xr := x; cameras := ∅; sessions := ∅; modules := m;
       pending := []; once_end := []; allocated := 0%nat; trace := [] |} in
  let w := set_available (js_set (_available (xr w)) XRTYPE_INLINE false) w in
  let w := set_available (js_set (_available (xr w)) XRTYPE_VR false) w in
  let w := set_available (js_set (_available (xr w)) XRTYPE_AR false) w in
  if _supported (xr w) then _deviceAvailabilityCheck w else w.

(** ** [XrManager]: clip planes *)

Definition _setClipPlanes (near far : num) (w : world) : world :=
  if bool_decide (_depthNear (xr w) = near) && bool_decide (_depthFar (xr w) = far)
  then w
  else
    let w := set_depthNear near w in
    let w := set_depthFar far w in
    match _session (xr w) with
    | None => w
    | Some s =>
        emit (EUpdateRenderState s None (_depthNear (xr w)) (_depthFar (xr w))) w
    end.

(** The closure [onClipPlanesChange] of [_onSessionStart].  With no bound
    camera the property read throws and nothing else happens. *)
Definition onClipPlanesChange (w : world) : world :=
  match _camera (xr w) with
  | Some c => _setClipPlanes (nearClip (camera_of w c)) (farClip (camera_of w c)) w
  | None => w
  end.

(** ** [XrManager]: session negotiation *)

Definition push_optional (f : string) (o : session_init) : session_init :=
  {| requiredFeatures := requiredFeatures o;
     optionalFeatures := js_push (optionalFeatures o) f;
     domOverlay := domOverlay o;
     depthSensing := depthSensing o;
     trackedImages := trackedImages o |}.

Definition set_optionalFeatures (fs : list string) (o : session_init) : session_init :=
  {| requiredFeatures := requiredFeatures o;
     optionalFeatures := fs;
     domOverlay := domOverlay o;
     depthSensing := depthSensing o;
     trackedImages := trackedImages o |}.

Definition set_domOverlay (r : option nat) (o : session_init) : session_init :=
  {| requiredFeatures := requiredFeatures o;
     optionalFeatures := optionalFeatures o;
     domOverlay := r;
     depthSensing := depthSensing o;
     trackedImages := trackedImages o |}.

Definition set_depthSensing (d : option depth_sensing_init) (o : session_init) : session_init :=
  {| requiredFeatures := requiredFeatures o;
     optionalFeatures := optionalFeatures o;
     domOverlay := domOverlay o;
     depthSensing := d;
     trackedImages := trackedImages o |}.

Definition set_trackedImages (t : option nat) (o : session_init) : session_init :=
  {| requiredFeatures := requiredFeatures o;
     optionalFeatures := optionalFeatures o;
     domOverlay := domOverlay o;
     depthSensing := depthSensing o;
     trackedImages := t |}.

(** The preference list of [start]: the list starts as [defaults]; a
    preference given by the caller (a truthy string) is spliced out of the
    list when [indexOf] finds it, then unshifted. *)
Definition preference_list (defaults : list string) (pref : option string) : list string :=
  match pref with
  | Some p =>
      if truthy_string p then
        let l := match indexOf p defaults with
                 | Some ind => splice1 ind defaults
                 | None => defaults
                 end in
        unshift p l
      else defaults
  | None => defaults
  end.

(** The object [options] when its properties can hold something: the
    properties [start] reads are all undefined on a function. *)
Definition options_object (options : start_arg) : option start_options :=
  match options with
  | ArgObject o => Some o
  | _ => None
  end.

(** The dictionary [opts] that [start] assembles. *)
Definition start_opts (type spaceType : string) (options : start_arg) (m : submodules) : session_init :=
  let o := options_object options in
  let opts :=
    {| requiredFeatures := [spaceType];
       optionalFeatures := [];
       domOverlay := None;
       depthSensing := None;
       trackedImages := None |} in
  let opts :=
    if String.eqb type XRTYPE_AR then
      let opts := push_optional "light-estimation" opts in
      let opts := push_optional "hit-test" opts in
      let opts :=
        match o with
        | Some o =>
            let opts :=
              if opt_imageTracking o && imageTracking_supported m
              then push_optional "image-tracking" opts else opts in
            if opt_planeDetection o
            then push_optional "plane-detection" opts else opts
        | None => opts
        end in
      let opts :=
        match domOverlay_supported m, domOverlay_root m with
        | true, Some root =>
            set_domOverlay (Some root) (push_optional "dom-overlay" opts)
        | _, _ => opts
        end in
      match o ≫= opt_depthSensing with
      | Some ds =>
          if depthSensing_supported m then
            let opts := push_optional "depth-sensing" opts in
            let usage :=
              preference_list [XRDEPTHSENSINGUSAGE_CPU] (opt_usagePreference ds) in
            let format :=
              preference_list [XRDEPTHSENSINGFORMAT_L8A8] (opt_dataFormatPreference ds) in
            set_depthSensing
              (Some {| usagePreference := usage; dataFormatPreference := format |}) opts
          else opts
      | None => opts
      end
    else if String.eqb type XRTYPE_VR then
      push_optional "hand-tracking" opts
    else opts in
  match o ≫= opt_optionalFeatures with
  | Some fs => set_optionalFeatures (optionalFeatures opts ++ fs) opts
  | None => opts
  end.

(** [_onStartOptionsReady]: [navigator.xr.requestSession(type, options)],
    with the two handlers of its promise pending. *)
Definition _onStartOptionsReady (type spaceType : string) (options : session_init)
    (callback : option callback_id) (w : world) : world :=
  enqueue (PRequestSession type spaceType options callback)
          (emit (ERequestSession type options) w).

(** The callback [start] passes to [imageTracking.prepareImages]. *)
Definition prepareImages_callback (type spaceType : string) (opts : session_init)
    (callback : option callback_id) (err : option js_error) (tracked : option nat)
    (w : world) : world :=
  match err with
  | Some e =>
      let w := call callback (Some e) w in
      fire (NError e) w
  | None =>
      let opts := match tracked with
                  | Some t => set_trackedImages (Some t) opts
                  | None => opts
                  end in
      _onStartOptionsReady type spaceType opts callback w
  end.

(** The callback of a [start] call. *)
Definition start_callback (options : start_arg) : option callback_id :=
  match options with
  | ArgObject o => opt_callback o
  | ArgFunction f => Some f
  | ArgUndefined => None
  end.

Definition start (camera : nat) (type spaceType : string) (options : start_arg)
    (w : world) : world :=
  let callback := start_callback options in
  if negb (truthy (isAvailable type w)) then
    call callback (Some (Error "XR is not available")) w
  else
    match _session (xr w) with
    | Some _ => call callback (Some (Error "XR session is already started")) w
    | None =>
        let w := set_camera (Some camera) w in
        let w := upd_camera camera (cset_camera_xr true) w in
        let w := set_type (Some type) w in
        let w := set_spaceType (Some spaceType) w in
        let w := _setClipPlanes (nearClip (camera_of w camera))
                                (farClip (camera_of w camera)) w in
        let opts := start_opts type spaceType options (modules w) in
        if imageTracking_supported (modules w)
           && negb (Nat.eqb (imageTracking_images_length (modules w)) 0)
        then
          enqueue (PPrepareImages type spaceType opts callback) (emit EPrepareImages w)
        else
          _onStartOptionsReady type spaceType opts callback w
    end.

(** [start(camera, type, spaceType, null)]: [typeof null] is ['object'], so
    the first statements read [options.callback] of [null].  That read
    throws before the manager has looked at or written anything, and there
    is no callback to tell. *)
Definition start_null (camera : nat) (type spaceType : string) (w : world)
    : world * outcome unit :=
  (w, Throw TypeError).

(** ** [XrManager]: binding the session *)

(** [_onSessionStart].  The variable [failed] and the closures [onEnd],
    [onVisibilityChange] and [onClipPlanesChange] belong to this call, hence
    to [session].  Registering the clip-plane listeners reads [this._camera];
    when that is [null] the call throws there. *)
Definition _onSessionStart (session : nat) (spaceType : string)
    (callback : option callback_id) (w : world) : world * outcome unit :=
  let w := upd_session session (sset_failed false) w in
  let w := set_session (Some session) w in
  let w := upd_session session (sset_end_listener true) w in
  let w := upd_session session (sset_visibilitychange_listener true) w in
  match _camera (xr w) with
  | None => (w, Throw TypeError)
  | Some c =>
      let w := upd_camera c (fun o => cset_on_set_nearClip (listener_on session (on_set_nearClip o)) o) w in
      let w := upd_camera c (fun o => cset_on_set_farClip (listener_on session (on_set_farClip o)) o) w in
      let w := emit (ENewWebGLLayer session) w in
      let w := set_baseLayer (Some session) w in
      let w := emit (EUpdateRenderState session (_baseLayer (xr w))
                       (_depthNear (xr w)) (_depthFar (xr w))) w in
      let w := emit (ERequestReferenceSpace session spaceType) w in
      (enqueue (PRequestReferenceSpace session spaceType callback) w, Return tt)
  end.

(** The [catch] handler of [requestSession(...).then(...)].  With no bound
    camera its first statement throws and the rest does not run. *)
Definition requestSession_catch (callback : option callback_id) (ex : js_error)
    (w : world) : world :=
  match _camera (xr w) with
  | None => w
  | Some c =>
      let w := upd_camera c (cset_camera_xr false) w in
      let w := set_camera None w in
      let w := set_type None w in
      let w := set_spaceType None w in
      let w := call callback (Some ex) w in
      fire (NError ex) w
  end.

(** The [then] handler of [requestSession]; an exception of
    [_onSessionStart] reaches the [catch] handler chained after it. *)
Definition requestSession_then (session : nat) (spaceType : string)
    (callback : option callback_id) (w : world) : world :=
  match _onSessionStart session spaceType callback w with
  | (w, Return _) => w
  | (w, Throw ex) => requestSession_catch callback ex w
  end.

(** The [then] handler of [requestReferenceSpace]. *)
Definition requestReferenceSpace_then (referenceSpace : nat)
    (callback : option callback_id) (w : world) : world :=
  let w := set_referenceSpace (Some referenceSpace) w in
  let w := emit EAppTick w in
  let w := call callback None w in
  fire NStart w.

(** The [catch] handler of [requestReferenceSpace]: [session.end()] asks the
    host to end the session; the host dispatches the 'end' event later. *)
Definition requestReferenceSpace_catch (session : nat)
    (callback : option callback_id) (ex : js_error) (w : world) : world :=
  let w := upd_session session (sset_failed true) w in
  let w := enqueue (PSessionEnd session) (emit (ESessionEnd session) w) in
  let w := call callback (Some ex) w in
  fire (NError ex) w.

(** The closure [onEnd] of the [_onSessionStart] call for [session]. *)
Definition onEnd (session : nat) (w : world) : world :=
  let w :=
    match _camera (xr w) with
    | Some c =>
        let w := upd_camera c (fun o => cset_on_set_nearClip (listener_off session (on_set_nearClip o)) o) w in
        let w := upd_camera c (fun o => cset_on_set_farClip (listener_off session (on_set_farClip o)) o) w in
        let w := upd_camera c (cset_camera_xr false) w in
        set_camera None w
    | None => w
    end in
  let w := upd_session session (sset_end_listener false) w in
  let w := upd_session session (sset_visibilitychange_listener false) w in
  let w := if failed (session_of w session) then w else fire NEnd w in
  let w := set_session None w in
  let w := set_referenceSpace None w in
  let w := set_views [] w in
  let w := set_width 0 w in
  let w := set_height 0 w in
  let w := set_type None w in
  let w := set_spaceType None w in
  emit EAppTick w.

(** The closure [onVisibilityChange] of the call for [session]. *)
Definition onVisibilityChange (session : nat) (w : world) : world :=
  fire (NVisibilityChange (visibilityState_of (session_of w session))) w.

(** [end(callback)] *)
Definition end_ (callback : option callback_id) (w : world) : world :=
  match _session (xr w) with
  | None => call callback (Some (Error "XR Session is not initialized")) w
  | Some s =>
      let w := match callback with
               | Some cb => once_end_add cb w
               | None => w
               end in
      enqueue (PSessionEnd s) (emit (ESessionEnd s) w)
  end.

(** ** [XrManager]: accessors *)

Definition supported (w : world) : bool := _supported (xr w).
Definition active (w : world) : bool := bool_decide (is_Some (_session (xr w))).
Definition type (w : world) : option string := _type (xr w).
Definition spaceType (w : world) : option string := _spaceType (xr w).
Definition session (w : world) : option nat := _session (xr w).

Definition visibilityState (w : world) : js_value :=
  match _session (xr w) with
  | None => JsNull
  | Some s => JsString (visibilityState_of (session_of w s))
  end.

(** ** [XrManager]: the per-frame update *)

(** What [update] reads of the host's frame: the size of the base layer's
    framebuffer, and the viewer pose that [getViewerPose] answers for the
    bound reference space ([None] when there is none), with for each view its
    matrices and the viewport the layer gives it. *)
Record XRView := {
  projectionMatrix : list float32;
  transform_matrix : list float32;
  transform_inverse_matrix : list float32;
  layer_viewport : num * num * num * num      (* x, y, width, height *)
}.

Record XRViewerPose := {
  pose_views : list XRView;
  transform_position : Vec3;
  transform_orientation : Quat
}.

Record XRFrame := {
  frame_id : nat;
  framebufferWidth : Z;
  framebufferHeight : Z;
  getViewerPose : option XRViewerPose
}.

(** The object literal of the growing loop. *)
Definition view_new (id : nat) : view :=
  {| vid := id;
     viewport := Vec4_new;
     projMat := Mat4_new;
     viewMat := Mat4_new;
     viewOffMat := Mat4_new;
     viewInvMat := Mat4_new;
     viewInvOffMat := Mat4_new;
     projViewOffMat := Mat4_new;
     viewMat3 := Mat3_new;
     position := Float32Array3_new;
     rotation := Quat_new |}.

(** The body of the growing loop: pop the pool, build a record when the pool
    gave nothing, push onto the views. *)
Definition add_view (w : world) : world :=
  match js_pop (viewsPool (xr w)) with
  | Some (v, rest) =>
      let w := set_viewsPool rest w in
      set_views (js_push (views (xr w)) v) w
  | None =>
      let v := view_new (allocated w) in
      let w := upd_allocated S w in
      set_views (js_push (views (xr w)) v) w
  end.

(** The body of the shrinking loop.  The loop condition holds only when the
    view list is not empty. *)
Definition remove_view (w : world) : world :=
  match js_pop (views (xr w)) with
  | Some (v, rest) =>
      let w := set_views rest w in
      set_viewsPool (js_push (viewsPool (xr w)) v) w
  | None => w
  end.

Definition views_length (w : world) : Z := Z.of_nat (length (views (xr w))).

(** [for (let i = 0; i <= (lengthNew - this.views.length); i++)]: the bound
    is read again at every test. *)
Equations? grow_views (lengthNew i : Z) (w : world) : world
  by wf (Z.to_nat (lengthNew - views_length w - i + 1)) lt :=
grow_views lengthNew i w with decide (i <= lengthNew - views_length w) := {
  | left _ => grow_views lengthNew (i + 1) (add_view w)
  | right _ => w }.
Proof.
  unfold views_length, add_view in *.
  destruct (js_pop (viewsPool (xr w))) as [[v rest]|]; simpl;
    unfold js_push; rewrite length_app; simpl; lia.
Qed.

(** [for (let i = 0; i < (this.views.length - lengthNew); i++)] *)
Equations? shrink_views (lengthNew i : Z) (w : world) : world
  by wf (Z.to_nat (views_length w - lengthNew - i)) lt :=
shrink_views lengthNew i w with decide (i < views_length w - lengthNew) := {
  | left _ => shrink_views lengthNew (i + 1) (remove_view w)
  | right _ => w }.
Proof.
  unfold views_length, remove_view in *.
  destruct (js_pop (views (xr w))) as [[v rest]|] eqn:E; simpl; [|lia].
  unfold js_pop in E. destruct (reverse (views (xr w))) as [|x r] eqn:R; [done|].
  injection E as <- <-.
  apply (f_equal length) in R. rewrite length_reverse in R.
  simpl in *. rewrite length_reverse. lia.
Qed.

(** The resize step of [update]. *)
Definition resize_views (lengthNew : Z) (w : world) : world :=
  if decide (lengthNew > views_length w) then grow_views lengthNew 0 w
  else if decide (lengthNew <= views_length w) then shrink_views lengthNew 0 w
  else w.

(** What the per-view loop writes into a view record. *)
Definition write_view (viewRaw : XRView) (v : view) : view :=
  let '(x, y, width, height) := layer_viewport viewRaw in
  {| vid := vid v;
     viewport := (x, y, width, height);
     projMat := projectionMatrix viewRaw;
     viewMat := transform_inverse_matrix viewRaw;
     viewOffMat := viewOffMat v;
     viewInvMat := transform_matrix viewRaw;
     viewInvOffMat := viewInvOffMat v;
     projViewOffMat := projViewOffMat v;
     viewMat3 := viewMat3 v;
     position := position v;
     rotation := rotation v |}.

(** [for (let i = 0; i < pose.views.length; i++)] from index [i] on.  Where
    [this.views[i]] is undefined, [view.viewport] throws. *)
Fixpoint write_views (raws : list XRView) (i : nat) (vs : list view)
    : list view * option js_error :=
  match raws with
  | [] => (vs, None)
  | viewRaw :: rest =>
      match vs !! i with
      | None => (vs, Some TypeError)
      | Some v => write_views rest (S i) (<[i := write_view viewRaw v]> vs)
      end
  end.

(** The sub-module updates of an AR session. *)
Definition update_ar (w : world) : world :=
  let m := modules w in
  let w := if hitTest_supported m then emit (ESubmoduleUpdate "hitTest") w else w in
  let w := if lightEstimation_supported m then emit (ESubmoduleUpdate "lightEstimation") w else w in
  let w := if depthSensing_supported m then emit (ESubmoduleUpdate "depthSensing") w else w in
  let w := if imageTracking_supported m then emit (ESubmoduleUpdate "imageTracking") w else w in
  if planeDetection_supported m then emit (ESubmoduleUpdate "planeDetection") w else w.

Definition update (frame : XRFrame) (w : world) : world * outcome bool :=
  match _session (xr w) with
  | None => (w, Return false)
  | Some _ =>
      let width := framebufferWidth frame in
      let height := framebufferHeight frame in
      let w :=
        if negb (bool_decide (_width (xr w) = width))
           || negb (bool_decide (_height (xr w) = height))
        then
          let w := set_width width w in
          let w := set_height height w in
          emit (ESetResolution width height) w
        else w in
      match getViewerPose frame with
      | None => (w, Return false)
      | Some pose =>
          let lengthNew := Z.of_nat (length (pose_views pose)) in
          let w := resize_views lengthNew w in
          let w := set_localPosition (transform_position pose) w in
          let w := set_localRotation (transform_orientation pose) w in
          match write_views (pose_views pose) 0 (views (xr w)) with
          | (vs, Some e) => (set_views vs w, Throw e)
          | (vs, None) =>
              let w := set_views vs w in
              match _camera (xr w) with
              | None => (w, Throw TypeError)
              | Some c =>
                  let w := upd_camera c (cset_node_localPosition (_localPosition (xr w))) w in
                  let w := upd_camera c (cset_node_localRotation (_localRotation (xr w))) w in
                  let w := emit (ESubmoduleUpdate "input") w in
                  let w := if bool_decide (_type (xr w) = Some XRTYPE_AR)
                           then update_ar w else w in
                  let w := fire (NUpdate (frame_id frame)) w in
                  (w, Return true)
              end
          end
      end
  end.

(** ** The host: completions and events *)

(** The setters of [nearClip] and [farClip] of a camera component, two of
    the properties [component.js] defines in a loop on the prototype:
    [this._camera[name] = newValue], a store on the render camera and nothing
    more.  The listeners that [_onSessionStart] registers on the component
    for 'set_nearClip' and 'set_farClip' are not run by it. *)
Definition camera_set_nearClip (c : nat) (newValue : num) (w : world) : world :=
  upd_camera c (cset_nearClip newValue) w.

Definition camera_set_farClip (c : nat) (newValue : num) (w : world) : world :=
  upd_camera c (cset_farClip newValue) w.

(** The host dispatches 'end' on a session: the listener runs if it is
    registered. *)
Definition session_end_event (s : nat) (w : world) : world :=
  if end_listener (session_of w s) then onEnd s w else w.

(** The host changes the visibility of a session and dispatches
    'visibilitychange'. *)
Definition session_visibilitychange_event (s : nat) (state : string) (w : world) : world :=
  let w := upd_session s (sset_visibilityState_of state) w in
  if visibilitychange_listener (session_of w s) then onVisibilityChange s w else w.

(** How a pending operation can complete. *)
Inductive completion :=
| Supported (available : bool)          (* isSessionSupported resolves *)
| ImagesPrepared (tracked : option nat) (* prepareImages calls back without error *)
| SessionGranted (session : nat)        (* requestSession resolves *)
| SpaceGranted (referenceSpace : nat)   (* requestReferenceSpace resolves *)
| Rejected (ex : js_error)              (* the promise rejects; prepareImages calls back with an error *)
| Ended.                                (* the 'end' event that follows session.end() *)

(** The handler that a completion runs, when it fits the operation. *)
Definition handler (op : pending_op) (c : completion) : option (world -> world) :=
  match op, c with
  | PIsSessionSupported type, Supported available =>
      Some (isSessionSupported_then type available)
  | PIsSessionSupported _, Rejected ex =>
      Some (isSessionSupported_catch ex)
  | PPrepareImages type spaceType opts callback, ImagesPrepared tracked =>
      Some (prepareImages_callback type spaceType opts callback None tracked)
  | PPrepareImages type spaceType opts callback, Rejected ex =>
      Some (prepareImages_callback type spaceType opts callback (Some ex) None)
  | PRequestSession _ spaceType _ callback, SessionGranted session =>
      Some (requestSession_then session spaceType callback)
  | PRequestSession _ _ _ callback, Rejected ex =>
      Some (requestSession_catch callback ex)
  | PRequestReferenceSpace _ _ callback, SpaceGranted referenceSpace =>
      Some (requestReferenceSpace_then referenceSpace callback)
  | PRequestReferenceSpace session _ callback, Rejected ex =>
      Some (requestReferenceSpace_catch session callback ex)
  | PSessionEnd session, Ended =>
      Some (session_end_event session)
  | _, _ => None
  end.

(** The host completes the [k]-th pending operation. *)
Definition deliver (k : nat) (c : completion) (w : world) : world :=
  match pending w !! k with
  | None => w
  | Some op =>
      match handler op c with
      | None => w
      | Some h => h (upd_pending (delete k) w)
      end
  end.

(** Everything that can happen to the manager. *)
Inductive action :=
| AStart (camera : nat) (type spaceType : string) (options : start_arg)
| AEnd (callback : option callback_id)
| AUpdate (frame : XRFrame)
| ADeliver (k : nat) (c : completion)
| ASessionEnd (session : nat)                        (* the device ends the session *)
| AVisibilityChange (session : nat) (state : string)
| ADeviceChange                                      (* 'devicechange' on navigator.xr *)
| ASetNearClip (camera : nat) (newValue : num)
| ASetFarClip (camera : nat) (newValue : num)
| AStartNull (camera : nat) (type spaceType : string). (* start with null for options *)

Definition step (a : action) (w : world) : world :=
  match a with
  | AStart camera type spaceType options => start camera type spaceType options w
  | AEnd callback => end_ callback w
  | AUpdate frame => fst (update frame w)
  | ADeliver k c => deliver k c w
  | ASessionEnd s => session_end_event s w
  | AVisibilityChange s state => session_visibilitychange_event s state w
  | ADeviceChange => if _supported (xr w) then _deviceAvailabilityCheck w else w
  | ASetNearClip c v => camera_set_nearClip c v w
  | ASetFarClip c v => camera_set_farClip c v w
  | AStartNull camera type spaceType => fst (start_null camera type spaceType w)
  end.

Definition run (acts : list action) (w : world) : world :=
  fold_left (fun w a => step a w) acts w.

(** [updates frames w]: the world after [update] ran on each frame in turn,
    when every call returned [true]. *)
Fixpoint updates (frames : list XRFrame) (w : world) : option world :=
  match frames with
  | [] => Some w
  | frame :: rest =>
      match update frame w with
      | (w', Return true) => updates rest w'
      | _ => None
      end
  end.

(** ** [CameraComponent]: scene-map requests *)

(** Calls a camera component makes on [Debug] and on the depth layer. *)
Inductive camera_effect :=
| EDebugAssertFailed
| EDebugWarnOnce (message : string)
| EIncrementCounter
| EDecrementCounter.

(** [_enableDepthLayer(value)].  [LAYERID_DEPTH] is a constant of
    [scene/constants.js]; [depthLayer] tells whether the scene has a layer of
    that id.  [find] answers the element it found, which is then tested for
    truthiness. *)
Definition _enableDepthLayer (LAYERID_DEPTH : Z) (depthLayer : bool) (value : bool)
    (c : CameraComponent) : list camera_effect * bool :=
  let hasDepthLayer := List.find (fun layerId => Z.eqb layerId LAYERID_DEPTH) (layers c) in
  match hasDepthLayer with
  | Some id =>
      if negb (Z.eqb id 0) then
        (if depthLayer
         then [if value then EIncrementCounter else EDecrementCounter]
         else [], true)
      else if value then ([], false) else ([], true)
  | None => if value then ([], false) else ([], true)
  end.

(** [requestSceneDepthMap(enabled)] *)
Definition requestSceneDepthMap (LAYERID_DEPTH : Z) (depthLayer : bool) (enabled : bool)
    (c : CameraComponent) : CameraComponent * list camera_effect :=
  let c := cset_renderSceneDepthMap
             (_renderSceneDepthMap c + (if enabled then 1 else -1)) c in
  let asserted := if decide (_renderSceneDepthMap c >= 0) then [] else [EDebugAssertFailed] in
  let '(effects, ok) := _enableDepthLayer LAYERID_DEPTH depthLayer enabled c in
  let warned :=
    if ok then []
    else [EDebugWarnOnce "CameraComponent.requestSceneDepthMap was called, but the camera does not have a Depth layer, ignoring."] in
  (c, asserted ++ effects ++ warned).

(** A sequence of calls, the results of each fed to the next. *)
Definition requestSceneDepthMap_calls (LAYERID_DEPTH : Z) (depthLayer : bool)
    (calls : list bool) (c : CameraComponent) : CameraComponent :=
  fold_left (fun c enabled => fst (requestSceneDepthMap LAYERID_DEPTH depthLayer enabled c)) calls c.

(** [requestSceneColorMap(enabled)] *)
Definition requestSceneColorMap (LAYERID_DEPTH : Z) (depthLayer : bool) (enabled : bool)
    (c : CameraComponent) : CameraComponent * list camera_effect :=
  let c := cset_renderSceneColorMap
             (_renderSceneColorMap c + (if enabled then 1 else -1)) c in
  let asserted := if decide (_renderSceneColorMap c >= 0) then [] else [EDebugAssertFailed] in
  let '(effects, ok) := _enableDepthLayer LAYERID_DEPTH depthLayer enabled c in
  let warned :=
    if ok then []
    else [EDebugWarnOnce "CameraComponent.requestSceneColorMap was called, but the camera does not have a Depth layer, ignoring."] in
  (c, asserted ++ effects ++ warned).

(** [set renderSceneColorMap(value)] *)
Definition set_renderSceneColorMap (LAYERID_DEPTH : Z) (depthLayer : bool) (value : bool)
    (c : CameraComponent) : CameraComponent * list camera_effect :=
  if value && negb (_sceneColorMapRequested c) then
    let '(c, effects) := requestSceneColorMap LAYERID_DEPTH depthLayer true c in
    (cset_sceneColorMapRequested true c, effects)
  else if _sceneColorMapRequested c then
    let '(c, effects) := requestSceneColorMap LAYERID_DEPTH depthLayer false c in
    (cset_sceneColorMapRequested false c, effects)
  else (c, []).

(** [get renderSceneColorMap()] *)
Definition get_renderSceneColorMap (c : CameraComponent) : bool :=
  bool_decide (_renderSceneColorMap c > 0).

(** [set renderSceneDepthMap(value)] *)
Definition set_renderSceneDepthMap (LAYERID_DEPTH : Z) (depthLayer : bool) (value : bool)
    (c : CameraComponent) : CameraComponent * list camera_effect :=
  if value && negb (_sceneDepthMapRequested c) then
    let '(c, effects) := requestSceneDepthMap LAYERID_DEPTH depthLayer true c in
    (cset_sceneDepthMapRequested true c, effects)
  else if _sceneDepthMapRequested c then
    let '(c, effects) := requestSceneDepthMap LAYERID_DEPTH depthLayer false c in
    (cset_sceneDepthMapRequested false c, effects)
  else (c, []).

(** [get renderSceneDepthMap()] *)
Definition get_renderSceneDepthMap (c : CameraComponent) : bool :=
  bool_decide (_renderSceneDepthMap c > 0).

(** A call on the scene-map interface of a camera component. *)
Inductive map_call :=
| RequestDepthMap (enabled : bool)
| RequestColorMap (enabled : bool)
| SetRenderSceneDepthMap (value : bool)
| SetRenderSceneColorMap (value : bool).

Definition map_call_run (LAYERID_DEPTH : Z) (depthLayer : bool) (call : map_call)
    (c : CameraComponent) : CameraComponent * list camera_effect :=
  match call with
  | RequestDepthMap enabled => requestSceneDepthMap LAYERID_DEPTH depthLayer enabled c
  | RequestColorMap enabled => requestSceneColorMap LAYERID_DEPTH depthLayer enabled c
  | SetRenderSceneDepthMap value => set_renderSceneDepthMap LAYERID_DEPTH depthLayer value c
  | SetRenderSceneColorMap value => set_renderSceneColorMap LAYERID_DEPTH depthLayer value c
  end.

(** A sequence of such calls: the component at the end and everything the
    calls did to [Debug] and to the depth layer, in order. *)
Fixpoint map_calls_run (LAYERID_DEPTH : Z) (depthLayer : bool) (calls : list map_call)
    (c : CameraComponent) : CameraComponent * list camera_effect :=
  match calls with
  | [] => (c, [])
  | call :: rest =>
      let '(c1, effects1) := map_call_run LAYERID_DEPTH depthLayer call c in
      let '(c2, effects2) := map_calls_run LAYERID_DEPTH depthLayer rest c1 in
      (c2, effects1 ++ effects2)
  end.

(** ** [CameraComponent]: entering and leaving XR *)

(** [startXr(type, spaceType, options)] on the component [c]. *)
Definition startXr (c : nat) (type spaceType : string) (options : start_arg)
    (w : world) : world :=
  start c type spaceType options w.

(** [endXr(callback)] on the component [c]: [this._camera.xr] is the
    back-reference the manager installs on the render camera. *)
Definition endXr (c : nat) (callback : option callback_id) (w : world) : world :=
  if negb (camera_xr (camera_of w c)) then
    call callback (Some (Error "Camera is not in XR")) w
  else end_ callback w.

(** ** [Mat3] *)

(** [m[i]] on the [Float32Array] of a matrix.  The arrays of [Mat3] and
    [Mat4] have 9 and 16 elements and every index the methods use is inside
    them; the default stands for a read that the methods never make. *)
Definition elem (m : list float32) (i : nat) : float32 := default (Finite 0) (m !! i).

(** [copy(rhs)] on the matrix [dst]. *)
Definition Mat3_copy (rhs : Mat3) (dst : Mat3) : Mat3 :=
  let src := rhs in
  let dst := <[0%nat := elem src 0]> dst in
  let dst := <[1%nat := elem src 1]> dst in
  let dst := <[2%nat := elem src 2]> dst in
  let dst := <[3%nat := elem src 3]> dst in
  let dst := <[4%nat := elem src 4]> dst in
  let dst := <[5%nat := elem src 5]> dst in
  let dst := <[6%nat := elem src 6]> dst in
  let dst := <[7%nat := elem src 7]> dst in
  let dst := <[8%nat := elem src 8]> dst in
  dst.

(** [clone()]: [new cstr().copy(this)] *)
Definition Mat3_clone (m : Mat3) : Mat3 := Mat3_copy m Mat3_new.

(** [equals(rhs)] *)
Definition Mat3_equals (l r : Mat3) : bool :=
  strict_equals (elem l 0) (elem r 0)
  && strict_equals (elem l 1) (elem r 1)
  && strict_equals (elem l 2) (elem r 2)
  && strict_equals (elem l 3) (elem r 3)
  && strict_equals (elem l 4) (elem r 4)
  && strict_equals (elem l 5) (elem r 5)
  && strict_equals (elem l 6) (elem r 6)
  && strict_equals (elem l 7) (elem r 7)
  && strict_equals (elem l 8) (elem r 8).

(** [isIdentity()] *)
Definition Mat3_isIdentity (m : Mat3) : bool :=
  strict_equals (elem m 0) (Finite 1)
  && strict_equals (elem m 1) (Finite 0)
  && strict_equals (elem m 2) (Finite 0)
  && strict_equals (elem m 3) (Finite 0)
  && strict_equals (elem m 4) (Finite 1)
  && strict_equals (elem m 5) (Finite 0)
  && strict_equals (elem m 6) (Finite 0)
  && strict_equals (elem m 7) (Finite 0)
  && strict_equals (elem m 8) (Finite 1).

(** [setIdentity()] *)
Definition Mat3_setIdentity (m : Mat3) : Mat3 :=
  let m := <[0%nat := Finite 1]> m in
  let m := <[1%nat := Finite 0]> m in
  let m := <[2%nat := Finite 0]> m in
  let m := <[3%nat := Finite 0]> m in
  let m := <[4%nat := Finite 1]> m in
  let m := <[5%nat := Finite 0]> m in
  let m := <[6%nat := Finite 0]> m in
  let m := <[7%nat := Finite 0]> m in
  let m := <[8%nat := Finite 1]> m in
  m.

(** [transpose()]: three swaps through [tmp]. *)
Definition Mat3_transpose (m : Mat3) : Mat3 :=
  let tmp := elem m 1 in
  let m := <[1%nat := elem m 3]> m in
  let m := <[3%nat := tmp]> m in
  let tmp := elem m 2 in
  let m := <[2%nat := elem m 6]> m in
  let m := <[6%nat := tmp]> m in
  let tmp := elem m 5 in
  let m := <[5%nat := elem m 7]> m in
  let m := <[7%nat := tmp]> m in
  m.

(** [setFromMat4(m)] on the matrix [dst]. *)
Definition Mat3_setFromMat4 (m : Mat4) (dst : Mat3) : Mat3 :=
  let src := m in
  let dst := <[0%nat := elem src 0]> dst in
  let dst := <[1%nat := elem src 1]> dst in
  let dst := <[2%nat := elem src 2]> dst in
  let dst := <[3%nat := elem src 4]> dst in
  let dst := <[4%nat := elem src 5]> dst in
  let dst := <[5%nat := elem src 6]> dst in
  let dst := <[6%nat := elem src 8]> dst in
  let dst := <[7%nat := elem src 9]> dst in
  let dst := <[8%nat := elem src 10]> dst in
  dst.

(** ** Quantities the properties are stated with *)

(** The number of times each loop body runs, from the counter [i] and the
    length [len] of the view list at a test of the condition. *)
Definition grow_count (lengthNew i len : Z) : nat :=
  if decide (i <= lengthNew - len)
  then Z.to_nat ((lengthNew - len - i) / 2 + 1) else 0%nat.

Definition shrink_count (lengthNew i len : Z) : nat :=
  if decide (i < len - lengthNew)
  then Z.to_nat ((len - lengthNew - i + 1) / 2) else 0%nat.

(** The identities of the view records the manager holds, active or pooled. *)
Definition records (w : world) : list nat :=
  vid <$> (views (xr w) ++ viewsPool (xr w)).

Definition pool_length (w : world) : nat := length (viewsPool (xr w)).
Definition active_length (w : world) : nat := length (views (xr w)).

(** The number of views a frame's pose reports. *)
Definition view_count (frame : XRFrame) : nat :=
  match getViewerPose frame with
  | Some pose => length (pose_views pose)
  | None => 0%nat
  end.

(** The largest view count of a sequence of frames. *)
Definition max_view_count (frames : list XRFrame) : nat :=
  foldr (fun frame m => Nat.max (view_count frame) m) 0%nat frames.

Definition is_update (a : action) : bool :=
  match a with
  | AUpdate _ => true
  | _ => false
  end.

(** A resolved support check. *)
Definition is_support_result (a : action) : bool :=
  match a with
  | ADeliver _ (Supported _) => true
  | _ => false
  end.

(** A [start] call answered synchronously with the error [message]: the
    callback, when there is one, is called with it, and nothing else
    changes. *)
Definition failed_with (message : string) (options : start_arg) (w : world) : world :=
  call (start_callback options) (Some (Error message)) w.

(** Whether an entry of the trace is a session request. *)
Definition requests_session (e : effect) : bool :=
  match e with
  | ERequestSession _ _ => true
  | _ => false
  end.

(** The list [l] without the first occurrence of [x]. *)
Fixpoint remove_first (x : string) (l : list string) : list string :=
  match l with
  | [] => []
  | y :: l' => if String.eqb y x then l' else y :: remove_first x l'
  end.

(** [x] moved to the front of [l]: removed from where it was, then placed
    first. *)
Definition move_to_front (x : string) (l : list string) : list string :=
  x :: remove_first x l.

(** The default list with the caller's preference, when one is specified
    (a non-empty string), moved to the front. *)
Definition specified_first (pref : option string) (defaults : list string) : list string :=
  match pref with
  | Some p => if truthy_string p then move_to_front p defaults else defaults
  | None => defaults
  end.

(** The number of enabling and of disabling calls in a sequence. *)
Definition enables (calls : list bool) : Z :=
  Z.of_nat (length (filter (fun b => b = true) calls)).

Definition disables (calls : list bool) : Z :=
  Z.of_nat (length (filter (fun b => b = false) calls)).

(** The optional features that [start] asks for by itself, in the order of
    the request, before those the caller lists. *)
Definition builtin_features (type : string) (options : start_arg) (m : submodules)
    : list string :=
  let o := options_object options in
  if String.eqb type XRTYPE_AR then
    ["light-estimation"; "hit-test"]
    ++ (if default false (opt_imageTracking <$> o) && imageTracking_supported m
        then ["image-tracking"] else [])
    ++ (if default false (opt_planeDetection <$> o) then ["plane-detection"] else [])
    ++ (if domOverlay_supported m && bool_decide (is_Some (domOverlay_root m))
        then ["dom-overlay"] else [])
    ++ (if bool_decide (is_Some (o ≫= opt_depthSensing)) && depthSensing_supported m
        then ["depth-sensing"] else [])
  else if String.eqb type XRTYPE_VR then ["hand-tracking"]
  else [].

(** The notifications of a support check that answered [available] for
    [type] when the flag was [before]. *)
Definition availability_notifications (type : string) (before : option property)
    (available : bool) : list effect :=
  if bool_decide (before = Some (Own available)) then []
  else [EFire (NAvailable type available); EFire (NAvailableType type available)].

(** What [update] tells the graphics device: the resolution, when the size
    of the frame's framebuffer is not the one the manager has cached. *)
Definition resolution_change (frame : XRFrame) (w : world) : list effect :=
  if negb (bool_decide (_width (xr w) = framebufferWidth frame))
     || negb (bool_decide (_height (xr w) = framebufferHeight frame))
  then [ESetResolution (framebufferWidth frame) (framebufferHeight frame)]
  else [].

(** The sub-modules that [update] updates, in order: the input sources, and
    for an AR session those of the five capabilities that are supported. *)
Definition submodule_updates (type : option string) (m : submodules) : list effect :=
  [ESubmoduleUpdate "input"]
  ++ (if bool_decide (type = Some XRTYPE_AR) then
        (if hitTest_supported m then [ESubmoduleUpdate "hitTest"] else [])
        ++ (if lightEstimation_supported m then [ESubmoduleUpdate "lightEstimation"] else [])
        ++ (if depthSensing_supported m then [ESubmoduleUpdate "depthSensing"] else [])
        ++ (if imageTracking_supported m then [ESubmoduleUpdate "imageTracking"] else [])
        ++ (if planeDetection_supported m then [ESubmoduleUpdate "planeDetection"] else [])
      else []).

Definition sets_resolution (e : effect) : bool :=
  match e with
  | ESetResolution _ _ => true
  | _ => false
  end.

(** Whether [start] has images to prepare before it can request the
    session. *)
Definition prepares_images (m : submodules) : bool :=
  imageTracking_supported m && negb (Nat.eqb (imageTracking_images_length m) 0).

(** The call of a callback, when there is one. *)
Definition called (callback : option callback_id) (err : option js_error) : list effect :=
  match callback with
  | Some cb => [ECallback cb err]
  | None => []
  end.

(** The states the manager can be in: what a sequence of calls, completions
    and events leaves of a newly constructed manager. *)
Definition reachable (w : world) : Prop :=
  exists supported m acts, w = run acts (constructor supported m).


(** The session the manager holds has the manager's 'end' and
    'visibilitychange' listeners registered on it. *)
Definition session_is_listened (w : world) : Prop :=
  forall s, _session (xr w) = Some s ->
    end_listener (session_of w s) = true
    /\ visibilitychange_listener (session_of w s) = true.

(** The camera the manager is bound to refers back to the manager. *)
Definition bound_camera_refers_back (w : world) : Prop :=
  forall c, _camera (xr w) = Some c -> camera_xr (camera_of w c) = true.

(** The session types the manager keeps an availability flag for. *)
Definition session_types : list string := [XRTYPE_INLINE; XRTYPE_VR; XRTYPE_AR].

(** A pending support check is for one of those types. *)
Definition checks_known_type (op : pending_op) : Prop :=
  match op with
  | PIsSessionSupported type => type ∈ session_types
  | _ => True
  end.

(** The availability object has exactly those three keys, in that order,
    and no support check is pending for another type. *)
Definition availability_keys_fixed (w : world) : Prop :=
  map fst (_available (xr w)) = session_types
  /\ Forall checks_known_type (pending w).

(** The view records the manager holds are distinct objects, each created by
    the manager. *)
Definition records_distinct (w : world) : Prop :=
  NoDup (records w) /\ Forall (fun id => (id < allocated w)%nat) (records w).

(** A callback called with an error. *)
Definition is_error_callback (e : effect) : bool :=
  match e with
  | ECallback _ (Some _) => true
  | _ => false
  end.

(** A call of [start] whose type is the name of a member of
    [Object.prototype]. *)
Definition starts_inherited_name (a : action) : bool :=
  match a with
  | AStart _ type _ _ => bool_decide (type ∈ Object_prototype)
  | _ => false
  end.

(** A manager that has nothing in flight and nothing registered: no flag of
    the availability object is set (only the names it inherits answer
    something truthy), no operation is pending, no session is set, no
    listener of the manager is registered on a session or on a camera, and
    all it has done is to call callbacks with errors. *)
Definition dormant (w : world) : Prop :=
  _supported (xr w) = false
  /\ (forall type, type ∉ Object_prototype -> truthy (isAvailable type w) = false)
  /\ pending w = []
  /\ _session (xr w) = None
  /\ (forall s, end_listener (session_of w s) = false
                /\ visibilitychange_listener (session_of w s) = false)
  /\ (forall c, on_set_nearClip (camera_of w c) = []
                /\ on_set_farClip (camera_of w c) = [])
  /\ Forall is_error_callback (trace w).

(** What a sequence of [Debug] and depth-layer calls adds to the enable
    counter of the depth layer. *)
Fixpoint layer_delta (effects : list camera_effect) : Z :=
  match effects with
  | [] => 0
  | EIncrementCounter :: rest => 1 + layer_delta rest
  | EDecrementCounter :: rest => -1 + layer_delta rest
  | _ :: rest => layer_delta rest
  end.

Definition is_layer_call (e : camera_effect) : bool :=
  match e with
  | EIncrementCounter | EDecrementCounter => true
  | _ => false
  end.

Definition is_warning (e : camera_effect) : bool :=
  match e with
  | EDebugWarnOnce _ => true
  | _ => false
  end.

(** Whether a call enables: a request with [true]. *)
Definition is_enabling_request (call : map_call) : bool :=
  match call with
  | RequestDepthMap true | RequestColorMap true => true
  | _ => false
  end.

Definition is_request (call : map_call) : bool :=
  match call with
  | RequestDepthMap _ | RequestColorMap _ => true
  | _ => false
  end.

Definition is_setter (call : map_call) : bool :=
  match call with
  | SetRenderSceneDepthMap _ | SetRenderSceneColorMap _ => true
  | _ => false
  end.

(** Each request counter is 1 when the setter's flag is raised and 0 when it
    is not. *)
Definition counters_follow_flags (c : CameraComponent) : Prop :=
  _renderSceneDepthMap c = (if _sceneDepthMapRequested c then 1 else 0)
  /\ _renderSceneColorMap c = (if _sceneColorMapRequested c then 1 else 0).

(** Linear arithmetic with division by a constant. *)
Ltac dlia := Z.to_euclidean_division_equations; lia.

(** ** Worlds and frames the examples run on *)

(** What the sub-modules report: nothing supported; image tracking supported
    with one image configured; depth sensing supported. *)
Definition modules_plain : submodules :=
  {| depthSensing_supported := false;
     domOverlay_supported := false;
     domOverlay_root := None;
     hitTest_supported := false;
     imageTracking_supported := false;
     imageTracking_images_length := 0;
     lightEstimation_supported := false;
     planeDetection_supported := false |}.

Definition modules_image_tracking : submodules :=
  {| depthSensing_supported := false;
     domOverlay_supported := false;
     domOverlay_root := None;
     hitTest_supported := false;
     imageTracking_supported := true;
     imageTracking_images_length := 1;
     lightEstimation_supported := false;
     planeDetection_supported := false |}.

Definition modules_depth_sensing : submodules :=
  {| depthSensing_supported := true;
     domOverlay_supported := false;
     domOverlay_root := None;
     hitTest_supported := false;
     imageTracking_supported := false;
     imageTracking_images_length := 0;
     lightEstimation_supported := false;
     planeDetection_supported := false |}.

(** A manager on a host with XR; the support check for immersive VR has
    resolved to [true], the other two are pending. *)
Definition world_vr_available : world :=
  deliver 1 (Supported true) (constructor true modules_plain).

(** [start(camera 7, "immersive-vr", "local-floor", callback 10)]; the
    session request is pending. *)
Definition world_vr_requested : world :=
  start 7 XRTYPE_VR "local-floor" (ArgFunction 10) world_vr_available.

(** A second [start], for camera 8, while the first request is pending. *)
Definition world_vr_requested_twice : world :=
  start 8 XRTYPE_VR "local" (ArgFunction 20) world_vr_requested.

(** [world_vr_requested] when the host grants the session: the request has
    left the pending list and [_onSessionStart] is about to run. *)
Definition world_vr_granted : world :=
  upd_pending (delete 2%nat) world_vr_requested.

(** The host granted session 100; the reference space request is pending. *)
Definition world_vr_binding : world :=
  deliver 2 (SessionGranted 100) world_vr_requested.

(** The host granted reference space 200: the session is fully started. *)
Definition world_vr_active : world :=
  deliver 2 (SpaceGranted 200) world_vr_binding.

Definition raw_view : XRView :=
  {| projectionMatrix := Mat4_new;
     transform_matrix := Mat4_new;
     transform_inverse_matrix := Mat4_new;
     layer_viewport := (0%Qc, 0%Qc, Q2Qc (640 # 1), Q2Qc (480 # 1)) |}.

(** A frame whose pose reports [n] views. *)
Definition frame_with (n : nat) : XRFrame :=
  {| frame_id := n;
     framebufferWidth := 1280;
     framebufferHeight := 480;
     getViewerPose :=
       Some {| pose_views := repeat raw_view n;
               transform_position := Vec3_new;
               transform_orientation := Quat_new |} |}.

Definition options_image_tracking : start_options :=
  {| opt_optionalFeatures := None;
     opt_imageTracking := true;
     opt_planeDetection := false;
     opt_callback := Some 10%nat;
     opt_depthSensing := None |}.

(** Immersive AR is available; [start] for camera 7 waits for the images to
    be prepared. *)
Definition world_ar_preparing : world :=
  start 7 XRTYPE_AR "local" (ArgObject options_image_tracking)
        (deliver 2 (Supported true) (constructor true modules_image_tracking)).

(** The preparation fails with a host error. *)
Definition world_ar_preparation_failed : world :=
  deliver 2 (Rejected (HostError 1)) world_ar_preparing.

(** The preparation succeeds, and the host then rejects the session request. *)
Definition world_ar_request_rejected : world :=
  deliver 2 (Rejected (HostError 1)) (deliver 2 (ImagesPrepared None) world_ar_preparing).

Definition depth_gpu : depth_sensing_options :=
  {| opt_usagePreference := Some "gpu-optimized";
     opt_dataFormatPreference := None |}.

Definition options_depth_gpu : start_options :=
  {| opt_optionalFeatures := None;
     opt_imageTracking := false;
     opt_planeDetection := false;
     opt_callback := None;
     opt_depthSensing := Some depth_gpu |}.

(** Immersive AR is available on a host with depth sensing. *)
Definition world_ar_depth : world :=
  deliver 2 (Supported true) (constructor true modules_depth_sensing).

(** A complete session: start for camera 7, the two grants, a frame of two
    views, [end] with callback 30, and the host's 'end' event. *)
Definition world_vr_ended : world :=
  run [AStart 7 XRTYPE_VR "local-floor" (ArgFunction 10);
       ADeliver 2 (SessionGranted 100);
       ADeliver 2 (SpaceGranted 200);
       AUpdate (frame_with 2);
       AEnd (Some 30%nat);
       ADeliver 2 Ended]
      (run [ADeliver 1 (Supported true)] (constructor true modules_plain)).

(** * Properties *)

(** ** Arrays *)

Lemma js_pop_Some {A} (l r : list A) (x : A) :
  js_pop l = Some (x, r) -> l = r ++ [x].
Proof.
  unfold js_pop. destruct (reverse l) as [|y t] eqn:E; [done|].
  intros [= -> <-].
  apply (f_equal reverse) in E.
  by rewrite reverse_involutive, reverse_cons in E.
Qed.

Lemma js_pop_None {A} (l : list A) : js_pop l = None -> l = [].
Proof.
  unfold js_pop. destruct (reverse l) as [|y t] eqn:E; [|done].
  intros _. apply (f_equal reverse) in E.
  by rewrite reverse_involutive in E.
Qed.

(** ** What the trace and store operations leave alone *)

Lemma xr_call cb err w : xr (call cb err w) = xr w.
Proof. by destruct cb. Qed.

Lemma fold_emit_callbacks_frame {A} (proj : world -> A) (cbs : list nat) :
  (forall e w, proj (emit e w) = proj w) ->
  forall w, proj (fold_left (fun w cb => emit (ECallback cb None) w) cbs w) = proj w.
Proof.
  intros Hemit. induction cbs as [|cb cbs IH]; intros w; simpl; [done|].
  by rewrite IH, Hemit.
Qed.

Lemma xr_fire n w : xr (fire n w) = xr w.
Proof.
  unfold fire. destruct n; try reflexivity.
  by rewrite (fold_emit_callbacks_frame xr).
Qed.

Lemma xr_upd_camera c f w : xr (upd_camera c f w) = xr w.
Proof. reflexivity. Qed.

Lemma cameras_call cb err w : cameras (call cb err w) = cameras w.
Proof. by destruct cb. Qed.

Lemma sessions_call cb err w : sessions (call cb err w) = sessions w.
Proof. by destruct cb. Qed.

Lemma sessions_fire n w : sessions (fire n w) = sessions w.
Proof.
  unfold fire. destruct n; try reflexivity.
  by rewrite (fold_emit_callbacks_frame sessions).
Qed.

Lemma camera_of_upd_camera c f w :
  camera_of (upd_camera c f w) c = f (camera_of w c).
Proof. unfold camera_of at 1. simpl. by rewrite lookup_insert_eq. Qed.

(** ** The two loops of the resize step *)

Lemma views_length_add_view w : views_length (add_view w) = views_length w + 1.
Proof.
  unfold views_length, add_view.
  destruct (js_pop (viewsPool (xr w))) as [[v rest]|]; simpl;
    unfold js_push; rewrite length_app; simpl; lia.
Qed.

Lemma views_length_remove_view w :
  0 < views_length w -> views_length (remove_view w) = views_length w - 1.
Proof.
  unfold views_length, remove_view. intros H.
  destruct (js_pop (views (xr w))) as [[v rest]|] eqn:E.
  - apply js_pop_Some in E. simpl. rewrite E, length_app. simpl. lia.
  - apply js_pop_None in E. rewrite E in H. simpl in H. lia.
Qed.

(** Each loop is its body iterated: the growing loop [grow_count] times,
    the shrinking loop [shrink_count] times. *)
Lemma grow_views_iter lengthNew i w :
  grow_views lengthNew i w =
  Nat.iter (grow_count lengthNew i (views_length w)) add_view w.
Proof.
  funelim (grow_views lengthNew i w); unfold grow_count.
  - rewrite decide_True by done.
    rewrite H. rewrite views_length_add_view. unfold grow_count.
    set (m := lengthNew - views_length w - i) in *.
    destruct (decide (i + 1 <= lengthNew - (views_length w + 1))) as [Hle|Hgt].
    + replace (lengthNew - (views_length w + 1) - (i + 1)) with (m - 2) by lia.
      replace ((m - 2) / 2 + 1) with (m / 2) by
        (replace m with ((m - 2) + 1 * 2) at 1 by lia; rewrite Z.div_add by lia; lia).
      assert (0 <= m / 2) by (apply Z.div_pos; lia).
      rewrite Z2Nat.inj_add by lia. change (Z.to_nat 1) with 1%nat.
      rewrite Nat.add_1_r. by rewrite Nat.iter_succ_r.
    + assert (Hm : m / 2 = 0) by (apply Z.div_small; lia).
      rewrite Hm. reflexivity.
  - by rewrite decide_False by done.
Qed.

Lemma shrink_views_iter lengthNew i w :
  0 <= i -> 0 <= lengthNew ->
  shrink_views lengthNew i w =
  Nat.iter (shrink_count lengthNew i (views_length w)) remove_view w.
Proof.
  funelim (shrink_views lengthNew i w); unfold shrink_count; intros Hi HN.
  - rewrite decide_True by done.
    rewrite H by lia. rewrite views_length_remove_view by lia. unfold shrink_count.
    set (m := views_length w - lengthNew - i) in *.
    destruct (decide (i + 1 < views_length w - 1 - lengthNew)) as [Hlt|Hge].
    + replace (views_length w - 1 - lengthNew - (i + 1) + 1) with ((m + 1) - 2) by lia.
      assert (Hd : (m + 1) / 2 = (m + 1 - 2) / 2 + 1).
      { replace (m + 1) with ((m + 1 - 2) + 1 * 2) at 1 by lia.
        rewrite Z.div_add by lia. lia. }
      rewrite Hd.
      assert (0 <= (m + 1 - 2) / 2) by (apply Z.div_pos; lia).
      rewrite Z2Nat.inj_add by lia. change (Z.to_nat 1) with 1%nat.
      rewrite Nat.add_1_r. by rewrite Nat.iter_succ_r.
    + assert (Hm : (m + 1) / 2 = 1).
      { assert (m = 1 \/ m = 2) as [-> | ->] by lia; reflexivity. }
      rewrite Hm. reflexivity.
  - by rewrite decide_False by done.
Qed.

Lemma views_length_active w : views_length w = Z.of_nat (active_length w).
Proof. reflexivity. Qed.

(** The three counters (active views, pooled views, records created) across
    one run of a loop body and across any number of them. *)
Lemma add_view_counts w :
  active_length (add_view w) = S (active_length w)
  /\ pool_length (add_view w) = (pool_length w - 1)%nat
  /\ allocated (add_view w) = (allocated w + (1 - pool_length w))%nat.
Proof.
  unfold active_length, pool_length, add_view.
  destruct (js_pop (viewsPool (xr w))) as [[v rest]|] eqn:E; simpl.
  - apply js_pop_Some in E. rewrite E. unfold js_push.
    rewrite !length_app. simpl. lia.
  - apply js_pop_None in E. rewrite E. unfold js_push.
    rewrite length_app. simpl. lia.
Qed.

Lemma remove_view_counts w :
  (0 < active_length w)%nat ->
  active_length (remove_view w) = (active_length w - 1)%nat
  /\ pool_length (remove_view w) = S (pool_length w)
  /\ allocated (remove_view w) = allocated w.
Proof.
  unfold active_length, pool_length, remove_view. intros H.
  destruct (js_pop (views (xr w))) as [[v rest]|] eqn:E; simpl.
  - apply js_pop_Some in E. rewrite E. unfold js_push.
    rewrite !length_app. simpl. lia.
  - apply js_pop_None in E. rewrite E in H. simpl in H. lia.
Qed.

Lemma iter_add_view_counts k w :
  active_length (Nat.iter k add_view w) = (active_length w + k)%nat
  /\ pool_length (Nat.iter k add_view w) = (pool_length w - k)%nat
  /\ allocated (Nat.iter k add_view w) = (allocated w + (k - pool_length w))%nat.
Proof.
  induction k as [|k (IHa & IHp & IHn)]; simpl; [lia|].
  destruct (add_view_counts (Nat.iter k add_view w)) as (Ha & Hp & Hn).
  rewrite Ha, Hp, Hn, IHa, IHp, IHn. lia.
Qed.

Lemma iter_remove_view_counts k w :
  (k <= active_length w)%nat ->
  active_length (Nat.iter k remove_view w) = (active_length w - k)%nat
  /\ pool_length (Nat.iter k remove_view w) = (pool_length w + k)%nat
  /\ allocated (Nat.iter k remove_view w) = allocated w.
Proof.
  induction k as [|k IH]; simpl; intros Hk; [lia|].
  destruct IH as (IHa & IHp & IHn); [lia|].
  destruct (remove_view_counts (Nat.iter k remove_view w)) as (Ha & Hp & Hn); [lia|].
  rewrite Ha, Hp, Hn, IHa, IHp, IHn. lia.
Qed.

(** No record leaves the manager in either loop body. *)
Lemma records_add_view w id : id ∈ records w -> id ∈ records (add_view w).
Proof.
  unfold records, add_view.
  destruct (js_pop (viewsPool (xr w))) as [[v rest]|] eqn:E; simpl.
  - apply js_pop_Some in E. rewrite E. unfold js_push.
    rewrite !fmap_app, !elem_of_app. simpl. tauto.
  - unfold js_push. rewrite !fmap_app, !elem_of_app. tauto.
Qed.

Lemma records_remove_view w id : id ∈ records w -> id ∈ records (remove_view w).
Proof.
  unfold records, remove_view.
  destruct (js_pop (views (xr w))) as [[v rest]|] eqn:E; simpl; [|done].
  apply js_pop_Some in E. rewrite E. unfold js_push.
  rewrite !fmap_app, !elem_of_app. simpl. tauto.
Qed.

Lemma iter_preserves {A} (P : A -> Prop) (f : A -> A) k :
  (forall a, P a -> P (f a)) -> forall a, P a -> P (Nat.iter k f a).
Proof. intros Hf a Ha. induction k; simpl; auto. Qed.

Lemma iter_frame {A B} (proj : A -> B) (f : A -> A) k :
  (forall a, proj (f a) = proj a) -> forall a, proj (Nat.iter k f a) = proj a.
Proof. intros Hf a. induction k; simpl; [done|]. by rewrite Hf. Qed.

(** The resize step as iterations of the loop bodies. *)
Lemma resize_views_iter lengthNew w :
  0 <= lengthNew ->
  resize_views lengthNew w =
  if decide (lengthNew > views_length w)
  then Nat.iter (grow_count lengthNew 0 (views_length w)) add_view w
  else Nat.iter (shrink_count lengthNew 0 (views_length w)) remove_view w.
Proof.
  intros HN. unfold resize_views.
  destruct (decide (lengthNew > views_length w)).
  - apply grow_views_iter.
  - rewrite decide_True by lia. by apply shrink_views_iter.
Qed.

Lemma resize_views_frame {B} (proj : world -> B) lengthNew w :
  (forall w, proj (add_view w) = proj w) ->
  (forall w, proj (remove_view w) = proj w) ->
  0 <= lengthNew ->
  proj (resize_views lengthNew w) = proj w.
Proof.
  intros Ha Hr HN. rewrite resize_views_iter by done.
  destruct (decide _); by apply iter_frame.
Qed.

Lemma records_resize_views lengthNew w id :
  0 <= lengthNew -> id ∈ records w -> id ∈ records (resize_views lengthNew w).
Proof.
  intros HN. rewrite resize_views_iter by done.
  destruct (decide _); apply (iter_preserves (fun w => id ∈ records w)).
  - intros a. apply records_add_view.
  - intros a. apply records_remove_view.
Qed.

(** The length of the view list after the resize step, for every length
    before it and every view count. *)
Lemma resize_views_length lengthNew w :
  0 <= lengthNew ->
  views_length (resize_views lengthNew w) =
  if decide (lengthNew > views_length w)
  then views_length w + ((lengthNew - views_length w) / 2 + 1)
  else views_length w - (views_length w - lengthNew + 1) / 2.
Proof.
  intros HN. rewrite resize_views_iter by done.
  rewrite !views_length_active.
  destruct (decide _) as [Hgt|Hle].
  - destruct (iter_add_view_counts
                (grow_count lengthNew 0 (Z.of_nat (active_length w))) w) as (-> & _).
    unfold grow_count. rewrite decide_True by lia.
    assert (0 <= (lengthNew - Z.of_nat (active_length w)) / 2) by (apply Z.div_pos; lia).
    rewrite Z.sub_0_r, Nat2Z.inj_add, Z2Nat.id by lia. done.
  - unfold shrink_count.
    destruct (decide (0 < Z.of_nat (active_length w) - lengthNew)) as [Hlt|Hge].
    + assert (Hq : 0 <= (Z.of_nat (active_length w) - lengthNew - 0 + 1) / 2
                   <= Z.of_nat (active_length w)).
      { split; [apply Z.div_pos; lia|].
        apply Z.div_le_upper_bound; lia. }
      destruct (iter_remove_view_counts
                  (Z.to_nat ((Z.of_nat (active_length w) - lengthNew - 0 + 1) / 2)) w)
        as (-> & _); [lia|].
      rewrite Z.sub_0_r in *. lia.
    + simpl. assert (Hz : (Z.of_nat (active_length w) - lengthNew + 1) / 2 = 0).
      { apply Z.div_small. lia. }
      rewrite Hz. lia.
Qed.

(** The counters after the resize step. *)
Lemma resize_views_counts (n : nat) w :
  let A := active_length w in
  let k := if decide (Z.of_nat n > Z.of_nat A)
           then grow_count (Z.of_nat n) 0 (Z.of_nat A)
           else shrink_count (Z.of_nat n) 0 (Z.of_nat A) in
  let w' := resize_views (Z.of_nat n) w in
  if decide (Z.of_nat n > Z.of_nat A)
  then active_length w' = (A + k)%nat
       /\ pool_length w' = (pool_length w - k)%nat
       /\ allocated w' = (allocated w + (k - pool_length w))%nat
  else active_length w' = (A - k)%nat
       /\ pool_length w' = (pool_length w + k)%nat
       /\ allocated w' = allocated w.
Proof.
  intros A k w'. subst w'. rewrite resize_views_iter by lia.
  rewrite views_length_active. fold A. subst k.
  destruct (decide (Z.of_nat n > Z.of_nat A)).
  - apply iter_add_view_counts.
  - apply iter_remove_view_counts. unfold shrink_count.
    destruct (decide _); [|lia]. fold A. dlia.
Qed.

(** ** The per-view loop *)

Lemma vid_write_view viewRaw v : vid (write_view viewRaw v) = vid v.
Proof.
  unfold write_view. by destruct (layer_viewport viewRaw) as [[[x y] width] height].
Qed.

Lemma write_views_length raws : forall i vs,
  length (write_views raws i vs).1 = length vs.
Proof.
  induction raws as [|r raws IH]; intros i vs; simpl; [done|].
  destruct (vs !! i); [|done]. by rewrite IH, length_insert.
Qed.

Lemma write_views_vids raws : forall i vs,
  vid <$> (write_views raws i vs).1 = vid <$> vs.
Proof.
  induction raws as [|r raws IH]; intros i vs; simpl; [done|].
  destruct (vs !! i) as [v|] eqn:E; [|done].
  rewrite IH, list_fmap_insert.
  apply list_insert_id. rewrite list_lookup_fmap, E. simpl.
  by rewrite vid_write_view.
Qed.

Lemma write_views_ok raws : forall i vs,
  (write_views raws i vs).2 = None <->
  (raws = [] \/ (i + length raws <= length vs)%nat).
Proof.
  induction raws as [|r raws IH]; intros i vs; simpl; [tauto|].
  destruct (vs !! i) as [v|] eqn:E.
  - rewrite IH, length_insert. apply lookup_lt_Some in E.
    split; [intros [->|H]; right; simpl; lia | intros [?|H]; [done|]].
    destruct raws; [by left | right; simpl in *; lia].
  - apply lookup_ge_None in E. simpl.
    split; [done | intros [?|H]; [done | lia]].
Qed.

Lemma write_views_throws raws vs :
  (write_views raws 0 vs).2 = None <-> (length raws <= length vs)%nat.
Proof.
  rewrite write_views_ok. simpl.
  split; [intros [->|H]; simpl; lia | tauto].
Qed.

(** ** [update] and the view records *)

Lemma xr_update_ar w : xr (update_ar w) = xr w.
Proof.
  unfold update_ar.
  repeat (match goal with |- context [if ?b then _ else _] => destruct b end);
    reflexivity.
Qed.

Lemma allocated_update_ar w : allocated (update_ar w) = allocated w.
Proof.
  unfold update_ar.
  repeat (match goal with |- context [if ?b then _ else _] => destruct b end);
    reflexivity.
Qed.

(** Where [update] leaves the view records: untouched when it returns
    [false]; otherwise as the resize step left them, overwritten in place. *)
Lemma update_views frame w :
  let w' := (update frame w).1 in
  (views (xr w') = views (xr w) /\ viewsPool (xr w') = viewsPool (xr w)
   /\ allocated w' = allocated w /\ (update frame w).2 <> Return true)
  \/ exists pose w1,
       getViewerPose frame = Some pose
       /\ views (xr w1) = views (xr w) /\ viewsPool (xr w1) = viewsPool (xr w)
       /\ allocated w1 = allocated w
       /\ let wr := resize_views (Z.of_nat (length (pose_views pose))) w1 in
          length (views (xr w')) = length (views (xr wr))
          /\ vid <$> views (xr w') = vid <$> views (xr wr)
          /\ viewsPool (xr w') = viewsPool (xr wr)
          /\ allocated w' = allocated wr
          /\ ((update frame w).2 = Return true ->
              (length (pose_views pose) <= length (views (xr wr)))%nat).
Proof.
  unfold update. destruct (_session (xr w)) as [s|]; [|left; done].
  cbv zeta.
  match goal with
  | |- context [if ?b then ?x else w] => set (w1 := if b then x else w)
  end.
  assert (H1 : views (xr w1) = views (xr w) /\ viewsPool (xr w1) = viewsPool (xr w)
               /\ allocated w1 = allocated w).
  { subst w1. by destruct (_ || _). }
  clearbody w1. destruct H1 as (Hv & Hp & Ha).
  destruct (getViewerPose frame) as [pose|]; [|left; done].
  right. exists pose, w1. split; [done|]. split; [done|]. split; [done|]. split; [done|].
  set (wr := resize_views _ w1). simpl.
  pose proof (write_views_length (pose_views pose) 0 (views (xr wr))) as Hlen.
  pose proof (write_views_vids (pose_views pose) 0 (views (xr wr))) as Hvid.
  pose proof (write_views_throws (pose_views pose) (views (xr wr))) as Hok.
  destruct (write_views (pose_views pose) 0 (views (xr wr))) as [vs [e|]]; simpl in *.
  - repeat split; try done.
  - destruct (_camera (xr wr)) as [c|]; simpl.
    + destruct (bool_decide (_type (xr wr) = Some XRTYPE_AR));
        rewrite ?xr_update_ar, ?allocated_update_ar; simpl;
        repeat split; try done; intros _; by apply Hok.
    + repeat split; done.
Qed.

(** The counters after an [update] that returned [true]: the view list has
    room for every reported view; a longer list was reached by taking from
    the pool first and building records only once the pool was empty; a list
    that did not grow gave what it lost to the pool. *)
Lemma update_true_counters frame w w' :
  update frame w = (w', Return true) ->
  let n := view_count frame in
  let A := active_length w in
  let P := pool_length w in
  (n <= active_length w')%nat
  /\ if decide (A < n)%nat
     then active_length w' = n
          /\ pool_length w' = (P - (n - A))%nat
          /\ allocated w' = (allocated w + ((n - A) - P))%nat
     else (active_length w' <= A)%nat
          /\ (active_length w' + pool_length w' = A + P)%nat
          /\ allocated w' = allocated w.
Proof.
  intros Hu n A P.
  destruct (update_views frame w) as [(_ & _ & _ & Hne) | (pose & w1 & Hpose & Hv & Hp & Ha & H)];
    rewrite Hu in *; simpl in *; [done|].
  destruct H as (Hlen & _ & Hpool & Hal & Hroom). specialize (Hroom eq_refl).
  assert (Hn : n = length (pose_views pose)) by (subst n; unfold view_count; by rewrite Hpose).
  rewrite <- Hn in *.
  pose proof (resize_views_counts n w1) as Hc. simpl in Hc.
  assert (HA : active_length w1 = A) by (unfold active_length; by rewrite Hv).
  assert (HP : pool_length w1 = P) by (unfold pool_length; by rewrite Hp).
  rewrite HA, HP, Ha in Hc.
  set (wr := resize_views (Z.of_nat n) w1) in *.
  assert (Ha' : active_length w' = active_length wr) by done.
  assert (Hp' : pool_length w' = pool_length wr) by (unfold pool_length; by rewrite Hpool).
  rewrite Ha', Hp', Hal. fold (active_length wr) in Hroom.
  unfold grow_count, shrink_count in Hc.
  repeat case_decide; try lia; destruct Hc as (Hc1 & Hc2 & Hc3).
  - assert (Hk : Z.to_nat ((Z.of_nat n - Z.of_nat A - 0) / 2 + 1) = (n - A)%nat).
    { rewrite Hc1 in Hroom. dlia. }
    rewrite Hk in *. split; [lia|]. repeat split; lia.
  - assert (Hk : (Z.to_nat ((Z.of_nat A - Z.of_nat n - 0 + 1) / 2) <= A - n)%nat) by dlia.
    split; [lia|]. repeat split; lia.
Qed.

(** The invariant of a run of successful updates that began with an empty
    view list, a pool of [P0] records and [a0] records created: [M] bounds
    the view counts seen so far. *)
Lemma updates_counters frames : forall w w' P0 a0 M,
  updates frames w = Some w' ->
  (active_length w <= M)%nat ->
  (active_length w + pool_length w = Nat.max P0 M)%nat ->
  (allocated w = a0 + (Nat.max P0 M - P0))%nat ->
  let M' := Nat.max M (max_view_count frames) in
  (active_length w' <= M')%nat
  /\ (active_length w' + pool_length w' = Nat.max P0 M')%nat
  /\ allocated w' = (a0 + (Nat.max P0 M' - P0))%nat.
Proof.
  induction frames as [|frame frames IH]; intros w w' P0 a0 M Hrun HA HT Hal; simpl in *.
  - injection Hrun as <-. rewrite Nat.max_0_r. done.
  - destruct (update frame w) as [w1 [[|]|e]] eqn:Hu; try done.
    pose proof (update_true_counters frame w w1 Hu) as (Hroom & Hc). simpl in Hc.
    specialize (IH w1 w' P0 a0 (Nat.max M (view_count frame)) Hrun).
    rewrite Nat.max_assoc. apply IH; destruct (decide _); lia.
Qed.

(** ** Fields a handler does not write *)

(** [proj] reads something of the manager that some of the field updates
    leave alone; each lemma says that a method or handler leaves it alone
    too, from the updates it makes. *)
Section Frame.
Context {B : Type} (proj : XrManager -> B).
Hypothesis proj_available : forall v x, proj (mset_available v x) = proj x.
Hypothesis proj_type : forall v x, proj (mset_type v x) = proj x.
Hypothesis proj_spaceType : forall v x, proj (mset_spaceType v x) = proj x.
Hypothesis proj_session : forall v x, proj (mset_session v x) = proj x.
Hypothesis proj_baseLayer : forall v x, proj (mset_baseLayer v x) = proj x.
Hypothesis proj_referenceSpace : forall v x, proj (mset_referenceSpace v x) = proj x.
Hypothesis proj_camera : forall v x, proj (mset_camera v x) = proj x.
Hypothesis proj_views : forall v x, proj (mset_views v x) = proj x.
Hypothesis proj_viewsPool : forall v x, proj (mset_viewsPool v x) = proj x.
Hypothesis proj_localPosition : forall v x, proj (mset_localPosition v x) = proj x.
Hypothesis proj_localRotation : forall v x, proj (mset_localRotation v x) = proj x.
Hypothesis proj_depthNear : forall v x, proj (mset_depthNear v x) = proj x.
Hypothesis proj_depthFar : forall v x, proj (mset_depthFar v x) = proj x.
Hypothesis proj_width : forall v x, proj (mset_width v x) = proj x.
Hypothesis proj_height : forall v x, proj (mset_height v x) = proj x.

Ltac xr_red :=
  cbn [xr upd_xr upd_cameras upd_sessions upd_pending upd_once_end upd_allocated
       upd_trace emit enqueue upd_camera upd_session once_end_add
       set_available set_type set_spaceType set_session set_baseLayer set_referenceSpace set_camera set_views set_viewsPool set_localPosition set_localRotation set_depthNear set_depthFar set_width set_height].

Ltac frame :=
  repeat first
    [ rewrite xr_fire | rewrite xr_call | rewrite proj_available | rewrite proj_type | rewrite proj_spaceType | rewrite proj_session | rewrite proj_baseLayer | rewrite proj_referenceSpace | rewrite proj_camera | rewrite proj_views | rewrite proj_viewsPool | rewrite proj_localPosition | rewrite proj_localRotation | rewrite proj_depthNear | rewrite proj_depthFar | rewrite proj_width | rewrite proj_height
    | progress xr_red ].

Lemma frame_setClipPlanes near far w :
  proj (xr (_setClipPlanes near far w)) = proj (xr w).
Proof.
  unfold _setClipPlanes. destruct (_ && _); [done|]. xr_red.
  destruct (_session _); by frame.
Qed.

Lemma frame_onClipPlanesChange w : proj (xr (onClipPlanesChange w)) = proj (xr w).
Proof.
  unfold onClipPlanesChange. destruct (_camera (xr w)); [|done].
  apply frame_setClipPlanes.
Qed.

Lemma frame_camera_set_nearClip c v w :
  proj (xr (camera_set_nearClip c v w)) = proj (xr w).
Proof. reflexivity. Qed.

Lemma frame_camera_set_farClip c v w :
  proj (xr (camera_set_farClip c v w)) = proj (xr w).
Proof. reflexivity. Qed.

Lemma frame_start camera type spaceType options w :
  proj (xr (start camera type spaceType options w)) = proj (xr w).
Proof.
  unfold start. destruct (negb _); [by frame|].
  destruct (_session (xr w)); [by frame|].
  cbv zeta. destruct (_ && _); unfold _onStartOptionsReady; xr_red;
    rewrite frame_setClipPlanes; by frame.
Qed.

Lemma frame_prepareImages_callback type spaceType opts callback err tracked w :
  proj (xr (prepareImages_callback type spaceType opts callback err tracked w))
  = proj (xr w).
Proof.
  unfold prepareImages_callback, _onStartOptionsReady. destruct err; by frame.
Qed.

Lemma frame_requestSession_catch callback ex w :
  proj (xr (requestSession_catch callback ex w)) = proj (xr w).
Proof. unfold requestSession_catch. destruct (_camera (xr w)); by frame. Qed.

Lemma frame_onSessionStart session spaceType callback w :
  proj (xr (_onSessionStart session spaceType callback w).1) = proj (xr w).
Proof.
  unfold _onSessionStart. xr_red.
  destruct (_camera _); cbn [fst]; by frame.
Qed.

Lemma frame_requestSession_then session spaceType callback w :
  proj (xr (requestSession_then session spaceType callback w)) = proj (xr w).
Proof.
  unfold requestSession_then.
  pose proof (frame_onSessionStart session spaceType callback w) as H.
  destruct (_onSessionStart session spaceType callback w) as [w' [u|e]]; [done|].
  by rewrite frame_requestSession_catch.
Qed.

Lemma frame_requestReferenceSpace_then referenceSpace callback w :
  proj (xr (requestReferenceSpace_then referenceSpace callback w)) = proj (xr w).
Proof. unfold requestReferenceSpace_then. by frame. Qed.

Lemma frame_requestReferenceSpace_catch session callback ex w :
  proj (xr (requestReferenceSpace_catch session callback ex w)) = proj (xr w).
Proof. unfold requestReferenceSpace_catch. by frame. Qed.

Lemma frame_onEnd session w : proj (xr (onEnd session w)) = proj (xr w).
Proof.
  unfold onEnd. frame.
  match goal with |- context [if ?b then _ else _] => destruct b end;
    destruct (_camera (xr w)); by frame.
Qed.

Lemma frame_session_end_event s w : proj (xr (session_end_event s w)) = proj (xr w).
Proof. unfold session_end_event. destruct (end_listener _); [apply frame_onEnd | done]. Qed.

Lemma frame_session_visibilitychange_event s state w :
  proj (xr (session_visibilitychange_event s state w)) = proj (xr w).
Proof.
  unfold session_visibilitychange_event, onVisibilityChange.
  destruct (visibilitychange_listener _); by frame.
Qed.

Lemma frame_end callback w : proj (xr (end_ callback w)) = proj (xr w).
Proof.
  unfold end_. destruct (_session (xr w)); [|by frame].
  destruct callback; by frame.
Qed.

Lemma frame_deviceAvailabilityCheck w :
  proj (xr (_deviceAvailabilityCheck w)) = proj (xr w).
Proof.
  unfold _deviceAvailabilityCheck. generalize (map fst (_available (xr w))).
  intros keys. revert w. induction keys as [|k keys IH]; intros w; simpl; [done|].
  by rewrite IH.
Qed.

Lemma frame_isSessionSupported_catch ex w :
  proj (xr (isSessionSupported_catch ex w)) = proj (xr w).
Proof. unfold isSessionSupported_catch. by frame. Qed.

Lemma frame_isSessionSupported_then type available w :
  proj (xr (isSessionSupported_then type available w)) = proj (xr w).
Proof. unfold isSessionSupported_then. destruct (bool_decide _); by frame. Qed.

Lemma frame_add_view w : proj (xr (add_view w)) = proj (xr w).
Proof. unfold add_view. destruct (js_pop _) as [[v rest]|]; by frame. Qed.

Lemma frame_remove_view w : proj (xr (remove_view w)) = proj (xr w).
Proof. unfold remove_view. destruct (js_pop _) as [[v rest]|]; by frame. Qed.

Lemma frame_update frame w : proj (xr (update frame w).1) = proj (xr w).
Proof.
  unfold update. destruct (_session (xr w)); [|done]. cbv zeta.
  match goal with
  | |- context [if ?b then ?x else w] => set (w1 := if b then x else w)
  end.
  assert (H1 : proj (xr w1) = proj (xr w)) by (subst w1; destruct (_ || _); by frame).
  clearbody w1. rewrite <- H1.
  destruct (getViewerPose frame) as [pose|]; [|done].
  set (wr := resize_views _ w1).
  assert (Hr : proj (xr wr) = proj (xr w1)).
  { subst wr. apply (resize_views_frame (fun w => proj (xr w))); [| |lia].
    - apply frame_add_view.
    - apply frame_remove_view. }
  clearbody wr. rewrite <- Hr. xr_red.
  destruct (write_views _ _ _) as [vs [e|]]; cbn [fst]; [by frame|].
  xr_red. destruct (_camera _); cbn [fst]; [|by frame].
  destruct (bool_decide _); rewrite ?xr_fire, ?xr_update_ar; by frame.
Qed.
(** A completion other than a resolved support check. *)
Lemma frame_handler_other op c h w :
  handler op c = Some h ->
  (forall available, c <> Supported available) ->
  proj (xr (h w)) = proj (xr w).
Proof.
  intros Hh Hc. destruct op, c; simpl in Hh; try done; injection Hh as <-.
  - by destruct (Hc available).
  - apply frame_isSessionSupported_catch.
  - apply frame_prepareImages_callback.
  - apply frame_prepareImages_callback.
  - apply frame_requestSession_then.
  - apply frame_requestSession_catch.
  - apply frame_requestReferenceSpace_then.
  - apply frame_requestReferenceSpace_catch.
  - apply frame_session_end_event.
Qed.

Lemma frame_handler op c h w :
  handler op c = Some h -> proj (xr (h w)) = proj (xr w).
Proof.
  intros Hh. destruct c as [available| | | | |];
    try (eapply frame_handler_other; [exact Hh | done]).
  destruct op; simpl in Hh; try done; injection Hh as <-.
  apply frame_isSessionSupported_then.
Qed.

Lemma frame_deliver_other k c w :
  (forall available, c <> Supported available) ->
  proj (xr (deliver k c w)) = proj (xr w).
Proof.
  intros Hc. unfold deliver. destruct (pending w !! k) as [op|]; [|done].
  destruct (handler op c) as [h|] eqn:Hh; [|done].
  by rewrite (frame_handler_other op c h _ Hh Hc).
Qed.

Lemma frame_deliver k c w : proj (xr (deliver k c w)) = proj (xr w).
Proof.
  unfold deliver. destruct (pending w !! k) as [op|]; [|done].
  destruct (handler op c) as [h|] eqn:Hh; [|done].
  by rewrite (frame_handler op c h _ Hh).
Qed.
End Frame.

(** Only [update] writes the pool of view records. *)
Lemma viewsPool_step a w :
  (forall frame, a <> AUpdate frame) ->
  viewsPool (xr (step a w)) = viewsPool (xr w).
Proof.
  intros Ha. destruct a; simpl.
  - by apply (frame_start viewsPool).
  - by apply (frame_end viewsPool).
  - by destruct (Ha frame).
  - by apply (frame_deliver viewsPool).
  - by apply (frame_session_end_event viewsPool).
  - by apply (frame_session_visibilitychange_event viewsPool).
  - destruct (_supported _); [|done]. by apply (frame_deviceAvailabilityCheck viewsPool).
  - reflexivity.
  - reflexivity.
  - reflexivity.
Qed.

(** Only a resolved support check writes the availability flags. *)
Lemma available_step a w :
  (forall k available, a <> ADeliver k (Supported available)) ->
  _available (xr (step a w)) = _available (xr w).
Proof.
  intros Ha. destruct a; simpl.
  - by apply (frame_start _available).
  - by apply (frame_end _available).
  - by apply (frame_update _available).
  - apply (frame_deliver_other _available); try done.
    intros available ->. by destruct (Ha k available).
  - by apply (frame_session_end_event _available).
  - by apply (frame_session_visibilitychange_event _available).
  - destruct (_supported _); [|done]. by apply (frame_deviceAvailabilityCheck _available).
  - reflexivity.
  - reflexivity.
  - reflexivity.
Qed.

(** ** The view list and the view pool *)

(** C3.  The claim is that the resize step of [update] leaves the view list
    with exactly as many entries as the pose has views, for every previous
    length and every count.  Both loops read [this.views.length] again at
    every test while their bodies change it, so they stop early: growing by
    [d] adds [d / 2 + 1] entries and shrinking by [d] removes [(d + 1) / 2].
    On a started session with no views, a pose of three views leaves two
    entries and [update] throws on the missing third; after a frame of two
    views, a pose of no views leaves one entry. *)
Theorem update_resize_misses_view_count :
  active_length (update (frame_with 3) world_vr_active).1 = 2%nat
  /\ (update (frame_with 3) world_vr_active).2 = Throw TypeError
  /\ (update (frame_with 2) world_vr_active).2 = Return true
  /\ active_length (update (frame_with 2) world_vr_active).1 = 2%nat
  /\ (update (frame_with 0) (update (frame_with 2) world_vr_active).1).2 = Return true
  /\ active_length (update (frame_with 0) (update (frame_with 2) world_vr_active).1).1 = 1%nat
  /\ forall (n : nat) w,
       views_length (resize_views (Z.of_nat n) w)
       = if decide (Z.of_nat n > views_length w)
         then views_length w + ((Z.of_nat n - views_length w) / 2 + 1)
         else views_length w - (views_length w - Z.of_nat n + 1) / 2.
Proof.
  split; [vm_compute; reflexivity|]. split; [vm_compute; reflexivity|].
  split; [vm_compute; reflexivity|]. split; [vm_compute; reflexivity|].
  split; [vm_compute; reflexivity|]. split; [vm_compute; reflexivity|].
  intros n w. apply resize_views_length. lia.
Qed.

(** The allocation count of a run of successful updates from a session
    start. *)
Lemma updates_allocated frames w w' :
  views (xr w) = [] ->
  updates frames w = Some w' ->
  Z.of_nat (allocated w') - Z.of_nat (allocated w)
  = Z.max 0 (Z.of_nat (max_view_count frames) - Z.of_nat (pool_length w)).
Proof.
  intros Hv Hrun.
  destruct (updates_counters frames w w' (pool_length w) (allocated w) 0%nat Hrun)
    as (_ & _ & Ha); unfold active_length; rewrite ?Hv; simpl; lia.
Qed.

(** [update] loses no record, whatever it returns or throws. *)
Lemma update_keeps_records frame w id :
  id ∈ records w -> id ∈ records (update frame w).1.
Proof.
  intros Hid.
  destruct (update_views frame w) as [(Hv & Hp & _) | (pose & w1 & _ & Hv & Hp & _ & H)].
  - unfold records. by rewrite Hv, Hp.
  - simpl in H. destruct H as (_ & Hvid & Hpool & _).
    assert (H1 : id ∈ records w1) by (unfold records; by rewrite Hv, Hp).
    apply (records_resize_views (Z.of_nat (length (pose_views pose)))) in H1; [|lia].
    unfold records in *. rewrite fmap_app in *. by rewrite Hvid, Hpool.
Qed.

(** C4.  Over consecutive frames on which [update] returned [true], starting
    from the empty view list of a session start, the number of view records
    created is [max 0 (largest view count - pool size at the start)].  No
    record is lost when the list shrinks: after any [update], a record that
    was in the view list is in the view list or in the pool; and nothing but
    [update] touches the pool, so it is there for a later growth, in this
    session or after the teardown in a later one.  The view list is empty
    when the manager is constructed and after every teardown. *)
Theorem view_pool_allocation :
  (forall frames w w',
      views (xr w) = [] ->
      updates frames w = Some w' ->
      Z.of_nat (allocated w') - Z.of_nat (allocated w)
      = Z.max 0 (Z.of_nat (max_view_count frames) - Z.of_nat (pool_length w)))
  /\ (forall frame w id,
         id ∈ vid <$> views (xr w) ->
         id ∈ vid <$> views (xr (update frame w).1)
         \/ id ∈ vid <$> viewsPool (xr (update frame w).1))
  /\ (forall a w,
         is_update a = false ->
         viewsPool (xr (step a w)) = viewsPool (xr w))
  /\ (forall supported m, views (xr (constructor supported m)) = [])
  /\ (forall s w, views (xr (onEnd s w)) = []).
Proof.
  split; [exact updates_allocated|]. split; [|split; [|split]].
  - intros frame w id Hid.
    assert (H : id ∈ records (update frame w).1).
    { apply update_keeps_records. unfold records. rewrite fmap_app, elem_of_app. tauto. }
    unfold records in H. by rewrite fmap_app, elem_of_app in H.
  - intros a w Ha. apply viewsPool_step. intros frame ->. done.
  - intros supported m. unfold constructor. cbv zeta.
    match goal with
    | |- context [if ?b then _deviceAvailabilityCheck ?x else _] =>
        destruct b; [rewrite (frame_deviceAvailabilityCheck views)|]
    end; reflexivity.
  - intros s w. reflexivity.
Qed.

Lemma view_pool_allocation_witness :
  views (xr world_vr_active) = []
  /\ updates [frame_with 2; frame_with 1; frame_with 2] world_vr_active
     = Some (run [AUpdate (frame_with 2); AUpdate (frame_with 1); AUpdate (frame_with 2)]
                 world_vr_active)
  /\ Z.of_nat (allocated (run [AUpdate (frame_with 2); AUpdate (frame_with 1);
                               AUpdate (frame_with 2)] world_vr_active))
     - Z.of_nat (allocated world_vr_active)
     = Z.max 0 (Z.of_nat (max_view_count [frame_with 2; frame_with 1; frame_with 2])
                - Z.of_nat (pool_length world_vr_active)).
Proof.
  split; [reflexivity|]. split; [vm_compute; reflexivity|].
  apply (proj1 view_pool_allocation); [reflexivity | vm_compute; reflexivity].
Defined.

(** ** Starting a session *)

Lemma trace_call cb err w :
  trace (call cb err w)
  = trace w ++ match cb with Some f => [ECallback f err] | None => [] end.
Proof. destruct cb; simpl; [done | by rewrite app_nil_r]. Qed.

Lemma pending_call cb err w : pending (call cb err w) = pending w.
Proof. by destruct cb. Qed.

(** C1, as amended.  While a session is active (the session handle is set,
    which happens when the host grants the session), a call to [start] fails
    synchronously: its callback receives the 'already started' error when
    the requested type is available and the 'not available' error otherwise,
    no asynchronous work is issued, and the manager, the cameras and the
    session are left as they were. *)
Theorem start_while_active_rejected w camera type spaceType options s :
  _session (xr w) = Some s ->
  let message := if truthy (isAvailable type w)
                 then "XR session is already started" else "XR is not available" in
  let w' := start camera type spaceType options w in
  w' = failed_with message options w
  /\ xr w' = xr w /\ cameras w' = cameras w /\ sessions w' = sessions w
  /\ pending w' = pending w
  /\ trace w' = trace w ++ match start_callback options with
                           | Some cb => [ECallback cb (Some (Error message))]
                           | None => []
                           end.
Proof.
  intros Hs message w'.
  assert (Hw : w' = failed_with message options w).
  { subst w' message. unfold start, failed_with. rewrite Hs.
    by destruct (truthy (isAvailable type w)). }
  rewrite Hw. unfold failed_with.
  rewrite xr_call, cameras_call, sessions_call, pending_call, trace_call. done.
Qed.

Lemma start_while_active_rejected_witness :
  _session (xr world_vr_active) = Some 100%nat
  /\ start 8 XRTYPE_VR "local" (ArgFunction 20) world_vr_active
     = failed_with "XR session is already started" (ArgFunction 20) world_vr_active.
Proof.
  split; [reflexivity|].
  exact (proj1 (start_while_active_rejected world_vr_active 8 XRTYPE_VR "local"
                  (ArgFunction 20) 100%nat eq_refl)).
Defined.

(** C1, as stated, fails while a negotiation is in flight: the guard of
    [start] reads the session handle, which is still [null] until the host
    grants the session.  With the first session request pending, a second
    [start] is not answered with 'already started': it rebinds the manager to
    the second camera, overwrites the space type and issues a second session
    request. *)
Lemma start_during_negotiation_not_rejected :
  pending world_vr_requested
  = [PIsSessionSupported "inline"; PIsSessionSupported "immersive-ar";
     PRequestSession "immersive-vr" "local-floor"
       (start_opts XRTYPE_VR "local-floor" (ArgFunction 10) modules_plain) (Some 10%nat)]
  /\ world_vr_requested_twice
     <> failed_with "XR session is already started" (ArgFunction 20) world_vr_requested
  /\ _camera (xr world_vr_requested) = Some 7%nat
  /\ _camera (xr world_vr_requested_twice) = Some 8%nat
  /\ _spaceType (xr world_vr_requested_twice) = Some "local"
  /\ trace world_vr_requested_twice
     = trace world_vr_requested
       ++ [ERequestSession "immersive-vr"
             (start_opts XRTYPE_VR "local" (ArgFunction 20) modules_plain)].
Proof.
  split; [vm_compute; reflexivity|]. split.
  - intros H. apply (f_equal (fun w => _camera (xr w))) in H.
    vm_compute in H. discriminate.
  - vm_compute. repeat split; reflexivity.
Qed.

(** The failure branch of the callback given to [prepareImages]: the start
    callback and the 'error' notification, nothing else. *)
Lemma prepareImages_failure_only_notifies type spaceType opts callback ex tracked w :
  let w' := prepareImages_callback type spaceType opts callback (Some ex) tracked w in
  xr w' = xr w /\ cameras w' = cameras w /\ sessions w' = sessions w
  /\ pending w' = pending w
  /\ trace w' = trace w
                ++ match callback with Some cb => [ECallback cb (Some ex)] | None => [] end
                ++ [EFire (NError ex)].
Proof.
  unfold prepareImages_callback. simpl.
  rewrite xr_call, cameras_call, sessions_call, pending_call, trace_call.
  by rewrite <- app_assoc.
Qed.

(** C2.  The claim is that after every failure path of [start] the
    back-reference [camera.camera.xr] is absent.  When the image preparation
    fails, the callback of [prepareImages] calls the start callback, fires
    'error' and returns: the session request is never issued, but the
    back-reference installed before is still there, and so are the bound
    camera, the type and the space type.  The rejection handler of the
    session request, next to it, clears all four. *)
Theorem start_image_preparation_failure_keeps_back_reference :
  camera_xr (camera_of world_ar_preparing 7) = true
  /\ pending world_ar_preparing
     = [PIsSessionSupported "inline"; PIsSessionSupported "immersive-vr";
        PPrepareImages "immersive-ar" "local"
          (start_opts XRTYPE_AR "local" (ArgObject options_image_tracking)
                      modules_image_tracking) (Some 10%nat)]
  /\ camera_xr (camera_of world_ar_preparation_failed 7) = true
  /\ _camera (xr world_ar_preparation_failed) = Some 7%nat
  /\ _type (xr world_ar_preparation_failed) = Some "immersive-ar"
  /\ _spaceType (xr world_ar_preparation_failed) = Some "local"
  /\ filter requests_session (trace world_ar_preparation_failed) = []
  /\ trace world_ar_preparation_failed
     = trace world_ar_preparing
       ++ [ECallback 10 (Some (HostError 1)); EFire (NError (HostError 1))]
  /\ camera_xr (camera_of world_ar_request_rejected 7) = false
  /\ _camera (xr world_ar_request_rejected) = None
  /\ forall type spaceType opts callback ex tracked w,
       xr (prepareImages_callback type spaceType opts callback (Some ex) tracked w) = xr w
       /\ cameras (prepareImages_callback type spaceType opts callback (Some ex) tracked w)
          = cameras w.
Proof.
  repeat (split; [vm_compute; reflexivity|]).
  intros type spaceType opts callback ex tracked w.
  destruct (prepareImages_failure_only_notifies type spaceType opts callback ex tracked w)
    as (Hx & Hc & _).
  by split.
Qed.

(** ** The depth-sensing preference lists *)

Lemma splice1_indexOf p (l : list string) :
  match indexOf p l with
  | Some ind => splice1 ind l
  | None => l
  end = remove_first p l.
Proof.
  induction l as [|y l IH]; simpl; [done|].
  destruct (String.eqb y p); [done|].
  destruct (indexOf p l) as [ind|]; simpl in *; by rewrite <- IH.
Qed.

(** What [start] computes with [indexOf], [splice] and [unshift] is the
    default list with the specified preference moved to the front. *)
Lemma preference_list_specified_first defaults pref :
  preference_list defaults pref = specified_first pref defaults.
Proof.
  unfold preference_list, specified_first, move_to_front, unshift.
  destruct pref as [p|]; [|done].
  destruct (truthy_string p); [|done]. by rewrite splice1_indexOf.
Qed.

Lemma start_opts_depthSensing spaceType o ds m :
  opt_depthSensing o = Some ds ->
  depthSensing_supported m = true ->
  let opts := start_opts XRTYPE_AR spaceType (ArgObject o) m in
  depthSensing opts
  = Some {| usagePreference :=
              specified_first (opt_usagePreference ds) [XRDEPTHSENSINGUSAGE_CPU];
            dataFormatPreference :=
              specified_first (opt_dataFormatPreference ds) [XRDEPTHSENSINGFORMAT_L8A8] |}
  /\ "depth-sensing" ∈ optionalFeatures opts.
Proof.
  intros Hds Hm. unfold start_opts.
  change (String.eqb XRTYPE_AR XRTYPE_AR) with true. cbv iota.
  cbn [options_object mbind option_bind]. rewrite Hds, Hm.
  rewrite !preference_list_specified_first.
  split.
  - by destruct (opt_optionalFeatures o).
  - destruct (opt_optionalFeatures o); simpl;
      destruct (opt_imageTracking o && imageTracking_supported m),
               (opt_planeDetection o), (domOverlay_supported m), (domOverlay_root m);
      simpl; unfold js_push; set_solver.
Qed.

Lemma trace_setClipPlanes_no_session near far w :
  _session (xr w) = None -> trace (_setClipPlanes near far w) = trace w.
Proof.
  intros Hs. unfold _setClipPlanes. destruct (_ && _); [done|].
  simpl. by rewrite Hs.
Qed.

(** [start] past its two guards: it issues the session request, or the image
    preparation that will issue it, with the options it assembled. *)
Lemma start_proceeds camera type spaceType options w :
  truthy (isAvailable type w) = true ->
  _session (xr w) = None ->
  let opts := start_opts type spaceType options (modules w) in
  let w' := start camera type spaceType options w in
  (trace w' = trace w ++ [ERequestSession type opts]
   /\ pending w' = pending w ++ [PRequestSession type spaceType opts (start_callback options)])
  \/ (trace w' = trace w ++ [EPrepareImages]
      /\ pending w' = pending w
                      ++ [PPrepareImages type spaceType opts (start_callback options)]).
Proof.
  intros Ha Hs opts w'. subst w' opts. unfold start. rewrite Ha, Hs. cbv zeta. simpl negb.
  cbv iota.
  match goal with
  | |- context [_setClipPlanes ?n ?f ?w0] =>
      assert (Ht : trace (_setClipPlanes n f w0) = trace w
                   /\ pending (_setClipPlanes n f w0) = pending w
                   /\ modules (_setClipPlanes n f w0) = modules w);
      [|generalize dependent (_setClipPlanes n f w0)]
  end.
  { split; [by rewrite trace_setClipPlanes_no_session|].
    unfold _setClipPlanes. destruct (_ && _); [done|]. simpl. by rewrite Hs. }
  intros w1 (Ht & Hp & Hm). rewrite Hm.
  destruct (_ && _); [right | left]; simpl; by rewrite Ht, Hp.
Qed.

(** C5.  When [start] is called for an AR session with depth sensing
    requested and supported, the options of the session request hold the
    feature "depth-sensing" and a preference object whose two lists are the
    default lists (["cpu-optimized"], ["luminance-alpha"]) with the value the
    caller specified, if any, moved to the front after being removed from
    where it was; with [usagePreference] "gpu-optimized" the usage list is
    ["gpu-optimized"; "cpu-optimized"].  The request is issued by [start]
    itself or, when images must be prepared first, by the callback of the
    preparation, which adds only the tracked images. *)
Theorem start_depth_sensing_preference w camera spaceType o ds :
  truthy (isAvailable XRTYPE_AR w) = true ->
  _session (xr w) = None ->
  opt_depthSensing o = Some ds ->
  depthSensing_supported (modules w) = true ->
  let w' := start camera XRTYPE_AR spaceType (ArgObject o) w in
  let preference :=
    {| usagePreference :=
         specified_first (opt_usagePreference ds) [XRDEPTHSENSINGUSAGE_CPU];
       dataFormatPreference :=
         specified_first (opt_dataFormatPreference ds) [XRDEPTHSENSINGFORMAT_L8A8] |} in
  (exists opts,
      depthSensing opts = Some preference
      /\ "depth-sensing" ∈ optionalFeatures opts
      /\ (trace w' = trace w ++ [ERequestSession XRTYPE_AR opts]
          \/ (trace w' = trace w ++ [EPrepareImages]
              /\ pending w' = pending w
                              ++ [PPrepareImages XRTYPE_AR spaceType opts (opt_callback o)]
              /\ forall tracked w2,
                   exists opts',
                     depthSensing opts' = Some preference
                     /\ "depth-sensing" ∈ optionalFeatures opts'
                     /\ trace (prepareImages_callback XRTYPE_AR spaceType opts
                                 (opt_callback o) None tracked w2)
                        = trace w2 ++ [ERequestSession XRTYPE_AR opts'])))
  /\ (opt_usagePreference ds = Some "gpu-optimized" ->
      usagePreference preference = ["gpu-optimized"; "cpu-optimized"]).
Proof.
  intros Ha Hs Hds Hm w' preference. split.
  - destruct (start_opts_depthSensing spaceType o ds (modules w) Hds Hm) as (Hd & Hf).
    exists (start_opts XRTYPE_AR spaceType (ArgObject o) (modules w)).
    split; [exact Hd|]. split; [exact Hf|].
    destruct (start_proceeds camera XRTYPE_AR spaceType (ArgObject o) w Ha Hs)
      as [(Ht & _) | (Ht & Hp)]; [by left | right].
    split; [exact Ht|]. split; [exact Hp|].
    intros tracked w2. unfold prepareImages_callback.
    destruct tracked as [t|]; eexists; (split; [|split; [|reflexivity]]); done.
  - intros Hu. subst preference. simpl. by rewrite Hu.
Qed.

Lemma start_depth_sensing_preference_witness :
  truthy (isAvailable XRTYPE_AR world_ar_depth) = true
  /\ _session (xr world_ar_depth) = None
  /\ trace (start 7 XRTYPE_AR "local" (ArgObject options_depth_gpu) world_ar_depth)
     = trace world_ar_depth
       ++ [ERequestSession "immersive-ar"
             {| requiredFeatures := ["local"];
                optionalFeatures := ["light-estimation"; "hit-test"; "depth-sensing"];
                domOverlay := None;
                depthSensing :=
                  Some {| usagePreference := ["gpu-optimized"; "cpu-optimized"];
                          dataFormatPreference := ["luminance-alpha"] |};
                trackedImages := None |}]
  /\ usagePreference
       {| usagePreference :=
            specified_first (opt_usagePreference depth_gpu) [XRDEPTHSENSINGUSAGE_CPU];
          dataFormatPreference :=
            specified_first (opt_dataFormatPreference depth_gpu)
                            [XRDEPTHSENSINGFORMAT_L8A8] |}
     = ["gpu-optimized"; "cpu-optimized"].
Proof.
  split; [reflexivity|]. split; [reflexivity|]. split; [vm_compute; reflexivity|].
  exact (proj2 (start_depth_sensing_preference world_ar_depth 7 "local" options_depth_gpu
                  depth_gpu eq_refl eq_refl eq_refl eq_refl) eq_refl).
Defined.

(** ** Binding failures and the teardown *)

Lemma lookup_snoc_length {A} (l : list A) x : (l ++ [x]) !! length l = Some x.
Proof. by apply list_lookup_middle. Qed.

Lemma delete_snoc_length {A} (l : list A) x : delete (length l) (l ++ [x]) = l.
Proof. rewrite delete_middle. apply app_nil_r. Qed.

Lemma not_elem_listener_off s l : s ∉ listener_off s l.
Proof. unfold listener_off. rewrite list_elem_of_filter. tauto. Qed.

Lemma once_end_call cb err w : once_end (call cb err w) = once_end w.
Proof. by destruct cb. Qed.

(** Delivering the completion of the operation issued last. *)
Lemma deliver_last l op c h w :
  pending w = l ++ [op] ->
  handler op c = Some h ->
  deliver (length l) c w = h (upd_pending (fun _ => l) w).
Proof.
  intros Hp Hh. unfold deliver. rewrite Hp, lookup_snoc_length, Hh.
  f_equal. unfold upd_pending. by rewrite Hp, delete_snoc_length.
Qed.

Ltac store :=
  repeat first
    [ progress (unfold session_of, camera_of)
    | progress simpl
    | rewrite lookup_insert_eq
    | rewrite sessions_call | rewrite cameras_call | rewrite xr_call
    | rewrite pending_call | rewrite trace_call | rewrite once_end_call ].

(** [_onSessionStart] with a bound camera. *)
Lemma onSessionStart_bound s spaceType callback w c :
  _camera (xr w) = Some c ->
  let w' := (_onSessionStart s spaceType callback w).1 in
  (_onSessionStart s spaceType callback w).2 = Return tt
  /\ pending w' = pending w ++ [PRequestReferenceSpace s spaceType callback]
  /\ once_end w' = once_end w
  /\ _camera (xr w') = Some c
  /\ _session (xr w') = Some s
  /\ end_listener (session_of w' s) = true
  /\ visibilitychange_listener (session_of w' s) = true
  /\ failed (session_of w' s) = false
  /\ s ∈ on_set_nearClip (camera_of w' c)
  /\ s ∈ on_set_farClip (camera_of w' c).
Proof.
  intros Hc. unfold _onSessionStart. simpl. rewrite Hc. cbn [fst snd].
  repeat split; try done; store; unfold listener_on; set_solver.
Qed.

(** The rejection handler of the reference space request. *)
Lemma requestReferenceSpace_catch_spec s callback ex w :
  let w' := requestReferenceSpace_catch s callback ex w in
  xr w' = xr w
  /\ cameras w' = cameras w
  /\ once_end w' = once_end w
  /\ pending w' = pending w ++ [PSessionEnd s]
  /\ session_of w' s = sset_failed true (session_of w s)
  /\ trace w' = trace w ++ [ESessionEnd s]
                ++ match callback with Some cb => [ECallback cb (Some ex)] | None => [] end
                ++ [EFire (NError ex)].
Proof.
  unfold requestReferenceSpace_catch. repeat split; store; try done.
  by rewrite <- !app_assoc.
Qed.

(** The teardown of a session whose start failed: no 'end' notification. *)
Lemma onEnd_failed s c w :
  _camera (xr w) = Some c ->
  failed (session_of w s) = true ->
  let w' := onEnd s w in
  trace w' = trace w ++ [EAppTick]
  /\ once_end w' = once_end w
  /\ pending w' = pending w
  /\ camera_xr (camera_of w' c) = false
  /\ (s ∉ on_set_nearClip (camera_of w' c))
  /\ (s ∉ on_set_farClip (camera_of w' c))
  /\ end_listener (session_of w' s) = false
  /\ visibilitychange_listener (session_of w' s) = false
  /\ _camera (xr w') = None
  /\ _session (xr w') = None
  /\ _referenceSpace (xr w') = None
  /\ views (xr w') = []
  /\ _width (xr w') = 0%Z
  /\ _height (xr w') = 0%Z
  /\ _type (xr w') = None
  /\ _spaceType (xr w') = None.
Proof.
  intros Hc Hf. unfold onEnd. rewrite Hc. cbv zeta.
  match goal with
  | |- context [if failed ?x then _ else _] =>
      replace (failed x) with true by (store; by rewrite <- Hf)
  end.
  repeat split; store; try done; apply not_elem_listener_off.
Qed.

Lemma trace_fire_end w : exists l, trace (fire NEnd w) = trace w ++ EFire NEnd :: l.
Proof.
  unfold fire.
  assert (Hfold : forall cbs v, exists l,
             trace (fold_left (fun w cb => emit (ECallback cb None) w) cbs v) = trace v ++ l).
  { induction cbs as [|cb cbs IH]; intros v; simpl; [exists []; by rewrite app_nil_r|].
    destruct (IH (emit (ECallback cb None) v)) as [l Hl]. rewrite Hl. simpl.
    exists (ECallback cb None :: l). by rewrite <- app_assoc. }
  destruct (Hfold (once_end (emit (EFire NEnd) w))
                  (upd_once_end (fun _ => []) (emit (EFire NEnd) w))) as [l Hl].
  rewrite Hl. simpl. exists l. by rewrite <- app_assoc.
Qed.

(** The teardown of a session that started or is starting normally: the
    'end' notification is fired. *)
Lemma onEnd_fires_end s w :
  failed (session_of w s) = false ->
  exists l, trace (onEnd s w) = trace w ++ EFire NEnd :: l.
Proof.
  intros Hf. unfold onEnd. cbv zeta.
  match goal with
  | |- context [if failed ?x then _ else _] =>
      replace (failed x) with false
        by (destruct (_camera (xr w)); store; by rewrite <- Hf)
  end.
  match goal with
  | |- context [fire NEnd ?x] =>
      assert (Ht : trace x = trace w) by (destruct (_camera (xr w)); reflexivity);
      generalize dependent x
  end.
  intros x Hx.
  change (exists l, trace (fire NEnd x) ++ [EAppTick] = trace w ++ EFire NEnd :: l).
  destruct (trace_fire_end x) as [l Hl]. rewrite Hl, Hx.
  exists (l ++ [EAppTick]). by rewrite <- app_assoc.
Qed.

(** C6.  The reference space request fails after [_onSessionStart] bound the
    session and the render state.  The rejection handler marks the attempt
    failed, asks the host to end the session, calls the start callback with
    the error and fires 'error'.  The 'end' event that follows runs the same
    teardown as a normal end: the camera's back-reference and the manager's
    camera reference are cleared, the clip-plane and session listeners are
    unregistered, the session-scoped fields (session, reference space, view
    list, cached dimensions, type, space type) are reset; the only call it
    makes is the render-loop wake-up, so no 'end' notification is fired and
    no callback registered for it runs. *)
Theorem reference_space_failure_tears_down w0 c s spaceType callback ex :
  _camera (xr w0) = Some c ->
  let w1 := (_onSessionStart s spaceType callback w0).1 in
  let k := length (pending w0) in
  let w2 := deliver k (Rejected ex) w1 in
  let w3 := deliver k Ended w2 in
  pending w1 = pending w0 ++ [PRequestReferenceSpace s spaceType callback]
  /\ failed (session_of w2 s) = true
  /\ pending w2 = pending w0 ++ [PSessionEnd s]
  /\ trace w2 = trace w1 ++ [ESessionEnd s]
                ++ match callback with Some cb => [ECallback cb (Some ex)] | None => [] end
                ++ [EFire (NError ex)]
  /\ trace w3 = trace w2 ++ [EAppTick]
  /\ once_end w3 = once_end w0
  /\ pending w3 = pending w0
  /\ camera_xr (camera_of w3 c) = false
  /\ (s ∉ on_set_nearClip (camera_of w3 c))
  /\ (s ∉ on_set_farClip (camera_of w3 c))
  /\ end_listener (session_of w3 s) = false
  /\ visibilitychange_listener (session_of w3 s) = false
  /\ _camera (xr w3) = None
  /\ _session (xr w3) = None
  /\ _referenceSpace (xr w3) = None
  /\ views (xr w3) = []
  /\ _width (xr w3) = 0%Z
  /\ _height (xr w3) = 0%Z
  /\ _type (xr w3) = None
  /\ _spaceType (xr w3) = None.
Proof.
  intros Hc.
  pose proof (onSessionStart_bound s spaceType callback w0 c Hc) as H1. cbv zeta in H1.
  intros w1. change ((_onSessionStart s spaceType callback w0).1) with w1 in H1.
  clearbody w1.
  destruct H1 as (_ & Hp1 & Ho1 & Hc1 & _ & He1 & _ & _ & _ & _).
  intros k w2.
  assert (H2 : w2 = requestReferenceSpace_catch s callback ex
                      (upd_pending (fun _ => pending w0) w1)).
  { subst w2 k. by apply deliver_last with (op := PRequestReferenceSpace s spaceType callback). }
  clearbody w2.
  pose proof (requestReferenceSpace_catch_spec s callback ex
                (upd_pending (fun _ => pending w0) w1)) as S2.
  cbv zeta in S2. rewrite <- H2 in S2.
  destruct S2 as (Hx2 & Hcam2 & Ho2 & Hp2 & Hs2 & Ht2).
  change (session_of (upd_pending (fun _ => pending w0) w1) s) with (session_of w1 s) in Hs2.
  simpl in Hx2, Hcam2, Ho2, Hp2, Ht2.
  intros w3.
  assert (H3 : w3 = onEnd s (upd_pending (fun _ => pending w0) w2)).
  { subst w3 k. rewrite (deliver_last (pending w0) (PSessionEnd s) Ended
                           (session_end_event s) w2 Hp2 eq_refl).
    unfold session_end_event.
    change (session_of (upd_pending (fun _ => pending w0) w2) s) with (session_of w2 s).
    rewrite Hs2. cbn [end_listener sset_failed]. by rewrite He1. }
  clearbody w3.
  pose proof (onEnd_failed s c (upd_pending (fun _ => pending w0) w2)) as S3.
  cbv zeta in S3. rewrite <- H3 in S3.
  destruct S3 as (Ht3 & Ho3 & Hp3 & Hrest).
  { simpl. by rewrite Hx2. }
  { change (session_of (upd_pending (fun _ => pending w0) w2) s) with (session_of w2 s).
    by rewrite Hs2. }
  simpl in Ht3, Ho3, Hp3.
  split; [done|]. split; [by rewrite Hs2|]. split; [done|]. split; [done|].
  split; [done|]. split; [by rewrite Ho3, Ho2|]. split; [done|]. exact Hrest.
Qed.

Lemma reference_space_failure_tears_down_witness :
  _camera (xr world_vr_granted) = Some 7%nat
  /\ _session
       (xr (deliver (length (pending world_vr_granted)) Ended
              (deliver (length (pending world_vr_granted)) (Rejected (HostError 3))
                 (_onSessionStart 100 "local-floor" (Some 10%nat) world_vr_granted).1)))
     = None.
Proof.
  split; [reflexivity|].
  apply (reference_space_failure_tears_down world_vr_granted 7 100 "local-floor"
           (Some 10%nat) (HostError 3)).
  reflexivity.
Defined.

(** ** Clip planes *)

(** [_setClipPlanes] with values equal to the stored ones does nothing. *)
Lemma setClipPlanes_same near far w :
  _depthNear (xr w) = near -> _depthFar (xr w) = far ->
  _setClipPlanes near far w = w.
Proof.
  intros Hn Hf. unfold _setClipPlanes.
  by rewrite !bool_decide_eq_true_2 by done.
Qed.

(** With other values and a live session, it stores them and pushes one
    render-state update that carries the two depths and no base layer. *)
Lemma setClipPlanes_changed near far w s :
  _session (xr w) = Some s ->
  ~ (_depthNear (xr w) = near /\ _depthFar (xr w) = far) ->
  _setClipPlanes near far w
  = emit (EUpdateRenderState s None near far) (set_depthFar far (set_depthNear near w)).
Proof.
  intros Hs Hne. unfold _setClipPlanes.
  destruct (bool_decide (_depthNear (xr w) = near)) eqn:En;
    destruct (bool_decide (_depthFar (xr w) = far)) eqn:Ef; simpl;
    try (by rewrite Hs).
  apply bool_decide_eq_true_1 in En, Ef. tauto.
Qed.

Lemma setClipPlanes_stored near far w :
  _depthNear (xr (_setClipPlanes near far w)) = near
  /\ _depthFar (xr (_setClipPlanes near far w)) = far
  /\ cameras (_setClipPlanes near far w) = cameras w
  /\ _camera (xr (_setClipPlanes near far w)) = _camera (xr w).
Proof.
  unfold _setClipPlanes.
  destruct (bool_decide (_depthNear (xr w) = near)) eqn:En;
    destruct (bool_decide (_depthFar (xr w) = far)) eqn:Ef; simpl;
    try (destruct (_session (xr w)); done).
  apply bool_decide_eq_true_1 in En, Ef. done.
Qed.

(** Running the listener again changes nothing more. *)
Lemma onClipPlanesChange_idempotent w :
  onClipPlanesChange (onClipPlanesChange w) = onClipPlanesChange w.
Proof.
  unfold onClipPlanesChange at 2. destruct (_camera (xr w)) as [c|] eqn:Hc.
  - set (near := nearClip (camera_of w c)). set (far := farClip (camera_of w c)).
    destruct (setClipPlanes_stored near far w) as (Hn & Hf & Hcam & Hcm).
    unfold onClipPlanesChange. rewrite Hcm, Hc.
    unfold camera_of. rewrite Hcam. fold (camera_of w c). fold near far.
    by apply setClipPlanes_same.
  - unfold onClipPlanesChange. by rewrite Hc.
Qed.

(** C7.  The claim is that every change of the camera's near or far clip
    plane during an active session pushes exactly one render-state update
    with the two depths to the session (and none when the depths are the
    ones already stored).  [_onSessionStart] registers the manager's listener
    on the camera for 'set_nearClip' and 'set_farClip', and the listener does
    just that when it runs; but the setters of the two properties store the
    value on the render camera and notify nobody, so the listener never
    runs.  In an active VR session whose stored depths are 0.1 and 1000,
    setting the camera's near clip plane to 2 changes the camera and pushes
    nothing: the trace and every field of the manager are as before, the
    stored near depth is still 0.1.  Running the listener by hand in that
    state pushes the one update the claim expects. *)
Theorem clip_plane_change_pushes_no_update :
  (_session (xr world_vr_active) = Some 100%nat
   /\ _camera (xr world_vr_active) = Some 7%nat
   /\ on_set_nearClip (camera_of world_vr_active 7) = [100%nat]
   /\ on_set_farClip (camera_of world_vr_active 7) = [100%nat]
   /\ _depthNear (xr world_vr_active) = Q2Qc (1 # 10)
   /\ _depthFar (xr world_vr_active) = Q2Qc (1000 # 1)
   /\ let w' := camera_set_nearClip 7 (Q2Qc (2 # 1)) world_vr_active in
      nearClip (camera_of w' 7) = Q2Qc (2 # 1)
      /\ trace w' = trace world_vr_active
      /\ _depthNear (xr w') = Q2Qc (1 # 10)
      /\ trace (onClipPlanesChange w')
         = trace world_vr_active
           ++ [EUpdateRenderState 100 None (Q2Qc (2 # 1)) (Q2Qc (1000 # 1))])
  /\ (forall c newValue w,
        let w' := camera_set_nearClip c newValue w in
        nearClip (camera_of w' c) = newValue
        /\ trace w' = trace w /\ xr w' = xr w /\ sessions w' = sessions w
        /\ pending w' = pending w)
  /\ (forall c newValue w,
        let w' := camera_set_farClip c newValue w in
        farClip (camera_of w' c) = newValue
        /\ trace w' = trace w /\ xr w' = xr w /\ sessions w' = sessions w
        /\ pending w' = pending w)
  /\ (forall w c s,
        _session (xr w) = Some s ->
        _camera (xr w) = Some c ->
        let w' := onClipPlanesChange w in
        let near := nearClip (camera_of w c) in
        let far := farClip (camera_of w c) in
        (_depthNear (xr w) = near /\ _depthFar (xr w) = far -> w' = w)
        /\ (~ (_depthNear (xr w) = near /\ _depthFar (xr w) = far) ->
            trace w' = trace w ++ [EUpdateRenderState s None near far]
            /\ _depthNear (xr w') = near /\ _depthFar (xr w') = far
            /\ sessions w' = sessions w /\ pending w' = pending w)).
Proof.
  split.
  { do 6 (split; [vm_compute; reflexivity|]). cbv zeta.
    do 3 (split; [vm_compute; reflexivity|]). vm_compute. reflexivity. }
  split.
  { intros c newValue w. cbv zeta. unfold camera_set_nearClip.
    rewrite camera_of_upd_camera. done. }
  split.
  { intros c newValue w. cbv zeta. unfold camera_set_farClip.
    rewrite camera_of_upd_camera. done. }
  intros w c s Hs Hc. cbv zeta. unfold onClipPlanesChange. rewrite Hc. split.
  - intros (Hn & Hf). by apply setClipPlanes_same.
  - intros Hne. by rewrite (setClipPlanes_changed _ _ _ s).
Qed.

(** ** The depth-map request counter *)

Lemma requestSceneDepthMap_counter LAYERID_DEPTH depthLayer enabled c :
  _renderSceneDepthMap (requestSceneDepthMap LAYERID_DEPTH depthLayer enabled c).1
  = _renderSceneDepthMap c + (if enabled then 1 else -1).
Proof.
  unfold requestSceneDepthMap. cbv zeta.
  by destruct (_enableDepthLayer _ _ _ _) as [effects ok].
Qed.

Lemma requestSceneDepthMap_calls_counter LAYERID_DEPTH depthLayer calls : forall c,
  _renderSceneDepthMap (requestSceneDepthMap_calls LAYERID_DEPTH depthLayer calls c)
  = _renderSceneDepthMap c + enables calls - disables calls.
Proof.
  unfold requestSceneDepthMap_calls, enables, disables.
  induction calls as [|enabled calls IH]; intros c; simpl; [lia|].
  rewrite IH, requestSceneDepthMap_counter.
  destruct enabled.
  - rewrite filter_cons_True, filter_cons_False by done. simpl length. lia.
  - rewrite filter_cons_False, filter_cons_True by done. simpl length. lia.
Qed.

(** C8.  The claim is that calling [requestSceneDepthMap(false)] more often
    than [requestSceneDepthMap(true)] does not drive [_renderSceneDepthMap]
    below zero.  The method adds 1 or -1 whatever the counter is and then
    evaluates [Debug.assert(this._renderSceneDepthMap >= 0)], which reports
    and goes on: after any sequence of calls the counter is the initial one
    plus the enabling calls minus the disabling ones, and one disabling call
    on a new camera component leaves it at -1 with the assertion failed,
    whatever the layers of the camera are.  On a new component with the
    default layers, in a scene that has the depth layer, the failed assertion
    is followed by the decrement of the layer's counter. *)
Theorem requestSceneDepthMap_counter_below_zero :
  (forall LAYERID_DEPTH depthLayer layers0,
     _renderSceneDepthMap
       (requestSceneDepthMap LAYERID_DEPTH depthLayer false (CameraComponent_new layers0)).1
     = -1
     /\ EDebugAssertFailed
        ∈ (requestSceneDepthMap LAYERID_DEPTH depthLayer false
             (CameraComponent_new layers0)).2)
  /\ (forall LAYERID_WORLD LAYERID_DEPTH LAYERID_SKYBOX LAYERID_UI LAYERID_IMMEDIATE,
        LAYERID_DEPTH <> 0 ->
        (requestSceneDepthMap LAYERID_DEPTH true false
           (CameraComponent_new
              (default_layers LAYERID_WORLD LAYERID_DEPTH LAYERID_SKYBOX LAYERID_UI
                 LAYERID_IMMEDIATE))).2
        = [EDebugAssertFailed; EDecrementCounter])
  /\ (forall LAYERID_DEPTH depthLayer layers0,
        _renderSceneDepthMap
          (requestSceneDepthMap_calls LAYERID_DEPTH depthLayer [true; false; false]
             (CameraComponent_new layers0)) = -1)
  /\ forall LAYERID_DEPTH depthLayer calls c,
       _renderSceneDepthMap (requestSceneDepthMap_calls LAYERID_DEPTH depthLayer calls c)
       = _renderSceneDepthMap c + enables calls - disables calls.
Proof.
  split.
  { intros L depthLayer layers0. split; [by rewrite requestSceneDepthMap_counter|].
    unfold requestSceneDepthMap. cbv zeta.
    destruct (_enableDepthLayer _ _ _ _) as [? ?]. simpl. apply elem_of_cons. by left. }
  split.
  { intros W D S U I HD. unfold requestSceneDepthMap, _enableDepthLayer, default_layers.
    cbn [layers cset_renderSceneDepthMap CameraComponent_new List.find].
    assert (Hn : negb (D =? 0) = true) by (apply negb_true_iff, Z.eqb_neq, HD).
    destruct (W =? D) eqn:E.
    - apply Z.eqb_eq in E. subst W. by rewrite Hn.
    - rewrite Z.eqb_refl. by rewrite Hn. }
  split.
  { intros L depthLayer layers0. by rewrite requestSceneDepthMap_calls_counter. }
  intros. apply requestSceneDepthMap_calls_counter.
Qed.

(** ** Availability before the first support check completes *)

Lemma available_constructor supported m :
  _available (xr (constructor supported m))
  = [(XRTYPE_INLINE, false); (XRTYPE_VR, false); (XRTYPE_AR, false)].
Proof.
  unfold constructor. cbv zeta.
  match goal with
  | |- context [if ?b then _deviceAvailabilityCheck ?x else _] =>
      destruct b; [rewrite (frame_deviceAvailabilityCheck _available)|]
  end; reflexivity.
Qed.

Lemma available_run acts : forall w,
  Forall (fun a => is_support_result a = false) acts ->
  _available (xr (run acts w)) = _available (xr w).
Proof.
  unfold run. induction acts as [|a acts IH]; intros w Hacts; simpl; [done|].
  inversion Hacts as [|a' acts' Ha Hacts']; subst.
  rewrite IH by done. apply available_step.
  intros k available ->. done.
Qed.

Lemma initial_flags_falsy type :
  type ∉ Object_prototype ->
  truthy (js_lookup [(XRTYPE_INLINE, false); (XRTYPE_VR, false); (XRTYPE_AR, false)] type)
  = false.
Proof.
  intros Hn. unfold js_lookup. cbn [js_get].
  destruct (String.eqb XRTYPE_INLINE type); [done|].
  destruct (String.eqb XRTYPE_VR type); [done|].
  destruct (String.eqb XRTYPE_AR type); [done|].
  by rewrite bool_decide_eq_false_2.
Qed.

(** None of the three session types is the name of a member of
    [Object.prototype]. *)
Lemma session_types_not_inherited type :
  type ∈ session_types -> type ∉ Object_prototype.
Proof.
  unfold session_types, Object_prototype. rewrite !elem_of_cons, !elem_of_nil.
  intros [->|[->|[->|[]]]] Hp;
    repeat (destruct Hp as [Hp|Hp]; [discriminate Hp|]); done.
Qed.

Lemma inherited_truthy o type :
  type ∈ Object_prototype -> js_get o type = None -> truthy (js_lookup o type) = true.
Proof.
  intros Hin Hget. unfold js_lookup. rewrite Hget. by rewrite bool_decide_eq_true_2.
Qed.

(** C9.  From the construction of the manager and through any sequence of
    calls, completions and events in which no support check resolves,
    [isAvailable] answers [false] for inline, immersive VR and immersive AR,
    and every [start] for one of the three types fails synchronously with
    the 'not available' error, whether its options are absent, a function or
    an object: the callback, when there is one, is called with the error and
    nothing else changes.  The same holds for every type string that is not
    the name of a member of [Object.prototype].  For such a name the
    availability object, a plain [{}], answers the inherited member, which
    is truthy, so [start] goes past the availability guard; and with [null]
    for options the call throws before the guard. *)
Theorem not_available_before_support_check supported m acts :
  Forall (fun a => is_support_result a = false) acts ->
  let w := run acts (constructor supported m) in
  isAvailable XRTYPE_INLINE w = Some (Own false)
  /\ isAvailable XRTYPE_VR w = Some (Own false)
  /\ isAvailable XRTYPE_AR w = Some (Own false)
  /\ (forall camera type spaceType options,
        type ∈ session_types ->
        start camera type spaceType options w
        = failed_with "XR is not available" options w)
  /\ (forall camera type spaceType options,
        type ∉ Object_prototype ->
        start camera type spaceType options w
        = failed_with "XR is not available" options w)
  /\ (forall type, type ∈ Object_prototype -> truthy (isAvailable type w) = true)
  /\ (forall camera type spaceType,
        start_null camera type spaceType w = (w, Throw TypeError)).
Proof.
  intros Hacts w.
  assert (Ha : _available (xr w)
               = [(XRTYPE_INLINE, false); (XRTYPE_VR, false); (XRTYPE_AR, false)]).
  { subst w. rewrite available_run by done. apply available_constructor. }
  clearbody w.
  assert (Hfail : forall camera type spaceType options,
            type ∉ Object_prototype ->
            start camera type spaceType options w
            = failed_with "XR is not available" options w).
  { intros camera type spaceType options Hn. unfold start, isAvailable.
    by rewrite Ha, initial_flags_falsy. }
  unfold isAvailable. rewrite Ha.
  split; [reflexivity|]. split; [reflexivity|]. split; [reflexivity|].
  split.
  { intros camera type spaceType options Hin. apply Hfail.
    by apply session_types_not_inherited. }
  split; [exact Hfail|]. split; [|done].
  intros type Hin. unfold isAvailable. apply inherited_truthy; [done|].
  cbn [js_get].
  assert (Hne : forall k, k ∈ session_types -> String.eqb k type = false).
  { intros k Hk. apply String.eqb_neq. intros ->.
    by apply (session_types_not_inherited type). }
  rewrite !Hne; [done| | |]; unfold session_types; rewrite !elem_of_cons; tauto.
Qed.

Lemma not_available_before_support_check_witness :
  Forall (fun a => is_support_result a = false)
         [ADeliver 0 (Rejected (HostError 1)); ADeviceChange;
          AStart 7 XRTYPE_VR "local-floor" (ArgFunction 10)]
  /\ isAvailable XRTYPE_VR
       (run [ADeliver 0 (Rejected (HostError 1)); ADeviceChange;
             AStart 7 XRTYPE_VR "local-floor" (ArgFunction 10)]
            (constructor true modules_plain))
     = Some (Own false)
  /\ truthy (isAvailable "constructor"
               (run [ADeliver 0 (Rejected (HostError 1)); ADeviceChange;
                     AStart 7 XRTYPE_VR "local-floor" (ArgFunction 10)]
                    (constructor true modules_plain)))
     = true.
Proof.
  assert (H : Forall (fun a => is_support_result a = false)
                     [ADeliver 0 (Rejected (HostError 1)); ADeviceChange;
                      AStart 7 XRTYPE_VR "local-floor" (ArgFunction 10)])
    by (repeat constructor).
  split; [exact H|]. split.
  - exact (proj1 (proj2 (not_available_before_support_check true modules_plain _ H))).
  - apply (proj1 (proj2 (proj2 (proj2 (proj2 (proj2
             (not_available_before_support_check true modules_plain _ H))))))).
    unfold Object_prototype. apply elem_of_cons. by left.
Defined.

(** ** The visibility state *)

(** C10.  With no session, [visibilityState] answers [null], which is none
    of 'hidden', 'visible' and 'visible-blurred'; with a session it answers
    the session's visibility state as it is, also right after the host
    changed it. *)
Theorem visibilityState_null_without_session w :
  (_session (xr w) = None ->
   visibilityState w = JsNull
   /\ visibilityState w <> JsString "hidden"
   /\ visibilityState w <> JsString "visible"
   /\ visibilityState w <> JsString "visible-blurred")
  /\ (forall s,
         _session (xr w) = Some s ->
         visibilityState w = JsString (visibilityState_of (session_of w s))
         /\ forall state,
              visibilityState (session_visibilitychange_event s state w) = JsString state).
Proof.
  split.
  - intros Hs. unfold visibilityState. rewrite Hs. done.
  - intros s Hs. split; [unfold visibilityState; by rewrite Hs|].
    intros state. unfold visibilityState.
    rewrite (frame_session_visibilitychange_event _session) by done. rewrite Hs.
    f_equal. unfold session_visibilitychange_event, onVisibilityChange.
    destruct (visibilitychange_listener _); unfold session_of;
      rewrite ?sessions_fire; simpl; by rewrite lookup_insert_eq.
Qed.

Lemma visibilityState_null_without_session_witness :
  _session (xr world_vr_available) = None
  /\ visibilityState world_vr_available = JsNull
  /\ _session (xr world_vr_active) = Some 100%nat
  /\ visibilityState world_vr_active = JsString "visible".
Proof.
  split; [reflexivity|].
  split; [exact (proj1 (proj1 (visibilityState_null_without_session world_vr_available)
                          eq_refl))|].
  split; [reflexivity|].
  exact (proj1 (proj2 (visibilityState_null_without_session world_vr_active) 100%nat
                  eq_refl)).
Defined.

(** ** Support checks *)

Lemma js_get_js_set {V} (o : list (string * V)) k v : js_get (js_set o k v) k = Some v.
Proof.
  induction o as [|[k' v'] o IH]; simpl.
  - by rewrite String.eqb_refl.
  - destruct (String.eqb k' k) eqn:E; simpl; by rewrite E.
Qed.

Lemma js_get_js_set_ne {V} (o : list (string * V)) k k' v :
  k' <> k -> js_get (js_set o k v) k' = js_get o k'.
Proof.
  intros Hne. induction o as [|[k0 v0] o IH]; simpl.
  - destruct (String.eqb_spec k k'); [congruence | done].
  - destruct (String.eqb_spec k0 k) as [->|Hk]; simpl.
    + destruct (String.eqb_spec k k'); [congruence | done].
    + by rewrite IH.
Qed.

(** [js_set] on a key the object has keeps the keys and their order. *)
Lemma keys_js_set {V} (o : list (string * V)) k v :
  k ∈ map fst o -> map fst (js_set o k v) = map fst o.
Proof.
  induction o as [|[k0 v0] o IH]; simpl; [by intros ?%elem_of_nil|].
  destruct (String.eqb_spec k0 k) as [->|Hk]; simpl; [done|].
  rewrite elem_of_cons. intros [->|Hin]; [done|]. by rewrite IH.
Qed.

Lemma trace_fire n w :
  n <> NEnd -> trace (fire n w) = trace w ++ [EFire n].
Proof. intros Hn. unfold fire. by destruct n. Qed.

Lemma pending_fire n w : pending (fire n w) = pending w.
Proof.
  unfold fire. destruct n; try reflexivity.
  by rewrite (fold_emit_callbacks_frame pending).
Qed.

Lemma cameras_fire n w : cameras (fire n w) = cameras w.
Proof.
  unfold fire. destruct n; try reflexivity.
  by rewrite (fold_emit_callbacks_frame cameras).
Qed.

(** The [then] handler of a support check. *)
Lemma isSessionSupported_then_spec type available w :
  let w' := isSessionSupported_then type available w in
  isAvailable type w' = Some (Own available)
  /\ (forall other, other <> type -> isAvailable other w' = isAvailable other w)
  /\ trace w' = trace w ++ availability_notifications type (isAvailable type w) available
  /\ pending w' = pending w /\ cameras w' = cameras w /\ sessions w' = sessions w
  /\ _session (xr w') = _session (xr w) /\ _camera (xr w') = _camera (xr w).
Proof.
  unfold isSessionSupported_then, availability_notifications.
  destruct (bool_decide (isAvailable type w = Some (Own available))) eqn:E; cbv zeta.
  - apply bool_decide_eq_true_1 in E. rewrite app_nil_r. done.
  - unfold isAvailable, js_lookup.
    rewrite !xr_fire, !pending_fire, !cameras_fire, !sessions_fire, !trace_fire by done.
    simpl. rewrite js_get_js_set, <- app_assoc.
    repeat split; try done. intros other Hne. by rewrite js_get_js_set_ne.
Qed.

(** X1.  When the host answers the support check for a session type, the
    availability flag of that type becomes the answer and the flags of the
    other types stay as they are; the manager fires 'available' and
    'available:<type>' with the answer when it differs from the flag it had,
    and nothing when it is the same; the session, the bound camera, the cameras
    and the other pending operations are untouched. *)
Theorem support_check_answer_sets_flag k type available w :
  pending w !! k = Some (PIsSessionSupported type) ->
  let w' := deliver k (Supported available) w in
  isAvailable type w' = Some (Own available)
  /\ (forall other, other <> type -> isAvailable other w' = isAvailable other w)
  /\ trace w' = trace w ++ availability_notifications type (isAvailable type w) available
  /\ pending w' = delete k (pending w)
  /\ cameras w' = cameras w /\ sessions w' = sessions w
  /\ _session (xr w') = _session (xr w) /\ _camera (xr w') = _camera (xr w).
Proof.
  intros Hk. unfold deliver. rewrite Hk. simpl handler. cbv iota beta.
  apply (isSessionSupported_then_spec type available (upd_pending (delete k) w)).
Qed.

Lemma support_check_answer_sets_flag_witness :
  pending (constructor true modules_plain) !! 1%nat = Some (PIsSessionSupported XRTYPE_VR)
  /\ isAvailable XRTYPE_VR (deliver 1 (Supported true) (constructor true modules_plain))
     = Some (Own true)
  /\ trace (deliver 1 (Supported true) (constructor true modules_plain))
     = trace (constructor true modules_plain)
       ++ [EFire (NAvailable XRTYPE_VR true); EFire (NAvailableType XRTYPE_VR true)].
Proof.
  split; [reflexivity|].
  split; [exact (proj1 (support_check_answer_sets_flag 1 XRTYPE_VR true
                          (constructor true modules_plain) eq_refl))|].
  exact (proj1 (proj2 (proj2 (support_check_answer_sets_flag 1 XRTYPE_VR true
                                (constructor true modules_plain) eq_refl)))).
Defined.

(** ** The options of the session request *)

(** X2.  The options [start] assembles for the session request: the only
    required feature is the space type; the optional features are those the
    manager asks for by itself, in a fixed order, followed by the caller's
    own.  For an AR session these are light estimation and hit test, then
    image tracking when it is requested and supported, plane detection when
    it is requested, the DOM overlay when it is supported and has a root,
    and depth sensing when it is requested and supported; for a VR session
    hand tracking alone; for any other type none.  The overlay root and the
    depth-sensing preferences are only ever set for an AR session, and no
    tracked images are set by [start] itself. *)
Theorem start_opts_features type spaceType options m :
  let opts := start_opts type spaceType options m in
  requiredFeatures opts = [spaceType]
  /\ optionalFeatures opts
     = builtin_features type options m
       ++ default [] (options_object options ≫= opt_optionalFeatures)
  /\ trackedImages opts = None
  /\ (type <> XRTYPE_AR -> domOverlay opts = None /\ depthSensing opts = None).
Proof.
  destruct m as [dss dos dor hts its itl les pds].
  destruct (String.eqb_spec type XRTYPE_AR) as [->|Hne].
  - cbv zeta. split; [|split; [|split]]; [| | |intros H; by destruct H];
      (destruct options as [|f|[fs it pd cb ds]];
       [destruct dos, dor; vm_compute; reflexivity ..|];
       destruct dss, dos, dor, its, it, pd, ds, fs; vm_compute; reflexivity).
  - apply String.eqb_neq in Hne. unfold start_opts, builtin_features. rewrite Hne.
    destruct (String.eqb type XRTYPE_VR);
      destruct (options_object options ≫= opt_optionalFeatures);
      cbn; repeat split; done.
Qed.

(** ** [update]: what it tells its collaborators *)

(** The loop bodies and the resize step write the manager and the count of
    records, nothing else. *)
Lemma add_view_world w : exists f g, add_view w = upd_allocated g (upd_xr f w).
Proof.
  unfold add_view. destruct (js_pop (viewsPool (xr w))) as [[v rest]|].
  - exists (fun x => mset_views (js_push (views (mset_viewsPool rest x)) v)
                                (mset_viewsPool rest x)), id. by destruct w.
  - by exists (fun x => mset_views (js_push (views x) (view_new (allocated w))) x), S.
Qed.

Lemma remove_view_world w : exists f g, remove_view w = upd_allocated g (upd_xr f w).
Proof.
  unfold remove_view. destruct (js_pop (views (xr w))) as [[v rest]|].
  - exists (fun x => mset_viewsPool (js_push (viewsPool (mset_views rest x)) v)
                                    (mset_views rest x)), id. by destruct w.
  - exists id, id. by destruct w as [[]].
Qed.

Lemma resize_views_world lengthNew w :
  0 <= lengthNew -> exists f g, resize_views lengthNew w = upd_allocated g (upd_xr f w).
Proof.
  intros HN. rewrite resize_views_iter by done.
  destruct (decide _) as [Hgt|Hle];
    apply (iter_preserves (fun w' => exists f g, w' = upd_allocated g (upd_xr f w)));
    try (exists id, id; by destruct w as [[]]).
  - intros a (f & g & ->). destruct (add_view_world (upd_allocated g (upd_xr f w)))
      as (f' & g' & ->). by exists (f' ∘ f), (g' ∘ g).
  - intros a (f & g & ->). destruct (remove_view_world (upd_allocated g (upd_xr f w)))
      as (f' & g' & ->). by exists (f' ∘ f), (g' ∘ g).
Qed.

Lemma trace_update_ar w :
  trace (update_ar w)
  = trace w
    ++ (if hitTest_supported (modules w) then [ESubmoduleUpdate "hitTest"] else [])
    ++ (if lightEstimation_supported (modules w) then [ESubmoduleUpdate "lightEstimation"] else [])
    ++ (if depthSensing_supported (modules w) then [ESubmoduleUpdate "depthSensing"] else [])
    ++ (if imageTracking_supported (modules w) then [ESubmoduleUpdate "imageTracking"] else [])
    ++ (if planeDetection_supported (modules w) then [ESubmoduleUpdate "planeDetection"] else []).
Proof.
  unfold update_ar. cbv zeta.
  destruct (hitTest_supported _), (lightEstimation_supported _), (depthSensing_supported _),
    (imageTracking_supported _), (planeDetection_supported _); simpl;
    rewrite <- ?app_assoc; simpl; by rewrite ?app_nil_r.
Qed.

Lemma cameras_update_ar w : cameras (update_ar w) = cameras w.
Proof.
  unfold update_ar.
  repeat (match goal with |- context [if ?b then _ else _] => destruct b end);
    reflexivity.
Qed.

(** [update] on a live session, step by step: the world [w1] after the
    resolution step, the world [wr] after the resize step, and what a call
    that returns [true] leaves. *)
Lemma update_steps frame w s :
  _session (xr w) = Some s ->
  exists w1,
    w1 = (if negb (bool_decide (_width (xr w) = framebufferWidth frame))
             || negb (bool_decide (_height (xr w) = framebufferHeight frame))
          then emit (ESetResolution (framebufferWidth frame) (framebufferHeight frame))
                 (set_height (framebufferHeight frame)
                    (set_width (framebufferWidth frame) w))
          else w)
    /\ match getViewerPose frame with
       | None => update frame w = (w1, Return false)
       | Some pose =>
           exists f g vs,
             let wr := upd_allocated g (upd_xr f w1) in
             resize_views (Z.of_nat (length (pose_views pose))) w1 = wr
             /\ vs = (write_views (pose_views pose) 0 (views (xr wr))).1
             /\ let ww := set_views vs
                            (set_localRotation (transform_orientation pose)
                               (set_localPosition (transform_position pose) wr)) in
                match (write_views (pose_views pose) 0 (views (xr wr))).2, _camera (xr wr) with
                | Some e, _ => update frame w = (ww, Throw e)
                | None, None => update frame w = (ww, Throw TypeError)
                | None, Some c =>
                    let wc := emit (ESubmoduleUpdate "input")
                                (upd_camera c (cset_node_localRotation (transform_orientation pose))
                                   (upd_camera c (cset_node_localPosition (transform_position pose))
                                      ww)) in
                    update frame w
                    = (fire (NUpdate (frame_id frame))
                         (if bool_decide (_type (xr wr) = Some XRTYPE_AR)
                          then update_ar wc else wc), Return true)
                end
       end.
Proof.
  intros Hs. unfold update. rewrite Hs. cbv zeta.
  match goal with
  | |- context [if ?b then ?x else w] => set (w1 := if b then x else w)
  end.
  exists w1. split; [reflexivity|]. clearbody w1.
  destruct (getViewerPose frame) as [pose|]; [|reflexivity].
  destruct (resize_views_world (Z.of_nat (length (pose_views pose))) w1) as (f & g & Hr);
    [lia|].
  exists f, g. eexists. split; [exact Hr|]. split; [reflexivity|].
  rewrite Hr. cbn [xr upd_allocated upd_xr set_localPosition set_localRotation set_views
                   views mset_localPosition mset_localRotation mset_views].
  destruct (write_views (pose_views pose) 0 (views (f (xr w1)))) as [vs [e|]];
    cbn [fst snd]; [reflexivity|].
  change (_camera (mset_views vs
                     (mset_localRotation (transform_orientation pose)
                        (mset_localPosition (transform_position pose) (f (xr w1))))))
    with (_camera (f (xr w1))).
  destruct (_camera (f (xr w1))) as [c|]; reflexivity.
Qed.

Lemma resolution_step frame w w1 :
  w1 = (if negb (bool_decide (_width (xr w) = framebufferWidth frame))
           || negb (bool_decide (_height (xr w) = framebufferHeight frame))
        then emit (ESetResolution (framebufferWidth frame) (framebufferHeight frame))
               (set_height (framebufferHeight frame)
                  (set_width (framebufferWidth frame) w))
        else w) ->
  trace w1 = trace w ++ resolution_change frame w
  /\ _width (xr w1) = framebufferWidth frame
  /\ _height (xr w1) = framebufferHeight frame
  /\ modules w1 = modules w /\ cameras w1 = cameras w
  /\ _type (xr w1) = _type (xr w) /\ _camera (xr w1) = _camera (xr w)
  /\ views (xr w1) = views (xr w).
Proof.
  intros ->. unfold resolution_change.
  destruct (bool_decide (_width (xr w) = framebufferWidth frame)) eqn:Ew;
    destruct (bool_decide (_height (xr w) = framebufferHeight frame)) eqn:Eh;
    simpl; rewrite ?app_nil_r; repeat split; try done.
  - by apply bool_decide_eq_true_1 in Ew.
  - by apply bool_decide_eq_true_1 in Eh.
Qed.

(** What a call of [update] on a live session adds to the trace, by what it
    returns, and the size it leaves cached. *)
Lemma update_trace frame w s :
  _session (xr w) = Some s ->
  trace (update frame w).1
  = trace w ++ resolution_change frame w
    ++ match (update frame w).2 with
       | Return true =>
           submodule_updates (_type (xr w)) (modules w) ++ [EFire (NUpdate (frame_id frame))]
       | _ => []
       end
  /\ _width (xr (update frame w).1) = framebufferWidth frame
  /\ _height (xr (update frame w).1) = framebufferHeight frame.
Proof.
  intros Hs. destruct (update_steps frame w s Hs) as (w1 & Hw1 & H).
  apply resolution_step in Hw1. destruct Hw1 as (Ht & Hw & Hh & Hm & _ & Hty & _).
  clear Hs. destruct (getViewerPose frame) as [pose|];
    [|rewrite H; simpl; by rewrite app_nil_r].
  destruct H as (f & g & vs & Hr & _ & H). cbv zeta in H.
  assert (Hty' : _type (xr (upd_allocated g (upd_xr f w1))) = _type (xr w1)).
  { rewrite <- Hr. apply (resize_views_frame (fun w => _type (xr w))); [| |lia].
    - intros w0. by apply (frame_add_view _type).
    - intros w0. by apply (frame_remove_view _type). }
  assert (Hw' : _width (xr (upd_allocated g (upd_xr f w1))) = _width (xr w1)).
  { rewrite <- Hr. apply (resize_views_frame (fun w => _width (xr w))); [| |lia].
    - intros w0. by apply (frame_add_view _width).
    - intros w0. by apply (frame_remove_view _width). }
  assert (Hh' : _height (xr (upd_allocated g (upd_xr f w1))) = _height (xr w1)).
  { rewrite <- Hr. apply (resize_views_frame (fun w => _height (xr w))); [| |lia].
    - intros w0. by apply (frame_add_view _height).
    - intros w0. by apply (frame_remove_view _height). }
  simpl in Hty', Hw', Hh'.
  destruct (write_views _ _ _).2 as [e|];
    [rewrite H; simpl; rewrite app_nil_r; by rewrite Hw', Hh'|].
  destruct (_camera _) as [c|];
    [|rewrite H; simpl; rewrite app_nil_r; by rewrite Hw', Hh'].
  rewrite H. cbn [fst snd]. rewrite trace_fire, xr_fire by done.
  unfold submodule_updates. simpl _type. rewrite Hty', Hty.
  destruct (bool_decide (_type (xr w) = Some XRTYPE_AR)).
  - rewrite trace_update_ar, xr_update_ar. simpl. rewrite Ht, Hm, Hw', Hh'.
    rewrite <- !app_assoc. done.
  - simpl. rewrite Ht, Hw', Hh'. rewrite <- !app_assoc. done.
Qed.

(** X3.  A call of [update] that returns [true] tells its collaborators, in
    this order: the graphics device the resolution, when the size of the
    framebuffer changed; the input sources to update; for an AR session the
    supported ones among hit test, light estimation, depth sensing, image
    tracking and plane detection, in that order; and last the observers of
    'update'.  For a session of another type none of the five is updated. *)
Theorem update_notifies_in_order frame w w' :
  update frame w = (w', Return true) ->
  trace w'
  = trace w ++ resolution_change frame w
    ++ submodule_updates (_type (xr w)) (modules w)
    ++ [EFire (NUpdate (frame_id frame))].
Proof.
  intros Hu. destruct (_session (xr w)) as [s|] eqn:Hs.
  - destruct (update_trace frame w s Hs) as (Ht & _). rewrite Hu in Ht. exact Ht.
  - unfold update in Hu. rewrite Hs in Hu. discriminate.
Qed.

Lemma update_notifies_in_order_witness :
  update (frame_with 2) world_vr_active
  = ((update (frame_with 2) world_vr_active).1, Return true)
  /\ trace (update (frame_with 2) world_vr_active).1
     = trace world_vr_active
       ++ [ESetResolution 1280 480; ESubmoduleUpdate "input"; EFire (NUpdate 2)].
Proof.
  assert (H : update (frame_with 2) world_vr_active
              = ((update (frame_with 2) world_vr_active).1, Return true))
    by (vm_compute; reflexivity).
  split; [exact H|].
  exact (update_notifies_in_order (frame_with 2) world_vr_active _ H).
Defined.

(** X4.  While a session is live, every call of [update] leaves the size of
    the frame's framebuffer cached, whatever it returns; it sets the
    resolution of the graphics device once when that size differs from the
    cached one and not at all when it is the same, so a later frame of the
    same size does not set it again. *)
Theorem update_sets_resolution_on_change frame w s :
  _session (xr w) = Some s ->
  let w' := (update frame w).1 in
  _width (xr w') = framebufferWidth frame
  /\ _height (xr w') = framebufferHeight frame
  /\ (exists rest,
         trace w' = trace w ++ resolution_change frame w ++ rest
         /\ filter sets_resolution rest = [])
  /\ forall frame',
       framebufferWidth frame' = framebufferWidth frame ->
       framebufferHeight frame' = framebufferHeight frame ->
       resolution_change frame' w' = [].
Proof.
  intros Hs. destruct (update_trace frame w s Hs) as (Ht & Hw & Hh). cbv zeta.
  split; [done|]. split; [done|]. split.
  - exists (match (update frame w).2 with
            | Return true =>
                submodule_updates (_type (xr w)) (modules w)
                ++ [EFire (NUpdate (frame_id frame))]
            | _ => []
            end).
    split; [exact Ht|].
    destruct (update frame w).2 as [[|]|e]; [|done..].
    unfold submodule_updates.
    destruct (bool_decide _), (hitTest_supported (modules w)),
      (lightEstimation_supported (modules w)), (depthSensing_supported (modules w)),
      (imageTracking_supported (modules w)), (planeDetection_supported (modules w));
      reflexivity.
  - intros frame' Hw' Hh'. unfold resolution_change.
    by rewrite Hw, Hh, Hw', Hh', !bool_decide_eq_true_2.
Qed.

Lemma update_sets_resolution_on_change_witness :
  _session (xr world_vr_active) = Some 100%nat
  /\ _width (xr (update (frame_with 2) world_vr_active).1) = 1280
  /\ resolution_change (frame_with 1) (update (frame_with 2) world_vr_active).1 = [].
Proof.
  split; [reflexivity|].
  split; [exact (proj1 (update_sets_resolution_on_change (frame_with 2) world_vr_active
                          100%nat eq_refl))|].
  exact (proj2 (proj2 (proj2 (update_sets_resolution_on_change (frame_with 2)
                                world_vr_active 100%nat eq_refl)))
           (frame_with 1) eq_refl eq_refl).
Defined.

(** What the per-view loop leaves when it does not throw: at every index of
    a reported view the record that was there, overwritten with that view;
    beyond them the records as they were. *)
Lemma write_views_lookup raws : forall i vs vs',
  write_views raws i vs = (vs', None) ->
  (forall j raw, raws !! j = Some raw ->
     exists v, vs !! (i + j)%nat = Some v /\ vs' !! (i + j)%nat = Some (write_view raw v))
  /\ (forall k, (k < i)%nat \/ (i + length raws <= k)%nat -> vs' !! k = vs !! k).
Proof.
  induction raws as [|r raws IH]; intros i vs vs' H; simpl in H.
  - injection H as <-. split; [by intros j raw ?|done].
  - destruct (vs !! i) as [v|] eqn:E; [|discriminate].
    destruct (IH _ _ _ H) as (IH1 & IH2). split.
    + intros [|j] raw Hj; simpl in Hj.
      * injection Hj as <-. exists v. rewrite Nat.add_0_r. split; [done|].
        rewrite IH2 by lia. apply list_lookup_insert_eq. by apply lookup_lt_Some in E.
      * destruct (IH1 j raw Hj) as (v' & Hv & Hv').
        replace (i + S j)%nat with (S i + j)%nat by lia.
        exists v'. split; [|done].
        by rewrite list_lookup_insert_ne in Hv by lia.
    + intros k Hk. simpl in Hk. rewrite IH2 by lia.
      apply list_lookup_insert_ne. lia.
Qed.

(** X5.  After a call of [update] that returned [true], the view list holds
    at the index of every view the pose reports a record with that view's
    viewport, projection matrix, view matrix (the inverse of the view's
    transform) and inverse view matrix (the transform); the manager holds
    the position and the orientation of the pose, and so does the node of
    the camera it is bound to. *)
Theorem update_writes_views frame w w' pose :
  update frame w = (w', Return true) ->
  getViewerPose frame = Some pose ->
  (forall i raw,
      pose_views pose !! i = Some raw ->
      exists v,
        views (xr w') !! i = Some v
        /\ viewport v = layer_viewport raw
        /\ projMat v = projectionMatrix raw
        /\ viewMat v = transform_inverse_matrix raw
        /\ viewInvMat v = transform_matrix raw)
  /\ _localPosition (xr w') = transform_position pose
  /\ _localRotation (xr w') = transform_orientation pose
  /\ exists c,
       _camera (xr w) = Some c /\ _camera (xr w') = Some c
       /\ node_localPosition (camera_of w' c) = transform_position pose
       /\ node_localRotation (camera_of w' c) = transform_orientation pose.
Proof.
  intros Hu Hp. destruct (_session (xr w)) as [s|] eqn:Hs;
    [|unfold update in Hu; rewrite Hs in Hu; discriminate].
  destruct (update_steps frame w s Hs) as (w1 & Hw1 & H).
  apply resolution_step in Hw1. destruct Hw1 as (_ & _ & _ & _ & _ & _ & Hc1 & _).
  rewrite Hp in H. destruct H as (f & g & vs & Hr & Hvs & H). cbv zeta in H.
  assert (Hc' : _camera (xr (upd_allocated g (upd_xr f w1))) = _camera (xr w1)).
  { rewrite <- Hr. apply (resize_views_frame (fun w => _camera (xr w))); [| |lia].
    - intros w0. by apply (frame_add_view _camera).
    - intros w0. by apply (frame_remove_view _camera). }
  destruct (write_views (pose_views pose) 0 (views (xr (upd_allocated g (upd_xr f w1)))))
    as [vs' [e|]] eqn:Hwv; cbn [fst snd] in *; [rewrite Hu in H; discriminate|].
  subst vs'. rewrite Hc', Hc1 in H.
  destruct (_camera (xr w)) as [c|]; [|rewrite Hu in H; discriminate].
  rewrite Hu in H. injection H as ->.
  destruct (write_views_lookup _ _ _ _ Hwv) as (Hl & _).
  assert (Hx : forall e (b : bool) w0,
             xr (emit e (if b then update_ar w0 else w0)) = xr w0).
  { intros e0 b w0. destruct b; [apply xr_update_ar | done]. }
  assert (Hcam : forall e (b : bool) w0,
             cameras (emit e (if b then update_ar w0 else w0)) = cameras w0).
  { intros e0 b w0. destruct b; [apply cameras_update_ar | done]. }
  rewrite !Hx. split; [|split; [done|split; [done|]]].
  - intros i raw Hi. destruct (Hl i raw Hi) as (v & _ & Hv). simpl in Hv.
    exists (write_view raw v). split; [exact Hv|].
    unfold write_view. by destruct (layer_viewport raw) as [[[x y] width] height].
  - exists c. split; [done|]. split; [simpl in *; congruence|].
    unfold camera_of. rewrite !Hcam. by store.
Qed.

Lemma update_writes_views_witness :
  update (frame_with 2) world_vr_active
  = ((update (frame_with 2) world_vr_active).1, Return true)
  /\ getViewerPose (frame_with 2)
     = Some {| pose_views := repeat raw_view 2;
               transform_position := Vec3_new;
               transform_orientation := Quat_new |}
  /\ _localPosition (xr (update (frame_with 2) world_vr_active).1) = Vec3_new.
Proof.
  assert (H : update (frame_with 2) world_vr_active
              = ((update (frame_with 2) world_vr_active).1, Return true))
    by (vm_compute; reflexivity).
  split; [exact H|]. split; [reflexivity|].
  exact (proj1 (proj2 (update_writes_views (frame_with 2) world_vr_active _ _ H eq_refl))).
Defined.

(** ** When the resize step is exact *)

(** X6.  The resize step of [update] leaves exactly as many view records as
    the pose has views when the list has to grow by one or two or to shrink
    by one, or has the right length already, and in no other case.  The list
    has room for every view of the pose, so that the per-view loop does not
    throw, exactly when it has to grow by two at most: a session that starts
    with an empty list is safe with poses of one or two views. *)
Theorem resize_views_exact_within_two (n : nat) (raws : list XRView) w :
  length raws = n ->
  let w' := resize_views (Z.of_nat n) w in
  (views_length w' = Z.of_nat n <-> -1 <= Z.of_nat n - views_length w <= 2)
  /\ (Z.of_nat n <= views_length w' <-> Z.of_nat n - views_length w <= 2)
  /\ ((write_views raws 0 (views (xr w'))).2 = None
      <-> Z.of_nat n - views_length w <= 2).
Proof.
  intros Hn w'.
  assert (Hl : views_length w'
               = if decide (Z.of_nat n > views_length w)
                 then views_length w + ((Z.of_nat n - views_length w) / 2 + 1)
                 else views_length w - (views_length w - Z.of_nat n + 1) / 2)
    by (apply resize_views_length; lia).
  assert (H0 : 0 <= views_length w) by (unfold views_length; lia).
  assert (H2 : Z.of_nat n <= views_length w' <-> Z.of_nat n - views_length w <= 2).
  { rewrite Hl. destruct (decide _); dlia. }
  split; [|split; [exact H2|]].
  - rewrite Hl. destruct (decide _); dlia.
  - rewrite write_views_throws, Hn, <- H2. unfold views_length. lia.
Qed.

Lemma resize_views_exact_within_two_witness :
  length (repeat raw_view 2) = 2%nat
  /\ (views_length (resize_views (Z.of_nat 2) world_vr_active) = Z.of_nat 2
      <-> -1 <= Z.of_nat 2 - views_length world_vr_active <= 2).
Proof.
  split; [reflexivity|].
  exact (proj1 (resize_views_exact_within_two 2 (repeat raw_view 2) world_vr_active
                  eq_refl)).
Defined.

(** ** From [start] to an active session, and back *)

(** [_setClipPlanes] while there is no session: it stores the two depths. *)
Lemma setClipPlanes_no_session near far w :
  _session (xr w) = None ->
  let w' := _setClipPlanes near far w in
  xr w' = mset_depthFar far (mset_depthNear near (xr w))
  /\ cameras w' = cameras w /\ sessions w' = sessions w /\ modules w' = modules w
  /\ pending w' = pending w /\ once_end w' = once_end w /\ trace w' = trace w.
Proof.
  intros Hs. unfold _setClipPlanes.
  destruct (bool_decide (_depthNear (xr w) = near)) eqn:En;
    destruct (bool_decide (_depthFar (xr w) = far)) eqn:Ef; simpl;
    rewrite ?Hs; try done.
  apply bool_decide_eq_true_1 in En, Ef. subst. by destruct w as [[]].
Qed.

(** [start] past its guards, with no images to prepare. *)
Lemma start_requests c type spaceType options w :
  truthy (isAvailable type w) = true ->
  _session (xr w) = None ->
  prepares_images (modules w) = false ->
  let w' := start c type spaceType options w in
  let opts := start_opts type spaceType options (modules w) in
  pending w' = pending w ++ [PRequestSession type spaceType opts (start_callback options)]
  /\ trace w' = trace w ++ [ERequestSession type opts]
  /\ once_end w' = once_end w /\ sessions w' = sessions w
  /\ _available (xr w') = _available (xr w)
  /\ _camera (xr w') = Some c /\ _type (xr w') = Some type
  /\ _spaceType (xr w') = Some spaceType /\ _session (xr w') = None
  /\ _depthNear (xr w') = nearClip (camera_of w c)
  /\ _depthFar (xr w') = farClip (camera_of w c)
  /\ camera_of w' c = cset_camera_xr true (camera_of w c).
Proof.
  intros Ha Hs Hp w' opts. subst w'. unfold start, prepares_images in *.
  rewrite Ha, Hs. simpl negb. cbv iota zeta.
  set (w0 := set_spaceType (Some spaceType)
               (set_type (Some type)
                  (upd_camera c (cset_camera_xr true) (set_camera (Some c) w)))).
  assert (H0 : camera_of w0 c = cset_camera_xr true (camera_of w c))
    by exact (camera_of_upd_camera c (cset_camera_xr true) (set_camera (Some c) w)).
  rewrite H0. cbn [nearClip farClip cset_camera_xr].
  destruct (setClipPlanes_no_session (nearClip (camera_of w c)) (farClip (camera_of w c))
              w0 Hs) as (Hx & Hcam & Hse & Hm & Hpe & Ho & Ht).
  set (w1 := _setClipPlanes (nearClip (camera_of w c)) (farClip (camera_of w c)) w0) in *.
  clearbody w1. rewrite Hm. change (modules w0) with (modules w). fold opts. rewrite Hp.
  clearbody opts. unfold _onStartOptionsReady, camera_of.
  cbn [pending trace once_end sessions cameras xr enqueue emit upd_pending upd_trace].
  rewrite Hx, Hcam, Hse, Hpe, Ho, Ht. fold (camera_of w0 c). rewrite H0.
  repeat split; first [reflexivity | exact Hs].
Qed.

(** [_onSessionStart] with a bound camera: what it tells the host and what
    it leaves alone. *)
Lemma onSessionStart_requests s spaceType callback w c :
  _camera (xr w) = Some c ->
  let w' := (_onSessionStart s spaceType callback w).1 in
  trace w' = trace w
             ++ [ENewWebGLLayer s;
                 EUpdateRenderState s (Some s) (_depthNear (xr w)) (_depthFar (xr w));
                 ERequestReferenceSpace s spaceType]
  /\ _baseLayer (xr w') = Some s
  /\ _type (xr w') = _type (xr w) /\ _spaceType (xr w') = _spaceType (xr w)
  /\ _available (xr w') = _available (xr w)
  /\ camera_xr (camera_of w' c) = camera_xr (camera_of w c).
Proof.
  intros Hc. unfold _onSessionStart. simpl. rewrite Hc. cbn [fst snd].
  repeat split; store; try done. by rewrite <- !app_assoc.
Qed.

(** The [then] handler of the reference space request. *)
Lemma requestReferenceSpace_then_spec r callback w :
  let w' := requestReferenceSpace_then r callback w in
  xr w' = mset_referenceSpace (Some r) (xr w)
  /\ cameras w' = cameras w /\ sessions w' = sessions w
  /\ pending w' = pending w /\ once_end w' = once_end w
  /\ trace w' = trace w ++ [EAppTick] ++ called callback None ++ [EFire NStart].
Proof.
  unfold requestReferenceSpace_then. cbv zeta.
  rewrite xr_fire, cameras_fire, sessions_fire, pending_fire, trace_fire by done.
  assert (Ho : forall w0, once_end (fire NStart w0) = once_end w0) by done.
  rewrite Ho. store. repeat split; try done.
  unfold called. by rewrite <- !app_assoc.
Qed.

(** X7.  A start that succeeds.  With the requested type available, no
    session yet and no images to prepare, [startXr] binds the camera and
    requests the session; when the host grants the session and then the
    reference space, the manager is active with that session, type, space
    type, reference space and camera, and the camera refers back to the
    manager.  The host saw, in order, the session request with the assembled
    options, the new base layer, a render state with that layer and the
    camera's clip planes, and the reference space request; the render loop
    was then woken, the start callback called without an error and 'start'
    fired.  No operation is left pending that was not pending before. *)
Theorem start_grants_lead_to_active c type spaceType options s r w :
  truthy (isAvailable type w) = true ->
  _session (xr w) = None ->
  prepares_images (modules w) = false ->
  let k := length (pending w) in
  let w1 := startXr c type spaceType options w in
  let w2 := deliver k (SessionGranted s) w1 in
  let w3 := deliver k (SpaceGranted r) w2 in
  active w3 = true
  /\ session w3 = Some s
  /\ _type (xr w3) = Some type
  /\ _spaceType (xr w3) = Some spaceType
  /\ _referenceSpace (xr w3) = Some r
  /\ _camera (xr w3) = Some c
  /\ camera_xr (camera_of w3 c) = true
  /\ end_listener (session_of w3 s) = true
  /\ visibilitychange_listener (session_of w3 s) = true
  /\ (s ∈ on_set_nearClip (camera_of w3 c))
  /\ (s ∈ on_set_farClip (camera_of w3 c))
  /\ pending w3 = pending w
  /\ trace w3
     = trace w
       ++ [ERequestSession type (start_opts type spaceType options (modules w));
           ENewWebGLLayer s;
           EUpdateRenderState s (Some s) (nearClip (camera_of w c)) (farClip (camera_of w c));
           ERequestReferenceSpace s spaceType;
           EAppTick]
       ++ called (start_callback options) None
       ++ [EFire NStart].
Proof.
  intros Ha Hs Hp k w1.
  pose proof (start_requests c type spaceType options w Ha Hs Hp) as H1. cbv zeta in H1.
  change (start c type spaceType options w) with w1 in H1. clearbody w1.
  destruct H1 as (Hp1 & Ht1 & _ & _ & _ & Hc1 & Hty1 & Hsp1 & _ & Hn1 & Hf1 & Hcam1).
  set (cb := start_callback options) in *. clearbody cb.
  set (opts := start_opts type spaceType options (modules w)) in *. clearbody opts.
  intros w2.
  set (v1 := upd_pending (fun _ => pending w) w1).
  assert (H2 : w2 = (_onSessionStart s spaceType cb v1).1).
  { subst w2 k.
    rewrite (deliver_last (pending w) _ (SessionGranted s)
               (requestSession_then s spaceType cb) w1 Hp1 eq_refl).
    fold v1. unfold requestSession_then.
    destruct (onSessionStart_bound s spaceType cb v1 c Hc1) as (Hr & _).
    destruct (_onSessionStart s spaceType cb v1) as [w' o]. simpl in Hr. by rewrite Hr. }
  clearbody w2.
  pose proof (onSessionStart_bound s spaceType cb v1 c Hc1) as B. cbv zeta in B.
  pose proof (onSessionStart_requests s spaceType cb v1 c Hc1) as R. cbv zeta in R.
  rewrite <- H2 in B, R.
  destruct B as (_ & Hp2 & _ & Hc2 & Hs2 & He2 & Hv2 & _ & Hnl2 & Hfl2).
  destruct R as (Ht2 & _ & Hty2 & Hsp2 & _ & Hx2).
  change (pending v1) with (pending w) in Hp2.
  change (trace v1) with (trace w1) in Ht2.
  change (_depthNear (xr v1)) with (_depthNear (xr w1)) in Ht2.
  change (_depthFar (xr v1)) with (_depthFar (xr w1)) in Ht2.
  change (_type (xr v1)) with (_type (xr w1)) in Hty2.
  change (_spaceType (xr v1)) with (_spaceType (xr w1)) in Hsp2.
  change (camera_of v1 c) with (camera_of w1 c) in Hx2.
  clear H2 v1. intros w3.
  set (v2 := upd_pending (fun _ => pending w) w2).
  assert (H3 : w3 = requestReferenceSpace_then r cb v2).
  { subst w3 k.
    by rewrite (deliver_last (pending w) _ (SpaceGranted r)
                  (requestReferenceSpace_then r cb) w2 Hp2 eq_refl). }
  clearbody w3.
  pose proof (requestReferenceSpace_then_spec r cb v2) as S3. cbv zeta in S3.
  rewrite <- H3 in S3. destruct S3 as (Hx3 & Hcam3 & Hse3 & Hp3 & _ & Ht3).
  change (xr v2) with (xr w2) in Hx3. change (cameras v2) with (cameras w2) in Hcam3.
  change (sessions v2) with (sessions w2) in Hse3. change (trace v2) with (trace w2) in Ht3.
  change (pending v2) with (pending w) in Hp3.
  clear H3 v2.
  unfold active, session, camera_of, session_of.
  rewrite Hx3, Hcam3, Hse3. fold (camera_of w2 c) (session_of w2 s).
  cbn [_session _type _spaceType _referenceSpace _camera mset_referenceSpace].
  rewrite Hs2, Hty2, Hsp2, Hty1, Hsp1, Hc2, Hx2, Hcam1.
  rewrite Ht3, Ht2, Ht1, Hn1, Hf1, <- !app_assoc.
  repeat split; try done.
Qed.

Lemma start_grants_lead_to_active_witness :
  truthy (isAvailable XRTYPE_VR world_vr_available) = true
  /\ _session (xr world_vr_available) = None
  /\ prepares_images (modules world_vr_available) = false
  /\ active
       (deliver (length (pending world_vr_available)) (SpaceGranted 200)
          (deliver (length (pending world_vr_available)) (SessionGranted 100)
             (startXr 7 XRTYPE_VR "local-floor" (ArgFunction 10) world_vr_available)))
     = true.
Proof.
  split; [reflexivity|]. split; [reflexivity|]. split; [reflexivity|].
  exact (proj1 (start_grants_lead_to_active 7 XRTYPE_VR "local-floor" (ArgFunction 10)
                  100 200 world_vr_available eq_refl eq_refl eq_refl)).
Defined.

(** X8.  A start that the host refuses.  When the session request is
    rejected, the manager gives up the camera: the camera's back-reference,
    the bound camera, the type and the space type are cleared and no session
    is set; the start callback is called with the host's error and 'error'
    is fired with it.  The availability flags are as before, so [start] may
    be called again. *)
Theorem session_request_rejection_unbinds c type spaceType options ex w :
  truthy (isAvailable type w) = true ->
  _session (xr w) = None ->
  prepares_images (modules w) = false ->
  let w1 := startXr c type spaceType options w in
  let w2 := deliver (length (pending w)) (Rejected ex) w1 in
  _camera (xr w1) = Some c
  /\ camera_xr (camera_of w1 c) = true
  /\ _camera (xr w2) = None
  /\ camera_xr (camera_of w2 c) = false
  /\ _type (xr w2) = None
  /\ _spaceType (xr w2) = None
  /\ active w2 = false
  /\ _available (xr w2) = _available (xr w)
  /\ pending w2 = pending w
  /\ trace w2
     = trace w
       ++ [ERequestSession type (start_opts type spaceType options (modules w))]
       ++ called (start_callback options) (Some ex)
       ++ [EFire (NError ex)].
Proof.
  intros Ha Hs Hp w1.
  pose proof (start_requests c type spaceType options w Ha Hs Hp) as H1. cbv zeta in H1.
  change (start c type spaceType options w) with w1 in H1. clearbody w1.
  destruct H1 as (Hp1 & Ht1 & _ & _ & Hav1 & Hc1 & _ & _ & Hs1 & _ & _ & Hcam1).
  set (cb := start_callback options) in *. clearbody cb.
  set (opts := start_opts type spaceType options (modules w)) in *. clearbody opts.
  intros w2. subst w2.
  rewrite (deliver_last (pending w) _ (Rejected ex) (requestSession_catch cb ex) w1 Hp1
             eq_refl).
  unfold requestSession_catch. cbn [xr upd_pending]. rewrite Hc1.
  unfold active, camera_of.
  rewrite !xr_fire, !cameras_fire, !pending_fire, !trace_fire by done.
  rewrite !xr_call, !cameras_call, !pending_call, !trace_call.
  cbn [xr cameras pending trace upd_camera upd_cameras upd_pending set_camera set_type
       set_spaceType upd_xr _camera _type _spaceType _session _available
       mset_camera mset_type mset_spaceType].
  rewrite lookup_insert_eq. fold (camera_of w1 c). rewrite Hcam1, Hs1, Hav1, Ht1.
  unfold called. rewrite <- !app_assoc.
  repeat split; done.
Qed.

Lemma session_request_rejection_unbinds_witness :
  truthy (isAvailable XRTYPE_VR world_vr_available) = true
  /\ _session (xr world_vr_available) = None
  /\ prepares_images (modules world_vr_available) = false
  /\ camera_xr
       (camera_of
          (deliver (length (pending world_vr_available)) (Rejected (HostError 2))
             (startXr 7 XRTYPE_VR "local-floor" (ArgFunction 10) world_vr_available)) 7)
     = false.
Proof.
  split; [reflexivity|]. split; [reflexivity|]. split; [reflexivity|].
  exact (proj1 (proj2 (proj2 (proj2
           (session_request_rejection_unbinds 7 XRTYPE_VR "local-floor" (ArgFunction 10)
              (HostError 2) world_vr_available eq_refl eq_refl eq_refl))))).
Defined.

(** X9.  A start that has images to prepare.  With image tracking supported
    and images configured, [start] binds the camera and asks for the images
    to be prepared; no session is requested before the preparation calls
    back.  When it calls back without an error, the session is requested
    with the options [start] assembled, to which the tracked images are
    added when the preparation gave some, and with the callback of that
    [start]. *)
Theorem start_prepares_images_first c type spaceType options tracked w :
  truthy (isAvailable type w) = true ->
  _session (xr w) = None ->
  prepares_images (modules w) = true ->
  let opts := start_opts type spaceType options (modules w) in
  let opts' := match tracked with
               | Some t => set_trackedImages (Some t) opts
               | None => opts
               end in
  let w1 := start c type spaceType options w in
  let w2 := deliver (length (pending w)) (ImagesPrepared tracked) w1 in
  trace w1 = trace w ++ [EPrepareImages]
  /\ pending w1 = pending w ++ [PPrepareImages type spaceType opts (start_callback options)]
  /\ _camera (xr w1) = Some c
  /\ camera_xr (camera_of w1 c) = true
  /\ trace w2 = trace w1 ++ [ERequestSession type opts']
  /\ pending w2 = pending w ++ [PRequestSession type spaceType opts' (start_callback options)]
  /\ xr w2 = xr w1 /\ cameras w2 = cameras w1.
Proof.
  intros Ha Hs Hp opts opts' w1.
  assert (H1 : trace w1 = trace w ++ [EPrepareImages]
               /\ pending w1
                  = pending w ++ [PPrepareImages type spaceType opts (start_callback options)]
               /\ _camera (xr w1) = Some c
               /\ camera_xr (camera_of w1 c) = true).
  { subst w1. unfold start, prepares_images in *.
    rewrite Ha, Hs. simpl negb. cbv iota zeta.
    set (w0 := set_spaceType (Some spaceType)
                 (set_type (Some type)
                    (upd_camera c (cset_camera_xr true) (set_camera (Some c) w)))).
    assert (H0 : camera_of w0 c = cset_camera_xr true (camera_of w c))
      by exact (camera_of_upd_camera c (cset_camera_xr true) (set_camera (Some c) w)).
    rewrite H0. cbn [nearClip farClip cset_camera_xr].
    destruct (setClipPlanes_no_session (nearClip (camera_of w c)) (farClip (camera_of w c))
                w0 Hs) as (Hx & Hcam & Hse & Hm & Hpe & Ho & Ht).
    set (w1 := _setClipPlanes (nearClip (camera_of w c)) (farClip (camera_of w c)) w0) in *.
    clearbody w1. rewrite Hm. change (modules w0) with (modules w). fold opts. rewrite Hp.
    clearbody opts. unfold camera_of.
    cbn [pending trace cameras xr enqueue emit upd_pending upd_trace].
    rewrite Hx, Hcam, Hpe, Ht. fold (camera_of w0 c). rewrite H0.
    repeat split; reflexivity. }
  clearbody w1. destruct H1 as (Ht1 & Hp1 & Hc1 & Hx1).
  set (cb := start_callback options) in *. clearbody cb. clearbody opts.
  intros w2. subst w2.
  rewrite (deliver_last (pending w) _ (ImagesPrepared tracked)
             (prepareImages_callback type spaceType opts cb None tracked) w1 Hp1 eq_refl).
  unfold prepareImages_callback, _onStartOptionsReady. fold opts'.
  cbn [pending trace cameras xr enqueue emit upd_pending upd_trace].
  repeat split; done.
Qed.

Lemma start_prepares_images_first_witness :
  truthy (isAvailable XRTYPE_AR
            (deliver 2 (Supported true) (constructor true modules_image_tracking))) = true
  /\ _session (xr (deliver 2 (Supported true) (constructor true modules_image_tracking)))
     = None
  /\ prepares_images
       (modules (deliver 2 (Supported true) (constructor true modules_image_tracking)))
     = true
  /\ trace world_ar_preparing
     = trace (deliver 2 (Supported true) (constructor true modules_image_tracking))
       ++ [EPrepareImages].
Proof.
  split; [reflexivity|]. split; [reflexivity|]. split; [reflexivity|].
  exact (proj1 (start_prepares_images_first 7 XRTYPE_AR "local"
                  (ArgObject options_image_tracking) None
                  (deliver 2 (Supported true) (constructor true modules_image_tracking))
                  eq_refl eq_refl eq_refl)).
Defined.

Lemma fold_emit_callbacks_trace cbs : forall w,
  trace (fold_left (fun w cb => emit (ECallback cb None) w) cbs w)
  = trace w ++ map (fun cb => ECallback cb None) cbs.
Proof.
  induction cbs as [|cb cbs IH]; intros w; simpl; [by rewrite app_nil_r|].
  rewrite IH. simpl. by rewrite <- app_assoc.
Qed.

(** The 'end' notification: the observers, then every callback registered
    with [once], each once and in the order of registration; none stays
    registered. *)
Lemma fire_end_spec w :
  trace (fire NEnd w)
  = trace w ++ [EFire NEnd] ++ map (fun cb => ECallback cb None) (once_end w)
  /\ once_end (fire NEnd w) = []
  /\ xr (fire NEnd w) = xr w /\ cameras (fire NEnd w) = cameras w
  /\ sessions (fire NEnd w) = sessions w /\ pending (fire NEnd w) = pending w.
Proof.
  rewrite xr_fire, cameras_fire, sessions_fire, pending_fire. unfold fire.
  rewrite fold_emit_callbacks_trace, (fold_emit_callbacks_frame once_end) by done.
  simpl. by rewrite <- app_assoc.
Qed.

(** The teardown of a session whose start did not fail. *)
Lemma onEnd_normal s c w :
  _camera (xr w) = Some c ->
  failed (session_of w s) = false ->
  let w' := onEnd s w in
  trace w' = trace w ++ [EFire NEnd] ++ map (fun cb => ECallback cb None) (once_end w)
             ++ [EAppTick]
  /\ once_end w' = []
  /\ pending w' = pending w
  /\ camera_xr (camera_of w' c) = false
  /\ (s ∉ on_set_nearClip (camera_of w' c))
  /\ (s ∉ on_set_farClip (camera_of w' c))
  /\ end_listener (session_of w' s) = false
  /\ visibilitychange_listener (session_of w' s) = false
  /\ _camera (xr w') = None
  /\ _session (xr w') = None
  /\ _referenceSpace (xr w') = None
  /\ views (xr w') = []
  /\ _width (xr w') = 0%Z
  /\ _height (xr w') = 0%Z
  /\ _type (xr w') = None
  /\ _spaceType (xr w') = None.
Proof.
  intros Hc Hf. unfold onEnd. rewrite Hc. cbv zeta.
  match goal with
  | |- context [if failed ?x then _ else _] =>
      replace (failed x) with false by (store; by rewrite <- Hf)
  end.
  match goal with
  | |- context [fire NEnd ?x] =>
      destruct (fire_end_spec x) as (Ht & Ho & Hx & Hcam & Hse & Hp);
      generalize dependent (fire NEnd x)
  end.
  intros w1 Ht Ho Hx Hcam Hse Hp. simpl in Ht, Ho, Hx, Hcam, Hse, Hp.
  unfold camera_of, session_of. simpl. rewrite ?Ht, ?Ho, ?Hcam, ?Hse, ?Hp, ?Hx.
  rewrite <- !app_assoc.
  repeat split; store; try done; apply not_elem_listener_off.
Qed.

(** X10.  Ending a session.  On the camera of the active session, [endXr]
    asks the host to end the session and registers the callback for the next
    'end'; the session stays active until the host confirms.  When the 'end'
    event arrives, 'end' is fired, the callbacks registered for it (that of
    this call last) are called once each without an error and forgotten, the
    render loop is woken, the camera's back-reference, the clip-plane and
    session listeners and the session-scoped fields are cleared, and the
    manager is inactive.  A further 'end' event for that session changes
    nothing. *)
Theorem end_request_tears_down c s callback w :
  _session (xr w) = Some s ->
  _camera (xr w) = Some c ->
  camera_xr (camera_of w c) = true ->
  end_listener (session_of w s) = true ->
  failed (session_of w s) = false ->
  let w1 := endXr c callback w in
  let w2 := deliver (length (pending w)) Ended w1 in
  trace w1 = trace w ++ [ESessionEnd s]
  /\ active w1 = true
  /\ trace w2
     = trace w1 ++ [EFire NEnd]
       ++ map (fun cb => ECallback cb None) (once_end w)
       ++ called callback None ++ [EAppTick]
  /\ once_end w2 = []
  /\ pending w2 = pending w
  /\ active w2 = false
  /\ camera_xr (camera_of w2 c) = false
  /\ (s ∉ on_set_nearClip (camera_of w2 c))
  /\ (s ∉ on_set_farClip (camera_of w2 c))
  /\ end_listener (session_of w2 s) = false
  /\ visibilitychange_listener (session_of w2 s) = false
  /\ _camera (xr w2) = None
  /\ _referenceSpace (xr w2) = None
  /\ views (xr w2) = []
  /\ _width (xr w2) = 0
  /\ _height (xr w2) = 0
  /\ _type (xr w2) = None
  /\ _spaceType (xr w2) = None
  /\ session_end_event s w2 = w2.
Proof.
  intros Hs Hc Hxr He Hf w1.
  assert (H1 : trace w1 = trace w ++ [ESessionEnd s]
               /\ pending w1 = pending w ++ [PSessionEnd s]
               /\ once_end w1 = once_end w ++ match callback with Some cb => [cb] | None => [] end
               /\ xr w1 = xr w /\ cameras w1 = cameras w /\ sessions w1 = sessions w).
  { subst w1. unfold endXr, end_. rewrite Hxr, Hs. simpl negb. cbv iota.
    destruct callback; simpl; rewrite ?app_nil_r; done. }
  clearbody w1. destruct H1 as (Ht1 & Hp1 & Ho1 & Hx1 & Hcam1 & Hse1).
  intros w2.
  set (v1 := upd_pending (fun _ => pending w) w1).
  assert (H2 : w2 = onEnd s v1).
  { subst w2. rewrite (deliver_last (pending w) (PSessionEnd s) Ended
                         (session_end_event s) w1 Hp1 eq_refl).
    fold v1. unfold session_end_event.
    change (session_of v1 s) with (session_of w1 s).
    unfold session_of. rewrite Hse1. fold (session_of w s). by rewrite He. }
  clearbody w2.
  pose proof (onEnd_normal s c v1) as S2. cbv zeta in S2. rewrite <- H2 in S2.
  destruct S2 as (Ht2 & Ho2 & Hp2 & Hcx & Hn & Hfa & Hel & Hvl & Hc2 & Hs2 & Hrest).
  { change (xr v1) with (xr w1). by rewrite Hx1. }
  { change (session_of v1 s) with (session_of w1 s).
    unfold session_of. rewrite Hse1. exact Hf. }
  change (trace v1) with (trace w1) in Ht2. change (once_end v1) with (once_end w1) in Ht2.
  change (pending v1) with (pending w) in Hp2. clear H2 v1.
  split; [done|]. split; [unfold active; rewrite Hx1, Hs; done|].
  split.
  { rewrite Ht2, Ho1, map_app. unfold called. destruct callback; simpl;
      by rewrite <- ?app_assoc, ?app_nil_r. }
  split; [done|]. split; [done|]. split; [unfold active; by rewrite Hs2|].
  split; [done|]. split; [done|]. split; [done|]. split; [done|]. split; [done|].
  split; [done|].
  destruct Hrest as (? & ? & ? & ? & ? & ?).
  repeat (split; [done|]).
  unfold session_end_event. by rewrite Hel.
Qed.

Lemma end_request_tears_down_witness :
  _session (xr world_vr_active) = Some 100%nat
  /\ _camera (xr world_vr_active) = Some 7%nat
  /\ camera_xr (camera_of world_vr_active 7) = true
  /\ end_listener (session_of world_vr_active 100) = true
  /\ failed (session_of world_vr_active 100) = false
  /\ active (deliver (length (pending world_vr_active)) Ended
               (endXr 7 (Some 30%nat) world_vr_active))
     = false.
Proof.
  split; [reflexivity|]. split; [reflexivity|]. split; [reflexivity|].
  split; [reflexivity|]. split; [reflexivity|].
  exact (proj1 (proj2 (proj2 (proj2 (proj2 (proj2
           (end_request_tears_down 7 100 (Some 30%nat) world_vr_active
              eq_refl eq_refl eq_refl eq_refl eq_refl))))))).
Defined.

(** ** What every method and handler preserves *)

(** [P] is a property of the world that some of the elementary updates
    preserve; each lemma says that a method or handler preserves it too,
    from the updates it is made of. *)
Section Preserve.
Variable P : world -> Prop.
Hypothesis P_emit : forall e w, P w -> P (emit e w).
Hypothesis P_once_end : forall f w, P w -> P (upd_once_end f w).
Hypothesis P_allocated : forall f w, P w -> P (upd_allocated f w).
Hypothesis P_enqueue_check : forall type w, P w -> P (enqueue (PIsSessionSupported type) w).
Hypothesis P_enqueue :
  forall op w, (forall type, op <> PIsSessionSupported type) -> P w -> P (enqueue op w).
Hypothesis P_dequeue : forall k w, P w -> P (upd_pending (delete k) w).
Hypothesis P_available : forall v w, P w -> P (set_available v w).
Hypothesis P_type : forall v w, P w -> P (set_type v w).
Hypothesis P_spaceType : forall v w, P w -> P (set_spaceType v w).
Hypothesis P_session : forall v w, P w -> P (set_session v w).
Hypothesis P_baseLayer : forall v w, P w -> P (set_baseLayer v w).
Hypothesis P_referenceSpace : forall v w, P w -> P (set_referenceSpace v w).
Hypothesis P_camera : forall v w, P w -> P (set_camera v w).
Hypothesis P_views : forall v w, P w -> P (set_views v w).
Hypothesis P_viewsPool : forall v w, P w -> P (set_viewsPool v w).
Hypothesis P_localPosition : forall v w, P w -> P (set_localPosition v w).
Hypothesis P_localRotation : forall v w, P w -> P (set_localRotation v w).
Hypothesis P_depthNear : forall v w, P w -> P (set_depthNear v w).
Hypothesis P_depthFar : forall v w, P w -> P (set_depthFar v w).
Hypothesis P_width : forall v w, P w -> P (set_width v w).
Hypothesis P_height : forall v w, P w -> P (set_height v w).
Hypothesis P_camera_xr : forall c v w, P w -> P (upd_camera c (cset_camera_xr v) w).
Hypothesis P_nearClip : forall c v w, P w -> P (upd_camera c (cset_nearClip v) w).
Hypothesis P_farClip : forall c v w, P w -> P (upd_camera c (cset_farClip v) w).
Hypothesis P_node_localPosition :
  forall c v w, P w -> P (upd_camera c (cset_node_localPosition v) w).
Hypothesis P_node_localRotation :
  forall c v w, P w -> P (upd_camera c (cset_node_localRotation v) w).
Hypothesis P_on_set_nearClip :
  forall c f w,
    P w -> P (upd_camera c (fun o => cset_on_set_nearClip (f (on_set_nearClip o)) o) w).
Hypothesis P_on_set_farClip :
  forall c f w,
    P w -> P (upd_camera c (fun o => cset_on_set_farClip (f (on_set_farClip o)) o) w).
Hypothesis P_failed : forall s v w, P w -> P (upd_session s (sset_failed v) w).
Hypothesis P_end_listener : forall s v w, P w -> P (upd_session s (sset_end_listener v) w).
Hypothesis P_visibilitychange_listener :
  forall s v w, P w -> P (upd_session s (sset_visibilitychange_listener v) w).
Hypothesis P_visibilityState :
  forall s v w, P w -> P (upd_session s (sset_visibilityState_of v) w).

Lemma preserve_call callback err w : P w -> P (call callback err w).
Proof. destruct callback; simpl; auto. Qed.

Lemma preserve_fire n w : P w -> P (fire n w).
Proof.
  intros H. unfold fire. cbv zeta.
  assert (Hfold : forall cbs v, P v ->
            P (fold_left (fun w cb => emit (ECallback cb None) w) cbs v)).
  { induction cbs as [|cb cbs IH]; intros v Hv; simpl; auto. }
  destruct n; auto.
Qed.

Ltac pres :=
  repeat first
    [ assumption
    | apply preserve_call | apply preserve_fire
    | apply P_emit | apply P_once_end | apply P_allocated | apply P_dequeue
    | apply P_available | apply P_type | apply P_spaceType | apply P_session
    | apply P_baseLayer | apply P_referenceSpace | apply P_camera | apply P_views
    | apply P_viewsPool | apply P_localPosition | apply P_localRotation
    | apply P_depthNear | apply P_depthFar | apply P_width | apply P_height
    | apply P_camera_xr | apply P_nearClip | apply P_farClip
    | apply P_node_localPosition | apply P_node_localRotation
    | apply P_on_set_nearClip | apply P_on_set_farClip
    | apply P_failed | apply P_end_listener | apply P_visibilitychange_listener
    | apply P_visibilityState
    | apply P_enqueue_check
    | (apply P_enqueue; [discriminate|]) ].

Lemma preserve_sessionSupportCheck type w : P w -> P (_sessionSupportCheck type w).
Proof. intros H. unfold _sessionSupportCheck. pres. Qed.

Lemma preserve_deviceAvailabilityCheck w : P w -> P (_deviceAvailabilityCheck w).
Proof.
  unfold _deviceAvailabilityCheck. generalize (map fst (_available (xr w))).
  intros keys. revert w. induction keys as [|k keys IH]; intros w H; simpl; [done|].
  apply IH. by apply preserve_sessionSupportCheck.
Qed.

Lemma preserve_isSessionSupported_then type available w :
  P w -> P (isSessionSupported_then type available w).
Proof. intros H. unfold isSessionSupported_then. destruct (bool_decide _); pres. Qed.

Lemma preserve_isSessionSupported_catch ex w : P w -> P (isSessionSupported_catch ex w).
Proof. intros H. unfold isSessionSupported_catch. pres. Qed.

Lemma preserve_setClipPlanes near far w : P w -> P (_setClipPlanes near far w).
Proof.
  intros H. unfold _setClipPlanes. destruct (_ && _); [done|]. cbv zeta.
  destruct (_session _); pres.
Qed.

Lemma preserve_onClipPlanesChange w : P w -> P (onClipPlanesChange w).
Proof.
  intros H. unfold onClipPlanesChange. destruct (_camera (xr w)); [|done].
  by apply preserve_setClipPlanes.
Qed.

Lemma preserve_camera_set_nearClip c v w : P w -> P (camera_set_nearClip c v w).
Proof. intros H. unfold camera_set_nearClip. pres. Qed.

Lemma preserve_camera_set_farClip c v w : P w -> P (camera_set_farClip c v w).
Proof. intros H. unfold camera_set_farClip. pres. Qed.

Lemma preserve_onStartOptionsReady type spaceType opts callback w :
  P w -> P (_onStartOptionsReady type spaceType opts callback w).
Proof. intros H. unfold _onStartOptionsReady. pres. Qed.

Lemma preserve_prepareImages_callback type spaceType opts callback err tracked w :
  P w -> P (prepareImages_callback type spaceType opts callback err tracked w).
Proof.
  intros H. unfold prepareImages_callback.
  destruct err; [pres | by apply preserve_onStartOptionsReady].
Qed.

Lemma preserve_start camera type spaceType options w :
  P w -> P (start camera type spaceType options w).
Proof.
  intros H. unfold start. destruct (negb _); [pres|].
  destruct (_session (xr w)); [pres|]. cbv zeta.
  match goal with
  | |- context [_setClipPlanes ?n ?f ?w0] =>
      assert (H1 : P (_setClipPlanes n f w0)) by (apply preserve_setClipPlanes; pres);
      generalize dependent (_setClipPlanes n f w0)
  end.
  intros w1 H1. destruct (_ && _); [pres | by apply preserve_onStartOptionsReady].
Qed.

Lemma preserve_onSessionStart session spaceType callback w :
  P w -> P (_onSessionStart session spaceType callback w).1.
Proof.
  intros H. unfold _onSessionStart. cbv zeta.
  match goal with
  | |- context [match ?c with Some _ => _ | None => _ end] => destruct c
  end; cbn [fst]; pres.
Qed.

Lemma preserve_requestSession_catch callback ex w :
  P w -> P (requestSession_catch callback ex w).
Proof. intros H. unfold requestSession_catch. destruct (_camera (xr w)); pres. Qed.

Lemma preserve_requestSession_then session spaceType callback w :
  P w -> P (requestSession_then session spaceType callback w).
Proof.
  intros H. unfold requestSession_then.
  pose proof (preserve_onSessionStart session spaceType callback w H) as H1.
  destruct (_onSessionStart session spaceType callback w) as [w' [u|e]]; [done|].
  by apply preserve_requestSession_catch.
Qed.

Lemma preserve_requestReferenceSpace_then referenceSpace callback w :
  P w -> P (requestReferenceSpace_then referenceSpace callback w).
Proof. intros H. unfold requestReferenceSpace_then. pres. Qed.

Lemma preserve_requestReferenceSpace_catch session callback ex w :
  P w -> P (requestReferenceSpace_catch session callback ex w).
Proof. intros H. unfold requestReferenceSpace_catch. pres. Qed.

Lemma preserve_onEnd session w : P w -> P (onEnd session w).
Proof.
  intros H. unfold onEnd. cbv zeta. pres.
  match goal with |- context [if ?b then _ else _] => destruct b end;
    destruct (_camera (xr w)); pres.
Qed.

Lemma preserve_session_end_event s w : P w -> P (session_end_event s w).
Proof.
  intros H. unfold session_end_event.
  destruct (end_listener _); [by apply preserve_onEnd | done].
Qed.

Lemma preserve_session_visibilitychange_event s state w :
  P w -> P (session_visibilitychange_event s state w).
Proof.
  intros H. unfold session_visibilitychange_event, onVisibilityChange. cbv zeta.
  destruct (visibilitychange_listener _); pres.
Qed.

Lemma preserve_end callback w : P w -> P (end_ callback w).
Proof.
  intros H. unfold end_. destruct (_session (xr w)); [|pres].
  destruct callback; unfold once_end_add; pres.
Qed.

Lemma preserve_add_view w : P w -> P (add_view w).
Proof. intros H. unfold add_view. destruct (js_pop _) as [[v rest]|]; pres. Qed.

Lemma preserve_remove_view w : P w -> P (remove_view w).
Proof. intros H. unfold remove_view. destruct (js_pop _) as [[v rest]|]; pres. Qed.

Lemma preserve_resize_views lengthNew w :
  0 <= lengthNew -> P w -> P (resize_views lengthNew w).
Proof.
  intros HN H. rewrite resize_views_iter by done.
  destruct (decide _); apply iter_preserves; auto using preserve_add_view, preserve_remove_view.
Qed.

Lemma preserve_update_ar w : P w -> P (update_ar w).
Proof.
  intros H. unfold update_ar. cbv zeta.
  repeat (match goal with |- context [if ?b then _ else _] => destruct b end); pres.
Qed.

Lemma preserve_update frame w : P w -> P (update frame w).1.
Proof.
  intros H. unfold update. destruct (_session (xr w)); [|done]. cbv zeta.
  match goal with
  | |- context [if ?b then ?x else w] => set (w1 := if b then x else w)
  end.
  assert (H1 : P w1) by (subst w1; destruct (_ || _); pres).
  clearbody w1. destruct (getViewerPose frame) as [pose|]; [|done].
  set (wr := resize_views _ w1).
  assert (Hr : P wr) by (subst wr; apply preserve_resize_views; [lia | done]).
  clearbody wr.
  destruct (write_views _ _ _) as [vs [e|]]; cbn [fst]; [pres|].
  match goal with
  | |- context [match ?c with Some _ => _ | None => _ end] => destruct c
  end; cbn [fst]; [|pres].
  apply preserve_fire. destruct (bool_decide _); [apply preserve_update_ar|]; pres.
Qed.

End Preserve.

(** A property that every handler preserves, and the removal of a
    completed operation from the pending list too, is preserved by every
    completion. *)
Section Handlers.
Variable P : world -> Prop.
Hypothesis H_dequeue : forall k w, P w -> P (upd_pending (delete k) w).
Hypothesis H_isSessionSupported_then :
  forall type available w, P w -> P (isSessionSupported_then type available w).
Hypothesis H_isSessionSupported_catch :
  forall ex w, P w -> P (isSessionSupported_catch ex w).
Hypothesis H_prepareImages_callback :
  forall type spaceType opts callback err tracked w,
    P w -> P (prepareImages_callback type spaceType opts callback err tracked w).
Hypothesis H_requestSession_then :
  forall session spaceType callback w,
    P w -> P (requestSession_then session spaceType callback w).
Hypothesis H_requestSession_catch :
  forall callback ex w, P w -> P (requestSession_catch callback ex w).
Hypothesis H_requestReferenceSpace_then :
  forall referenceSpace callback w,
    P w -> P (requestReferenceSpace_then referenceSpace callback w).
Hypothesis H_requestReferenceSpace_catch :
  forall session callback ex w,
    P w -> P (requestReferenceSpace_catch session callback ex w).
Hypothesis H_session_end_event : forall s w, P w -> P (session_end_event s w).

Lemma handlers_preserve op c h w : handler op c = Some h -> P w -> P (h w).
Proof.
  intros Hh H. destruct op, c; simpl in Hh; try done; injection Hh as <-; auto.
Qed.

Lemma deliver_preserves k c w : P w -> P (deliver k c w).
Proof.
  intros H. unfold deliver. destruct (pending w !! k) as [op|]; [|done].
  destruct (handler op c) as [h|] eqn:Hh; [|done].
  apply (handlers_preserve op c h _ Hh). auto.
Qed.
End Handlers.

(** A property that every method, completion and event preserves is
    preserved by every action, hence by every sequence of them. *)
Section Steps.
Variable P : world -> Prop.
Hypothesis H_start :
  forall camera type spaceType options w, P w -> P (start camera type spaceType options w).
Hypothesis H_end : forall callback w, P w -> P (end_ callback w).
Hypothesis H_update : forall frame w, P w -> P (update frame w).1.
Hypothesis H_deliver : forall k c w, P w -> P (deliver k c w).
Hypothesis H_session_end_event : forall s w, P w -> P (session_end_event s w).
Hypothesis H_session_visibilitychange_event :
  forall s state w, P w -> P (session_visibilitychange_event s state w).
Hypothesis H_deviceAvailabilityCheck : forall w, P w -> P (_deviceAvailabilityCheck w).
Hypothesis H_camera_set_nearClip : forall c v w, P w -> P (camera_set_nearClip c v w).
Hypothesis H_camera_set_farClip : forall c v w, P w -> P (camera_set_farClip c v w).

Lemma step_preserves a w : P w -> P (step a w).
Proof.
  intros H. destruct a; simpl; auto.
  destruct (_supported _); auto.
Qed.

End Steps.

Lemma run_preserves (P : world -> Prop) acts :
  (forall a w, P w -> P (step a w)) -> forall w, P w -> P (run acts w).
Proof.
  intros Hstep. unfold run. induction acts as [|a acts IH]; intros w H; simpl; auto.
Qed.

(** ** Between sessions *)

Ltac elementary := intros; match goal with H : _ |- _ => exact H end.

(** [_onSessionStart] sets the session and both listeners on it, whether it
    then throws or not. *)
Lemma requestSession_then_session session spaceType callback w :
  let w' := requestSession_then session spaceType callback w in
  _session (xr w') = Some session
  /\ end_listener (session_of w' session) = true
  /\ visibilitychange_listener (session_of w' session) = true.
Proof.
  unfold requestSession_then, _onSessionStart. cbv zeta. cbn [xr upd_session upd_sessions set_session upd_xr _camera mset_session].
  destruct (_camera (xr w)) as [c|] eqn:Hc.
  - repeat split; store; done.
  - unfold requestSession_catch. cbn [xr upd_session upd_sessions set_session upd_xr _camera mset_session].
    rewrite Hc. repeat split; store; done.
Qed.







Lemma reachable_run acts w : reachable w -> reachable (run acts w).
Proof.
  intros (supported & m & acts0 & ->). exists supported, m, (acts0 ++ acts).
  unfold run. by rewrite fold_left_app.
Qed.

Lemma reachable_constructor supported m : reachable (constructor supported m).
Proof. by exists supported, m, []. Qed.


(** ** The session and its listeners *)

Lemma session_of_upd_session s s' f w :
  session_of (upd_session s' f w) s
  = if decide (s = s') then f (session_of w s') else session_of w s.
Proof.
  unfold session_of at 1. simpl. destruct (decide (s = s')) as [->|Hne].
  - by rewrite lookup_insert_eq.
  - by rewrite lookup_insert_ne.
Qed.

Lemma session_is_listened_upd_session s' f w :
  (forall x, end_listener (f x) = end_listener x) ->
  (forall x, visibilitychange_listener (f x) = visibilitychange_listener x) ->
  session_is_listened w -> session_is_listened (upd_session s' f w).
Proof.
  intros He Hv H s Hs. rewrite session_of_upd_session.
  destruct (decide (s = s')) as [->|Hne]; [rewrite He, Hv|]; by apply H.
Qed.

Ltac listened :=
  intros;
  first [ match goal with H : _ |- _ => exact H end
        | apply session_is_listened_upd_session; [reflexivity | reflexivity | assumption] ].

Lemma session_is_listened_requestSession_then session spaceType callback w :
  session_is_listened (requestSession_then session spaceType callback w).
Proof.
  intros s Hs.
  destruct (requestSession_then_session session spaceType callback w) as (H & He & Hv).
  rewrite H in Hs. by injection Hs as <-.
Qed.

Lemma session_is_listened_session_end_event s w :
  session_is_listened w -> session_is_listened (session_end_event s w).
Proof.
  intros H. unfold session_end_event. destruct (end_listener _); [|done].
  intros s' Hs. discriminate Hs.
Qed.

Lemma session_is_listened_step a w :
  session_is_listened w -> session_is_listened (step a w).
Proof.
  apply step_preserves.
  - intros. apply preserve_start; listened.
  - intros. apply preserve_end; listened.
  - intros. apply preserve_update; listened.
  - apply deliver_preserves.
    + listened.
    + intros. apply preserve_isSessionSupported_then; listened.
    + intros. apply preserve_isSessionSupported_catch; listened.
    + intros. apply preserve_prepareImages_callback; listened.
    + intros. apply session_is_listened_requestSession_then.
    + intros. apply preserve_requestSession_catch; listened.
    + intros. apply preserve_requestReferenceSpace_then; listened.
    + intros. apply preserve_requestReferenceSpace_catch; listened.
    + apply session_is_listened_session_end_event.
  - apply session_is_listened_session_end_event.
  - intros. apply preserve_session_visibilitychange_event; listened.
  - intros. apply preserve_deviceAvailabilityCheck; listened.
  - intros. apply preserve_camera_set_nearClip; listened.
  - intros. apply preserve_camera_set_farClip; listened.
Qed.

(** What the teardown leaves, whatever the state it runs in. *)
Lemma onEnd_resets s w :
  let w' := onEnd s w in
  _session (xr w') = None /\ _camera (xr w') = None
  /\ _type (xr w') = None /\ _spaceType (xr w') = None
  /\ _referenceSpace (xr w') = None /\ views (xr w') = []
  /\ _width (xr w') = 0 /\ _height (xr w') = 0
  /\ end_listener (session_of w' s) = false
  /\ visibilitychange_listener (session_of w' s) = false
  /\ forall c, _camera (xr w) = Some c -> camera_xr (camera_of w' c) = false.
Proof.
  unfold onEnd. cbv zeta. destruct (_camera (xr w)) as [c0|] eqn:Hc;
    (match goal with
     | |- context [if ?b then ?x else fire NEnd ?x] =>
         assert (H : xr (if b then x else fire NEnd x) = xr x
                     /\ cameras (if b then x else fire NEnd x) = cameras x
                     /\ sessions (if b then x else fire NEnd x) = sessions x)
           by (destruct b; rewrite ?xr_fire, ?cameras_fire, ?sessions_fire; done);
         generalize dependent (if b then x else fire NEnd x)
     end);
    intros w2 (Hx & Hcam & Hse); simpl in Hx, Hcam, Hse;
    unfold session_of, camera_of; simpl; rewrite ?Hx, ?Hcam, ?Hse; store;
    repeat split; try done; intros c [= ->]; by store.
Qed.

(** X12.  In every state the manager can reach, the session it holds has the
    manager's 'end' listener registered.  So when the host ends that session
    (the device is taken off, the browser revokes it), the manager always
    tears down: it is inactive afterwards, the bound camera, its
    back-reference, the type, the space type, the reference space, the view
    list and the cached size are cleared, and later visibility changes of
    that session are not reported. *)
Theorem host_end_always_tears_down w s :
  reachable w ->
  session w = Some s ->
  let w' := step (ASessionEnd s) w in
  end_listener (session_of w s) = true
  /\ active w' = false
  /\ _camera (xr w') = None
  /\ (forall c, _camera (xr w) = Some c -> camera_xr (camera_of w' c) = false)
  /\ _type (xr w') = None /\ _spaceType (xr w') = None
  /\ _referenceSpace (xr w') = None /\ views (xr w') = []
  /\ _width (xr w') = 0 /\ _height (xr w') = 0
  /\ forall state, trace (step (AVisibilityChange s state) w') = trace w'.
Proof.
  intros (supported & m & acts & ->) Hs.
  set (w := run acts (constructor supported m)) in *.
  assert (H : session_is_listened w).
  { apply run_preserves; [apply session_is_listened_step|].
    intros s' Hs'. exfalso. revert Hs'. unfold constructor. cbv zeta.
    match goal with
    | |- context [if ?b then _deviceAvailabilityCheck ?x else _] =>
        destruct b; [rewrite (frame_deviceAvailabilityCheck _session)|]
    end; done. }
  clearbody w. destruct (H s Hs) as (He & _). cbv zeta.
  assert (Hstep : step (ASessionEnd s) w = onEnd s w)
    by (cbn [step]; unfold session_end_event; by rewrite He).
  rewrite Hstep. clear Hstep.
  destruct (onEnd_resets s w) as (H1 & H2 & H3 & H4 & H5 & H6 & H7 & H8 & H9 & H10 & H11).
  generalize dependent (onEnd s w). intros w' H1 H2 H3 H4 H5 H6 H7 H8 H9 H10 H11.
  unfold active. rewrite H1.
  split; [exact He|]. split; [done|]. split; [exact H2|]. split; [exact H11|].
  split; [exact H3|]. split; [exact H4|]. split; [exact H5|]. split; [exact H6|].
  split; [exact H7|]. split; [exact H8|].
  intros state. cbn [step]. unfold session_visibilitychange_event. cbv zeta.
  rewrite session_of_upd_session, decide_True by done.
  cbn [visibilitychange_listener sset_visibilityState_of]. by rewrite H10.
Qed.

Lemma host_end_always_tears_down_witness :
  reachable world_vr_active
  /\ session world_vr_active = Some 100%nat
  /\ active (step (ASessionEnd 100) world_vr_active) = false.
Proof.
  assert (Hr : reachable world_vr_active).
  { exists true, modules_plain,
      [ADeliver 1 (Supported true); AStart 7 XRTYPE_VR "local-floor" (ArgFunction 10);
       ADeliver 2 (SessionGranted 100); ADeliver 2 (SpaceGranted 200)].
    vm_compute. reflexivity. }
  split; [exact Hr|]. split; [reflexivity|].
  exact (proj1 (proj2 (host_end_always_tears_down world_vr_active 100 Hr eq_refl))).
Defined.

(** ** The bound camera *)

Lemma camera_of_upd_camera_cases c c' f w :
  camera_of (upd_camera c' f w) c
  = if decide (c = c') then f (camera_of w c') else camera_of w c.
Proof.
  unfold camera_of at 1. simpl. destruct (decide (c = c')) as [->|Hne].
  - by rewrite lookup_insert_eq.
  - by rewrite lookup_insert_ne.
Qed.

Lemma bound_camera_refers_back_upd_camera c' f w :
  (forall x, camera_xr (f x) = camera_xr x) ->
  bound_camera_refers_back w -> bound_camera_refers_back (upd_camera c' f w).
Proof.
  intros Hf H c Hc. rewrite camera_of_upd_camera_cases.
  destruct (decide (c = c')) as [->|Hne]; [rewrite Hf|]; by apply H.
Qed.

Ltac refers_back :=
  intros;
  first [ match goal with H : _ |- _ => exact H end
        | apply bound_camera_refers_back_upd_camera; [reflexivity | assumption] ].

Lemma bound_camera_refers_back_start camera type spaceType options w :
  bound_camera_refers_back w ->
  bound_camera_refers_back (start camera type spaceType options w).
Proof.
  intros H. unfold start. destruct (negb _); [apply preserve_call; refers_back|].
  destruct (_session (xr w)); [apply preserve_call; refers_back|]. cbv zeta.
  match goal with
  | |- context [_setClipPlanes ?n ?f ?w0] =>
      assert (H1 : bound_camera_refers_back (_setClipPlanes n f w0));
      [apply preserve_setClipPlanes; try refers_back
      |generalize dependent (_setClipPlanes n f w0)]
  end.
  - intros c [= <-]. by store.
  - intros w1 H1. destruct (_ && _); [|unfold _onStartOptionsReady]; exact H1.
Qed.

Lemma bound_camera_refers_back_requestSession_catch callback ex w :
  bound_camera_refers_back w ->
  bound_camera_refers_back (requestSession_catch callback ex w).
Proof.
  intros H. unfold requestSession_catch. destruct (_camera (xr w)); [|done].
  intros c. rewrite xr_fire, xr_call. discriminate.
Qed.

Lemma bound_camera_refers_back_requestSession_then session spaceType callback w :
  bound_camera_refers_back w ->
  bound_camera_refers_back (requestSession_then session spaceType callback w).
Proof.
  intros H. unfold requestSession_then.
  assert (H1 : bound_camera_refers_back (_onSessionStart session spaceType callback w).1)
    by (apply preserve_onSessionStart; refers_back).
  destruct (_onSessionStart session spaceType callback w) as [w' [u|e]]; [done|].
  by apply bound_camera_refers_back_requestSession_catch.
Qed.

Lemma bound_camera_refers_back_session_end_event s w :
  bound_camera_refers_back w -> bound_camera_refers_back (session_end_event s w).
Proof.
  intros H. unfold session_end_event. destruct (end_listener _); [|done].
  destruct (onEnd_resets s w) as (_ & Hc & _). intros c. rewrite Hc. discriminate.
Qed.

Lemma bound_camera_refers_back_step a w :
  bound_camera_refers_back w -> bound_camera_refers_back (step a w).
Proof.
  apply step_preserves.
  - apply bound_camera_refers_back_start.
  - intros. apply preserve_end; refers_back.
  - intros. apply preserve_update; refers_back.
  - apply deliver_preserves.
    + refers_back.
    + intros. apply preserve_isSessionSupported_then; refers_back.
    + intros. apply preserve_isSessionSupported_catch; refers_back.
    + intros. apply preserve_prepareImages_callback; refers_back.
    + apply bound_camera_refers_back_requestSession_then.
    + apply bound_camera_refers_back_requestSession_catch.
    + intros. apply preserve_requestReferenceSpace_then; refers_back.
    + intros. apply preserve_requestReferenceSpace_catch; refers_back.
    + apply bound_camera_refers_back_session_end_event.
  - apply bound_camera_refers_back_session_end_event.
  - intros. apply preserve_session_visibilitychange_event; refers_back.
  - intros. apply preserve_deviceAvailabilityCheck; refers_back.
  - intros. apply preserve_camera_set_nearClip; refers_back.
  - intros. apply preserve_camera_set_farClip; refers_back.
Qed.

(** X13.  In every state the manager can reach, the camera it is bound to
    refers back to the manager.  [endXr] on that camera is therefore never
    answered with 'Camera is not in XR': it is the manager's [end].  On a
    camera that does not refer to the manager, [endXr] calls the callback
    with that error and touches nothing else, whatever session is active. *)
Theorem endXr_reaches_manager w c :
  reachable w ->
  _camera (xr w) = Some c ->
  camera_xr (camera_of w c) = true
  /\ (forall callback, endXr c callback w = end_ callback w)
  /\ forall c' callback,
       camera_xr (camera_of w c') = false ->
       endXr c' callback w = call callback (Some (Error "Camera is not in XR")) w.
Proof.
  intros (supported & m & acts & ->) Hc.
  set (w := run acts (constructor supported m)) in *.
  assert (H : bound_camera_refers_back w).
  { apply run_preserves; [apply bound_camera_refers_back_step|].
    intros c' Hc'. exfalso. revert Hc'. unfold constructor. cbv zeta.
    match goal with
    | |- context [if ?b then _deviceAvailabilityCheck ?x else _] =>
        destruct b; [rewrite (frame_deviceAvailabilityCheck _camera)|]
    end; done. }
  clearbody w. specialize (H c Hc). split; [exact H|]. split.
  - intros callback. unfold endXr. by rewrite H.
  - intros c' callback Hx. unfold endXr. by rewrite Hx.
Qed.

Lemma endXr_reaches_manager_witness :
  reachable world_vr_active
  /\ _camera (xr world_vr_active) = Some 7%nat
  /\ camera_xr (camera_of world_vr_active 7) = true.
Proof.
  assert (Hr : reachable world_vr_active).
  { exists true, modules_plain,
      [ADeliver 1 (Supported true); AStart 7 XRTYPE_VR "local-floor" (ArgFunction 10);
       ADeliver 2 (SessionGranted 100); ADeliver 2 (SpaceGranted 200)].
    vm_compute. reflexivity. }
  split; [exact Hr|]. split; [reflexivity|].
  exact (proj1 (endXr_reaches_manager world_vr_active 7 Hr eq_refl)).
Defined.

(** ** The availability flags *)

Lemma js_get_None_keys {V} (o : list (string * V)) k :
  js_get o k = None <-> k ∉ map fst o.
Proof.
  induction o as [|[k0 v0] o IH]; simpl.
  - split; [intros _; apply not_elem_of_nil | done].
  - rewrite not_elem_of_cons. destruct (String.eqb_spec k0 k) as [->|Hne].
    + split; [done | intros [? _]; done].
    + rewrite IH. split; [intros ?; split; [congruence | done] | tauto].
Qed.

Ltac keys_fixed :=
  intros;
  first [ match goal with H : _ |- _ => exact H end
        | match goal with
          | H : availability_keys_fixed _,
            Hne : forall type, ?o <> PIsSessionSupported type |- _ =>
              destruct H as [? ?]; split; [assumption|]; simpl;
              apply Forall_app; split; [assumption|];
              apply Forall_singleton; destruct o;
              first [exact I | exfalso; eapply Hne; reflexivity]
          | H : availability_keys_fixed _ |- _ =>
              destruct H as [? ?]; split; [assumption|]; simpl; by apply Forall_delete
          end ].

Lemma availability_keys_fixed_isSessionSupported_then type available w :
  type ∈ session_types ->
  availability_keys_fixed w ->
  availability_keys_fixed (isSessionSupported_then type available w).
Proof.
  intros Ht H. unfold isSessionSupported_then. destruct (bool_decide _); [done|].
  cbv zeta. do 2 (apply preserve_fire; try keys_fixed).
  destruct H as [Hk Hp]. split; [|done]. simpl.
  rewrite keys_js_set; [done|]. by rewrite Hk.
Qed.

Lemma availability_keys_fixed_deviceAvailabilityCheck w :
  availability_keys_fixed w ->
  availability_keys_fixed (_deviceAvailabilityCheck w)
  /\ trace (_deviceAvailabilityCheck w) = trace w ++ map EIsSessionSupported session_types
  /\ pending (_deviceAvailabilityCheck w)
     = pending w ++ map PIsSessionSupported session_types.
Proof.
  intros [Hk Hp]. unfold _deviceAvailabilityCheck. rewrite Hk.
  unfold availability_keys_fixed. simpl. rewrite Hk, <- !app_assoc. simpl.
  split; [|done]. split; [done|].
  apply Forall_app. split; [done|].
  repeat (constructor; [unfold checks_known_type, session_types; set_solver|]).
  constructor.
Qed.

Lemma availability_keys_fixed_deliver k c w :
  availability_keys_fixed w -> availability_keys_fixed (deliver k c w).
Proof.
  intros H. unfold deliver. destruct (pending w !! k) as [op|] eqn:Hop; [|done].
  destruct (handler op c) as [h|] eqn:Hh; [|done].
  assert (Hk : checks_known_type op).
  { destruct H as [_ Hp]. rewrite Forall_lookup in Hp. by apply (Hp k). }
  assert (H' : availability_keys_fixed (upd_pending (delete k) w)) by keys_fixed.
  generalize dependent (upd_pending (delete k) w). intros w' H'.
  destruct op, c; simpl in Hh; try done; injection Hh as <-.
  - by apply availability_keys_fixed_isSessionSupported_then.
  - apply preserve_isSessionSupported_catch; keys_fixed.
  - apply preserve_prepareImages_callback; keys_fixed.
  - apply preserve_prepareImages_callback; keys_fixed.
  - apply preserve_requestSession_then; keys_fixed.
  - apply preserve_requestSession_catch; keys_fixed.
  - apply preserve_requestReferenceSpace_then; keys_fixed.
  - apply preserve_requestReferenceSpace_catch; keys_fixed.
  - apply preserve_session_end_event; keys_fixed.
Qed.

Lemma availability_keys_fixed_step a w :
  availability_keys_fixed w -> availability_keys_fixed (step a w).
Proof.
  apply step_preserves.
  - intros. apply preserve_start; keys_fixed.
  - intros. apply preserve_end; keys_fixed.
  - intros. apply preserve_update; keys_fixed.
  - apply availability_keys_fixed_deliver.
  - intros. apply preserve_session_end_event; keys_fixed.
  - intros. apply preserve_session_visibilitychange_event; keys_fixed.
  - intros w0 H0. by apply availability_keys_fixed_deviceAvailabilityCheck.
  - intros. apply preserve_camera_set_nearClip; keys_fixed.
  - intros. apply preserve_camera_set_farClip; keys_fixed.
Qed.

Lemma availability_keys_fixed_constructor supported m :
  availability_keys_fixed (constructor supported m).
Proof.
  unfold constructor. cbv zeta.
  match goal with
  | |- context [if ?b then _deviceAvailabilityCheck ?x else _] =>
      assert (H : availability_keys_fixed x) by (split; [reflexivity | apply Forall_nil_2]);
      destruct b; [by apply availability_keys_fixed_deviceAvailabilityCheck | exact H]
  end.
Qed.

(** X14.  In every state the manager can reach, the availability object
    holds a flag for inline, immersive VR and immersive AR and for no other
    type: [isAvailable] answers a flag of the object, a boolean, for exactly
    these three.  For any other string the object has nothing of its own.
    If the string is the name of a member of [Object.prototype], which the
    object inherits, [isAvailable] answers that member, a truthy value, and
    [start] goes past the availability guard; otherwise [isAvailable]
    answers [undefined] and a [start] with that type fails with the 'not
    available' error.  On a host with XR, a device change asks the host
    about each of the three types once, in that order. *)
Theorem availability_is_kept_for_three_types w :
  reachable w ->
  (forall type, (exists b, isAvailable type w = Some (Own b)) <-> type ∈ session_types)
  /\ (forall type,
         type ∉ session_types ->
         isAvailable type w
         = if bool_decide (type ∈ Object_prototype) then Some (Inherited type) else None)
  /\ (forall type, type ∈ Object_prototype -> truthy (isAvailable type w) = true)
  /\ (forall camera type spaceType options,
         type ∉ session_types -> type ∉ Object_prototype ->
         start camera type spaceType options w
         = failed_with "XR is not available" options w)
  /\ (_supported (xr w) = true ->
      trace (step ADeviceChange w)
      = trace w ++ [EIsSessionSupported XRTYPE_INLINE; EIsSessionSupported XRTYPE_VR;
                    EIsSessionSupported XRTYPE_AR]
      /\ pending (step ADeviceChange w)
         = pending w ++ [PIsSessionSupported XRTYPE_INLINE; PIsSessionSupported XRTYPE_VR;
                         PIsSessionSupported XRTYPE_AR]).
Proof.
  intros (supported & m & acts & ->).
  set (w := run acts (constructor supported m)) in *.
  assert (H : availability_keys_fixed w).
  { apply run_preserves;
      [apply availability_keys_fixed_step | apply availability_keys_fixed_constructor]. }
  clearbody w.
  assert (Hnone : forall type,
            js_get (_available (xr w)) type = None <-> type ∉ session_types).
  { intros type. rewrite js_get_None_keys. by destruct H as [-> _]. }
  assert (Hother : forall type,
            type ∉ session_types ->
            isAvailable type w
            = if bool_decide (type ∈ Object_prototype)
              then Some (Inherited type) else None).
  { intros type Ht. apply Hnone in Ht. unfold isAvailable, js_lookup. by rewrite Ht. }
  split; [|split; [exact Hother|split; [|split]]].
  - intros type. split.
    + intros [b Hb]. apply dec_stable. intros Hn. rewrite (Hother type Hn) in Hb.
      by destruct (bool_decide (type ∈ Object_prototype)).
    + intros Hin. unfold isAvailable, js_lookup.
      destruct (js_get (_available (xr w)) type) as [b|] eqn:E; [by exists b|].
      by apply Hnone in E.
  - intros type Hin. unfold isAvailable. apply inherited_truthy; [done|].
    apply Hnone. intros Hs. by apply (session_types_not_inherited type).
  - intros camera type spaceType options Ht Hp.
    unfold start, failed_with. rewrite (Hother type Ht).
    by rewrite bool_decide_eq_false_2.
  - intros Hs. cbn [step]. rewrite Hs.
    by destruct (availability_keys_fixed_deviceAvailabilityCheck w H) as (_ & Ht & Hp).
Qed.

Lemma availability_is_kept_for_three_types_witness :
  reachable world_vr_ended
  /\ ((exists b, isAvailable "immersive-vr" world_vr_ended = Some (Own b))
      <-> "immersive-vr" ∈ session_types)
  /\ truthy (isAvailable "toString" world_vr_ended) = true.
Proof.
  assert (Hr : reachable world_vr_ended)
    by (apply reachable_run, reachable_run, reachable_constructor).
  split; [exact Hr|]. split.
  - exact (proj1 (availability_is_kept_for_three_types world_vr_ended Hr) "immersive-vr").
  - apply (proj1 (proj2 (proj2 (availability_is_kept_for_three_types world_vr_ended Hr)))).
    unfold Object_prototype. rewrite !elem_of_cons. tauto.
Defined.

(** ** The view records are never shared *)

Lemma records_distinct_perm w w' :
  records w' ≡ₚ records w -> allocated w' = allocated w ->
  records_distinct w -> records_distinct w'.
Proof.
  intros Hp Ha [Hn Hf]. unfold records_distinct. by rewrite Hp, Ha.
Qed.

Lemma records_distinct_add_view w : records_distinct w -> records_distinct (add_view w).
Proof.
  intros [Hn Hf]. unfold add_view.
  destruct (js_pop (viewsPool (xr w))) as [[v rest]|] eqn:E.
  - apply js_pop_Some in E.
    apply (records_distinct_perm w); [|done|done].
    unfold records, js_push. simpl. rewrite E, !fmap_app. simpl.
    rewrite <- !app_assoc. apply Permutation_app_head, Permutation_app_comm.
  - apply js_pop_None in E. unfold records_distinct, records, js_push in *. simpl.
    rewrite E in *. rewrite app_nil_r in *. rewrite fmap_app. simpl. split.
    + apply list.NoDup_app. split; [done|]. split; [|apply list.NoDup_singleton].
      intros id Hid Hid'. apply list_elem_of_singleton in Hid'. subst id.
      rewrite list.Forall_forall in Hf. specialize (Hf _ Hid). lia.
    + apply Forall_app. split.
      * eapply List.Forall_impl; [|exact Hf]. simpl. lia.
      * apply Forall_singleton. lia.
Qed.

Lemma records_distinct_remove_view w :
  records_distinct w -> records_distinct (remove_view w).
Proof.
  intros H. unfold remove_view.
  destruct (js_pop (views (xr w))) as [[v rest]|] eqn:E; [|done].
  apply js_pop_Some in E.
  apply (records_distinct_perm w); [|done|done].
  unfold records, js_push. simpl. rewrite E, !fmap_app. simpl.
  rewrite <- !app_assoc. apply Permutation_app_head, Permutation_app_comm.
Qed.

Lemma records_distinct_update frame w :
  records_distinct w -> records_distinct (update frame w).1.
Proof.
  intros H.
  destruct (update_views frame w)
    as [(Hv & Hp & Ha & _) | (pose & w1 & _ & Hv & Hp & Ha & Hr)].
  - apply (records_distinct_perm w); [|done|done]. unfold records. by rewrite Hv, Hp.
  - cbv zeta in Hr. destruct Hr as (_ & Hvid & Hpool & Hal & _).
    assert (H1 : records_distinct w1).
    { apply (records_distinct_perm w); [|done|done]. unfold records. by rewrite Hv, Hp. }
    assert (Hr : records_distinct (resize_views (Z.of_nat (length (pose_views pose))) w1)).
    { rewrite resize_views_iter by lia. destruct (decide _); apply iter_preserves;
        auto using records_distinct_add_view, records_distinct_remove_view. }
    generalize dependent (resize_views (Z.of_nat (length (pose_views pose))) w1).
    intros wr Hvid Hpool Hal Hr.
    apply (records_distinct_perm wr); [|done|done].
    unfold records. by rewrite !fmap_app, Hvid, Hpool.
Qed.

Lemma allocated_fire n w : allocated (fire n w) = allocated w.
Proof.
  unfold fire. destruct n; try reflexivity.
  by rewrite (fold_emit_callbacks_frame allocated).
Qed.

Lemma records_distinct_session_end_event s w :
  records_distinct w -> records_distinct (session_end_event s w).
Proof.
  intros [Hn Hf]. unfold session_end_event. destruct (end_listener _); [|done].
  assert (Hv : views (xr (onEnd s w)) = []) by reflexivity.
  assert (Hp : viewsPool (xr (onEnd s w)) = viewsPool (xr w))
    by (by apply (frame_onEnd viewsPool)).
  assert (Ha : allocated (onEnd s w) = allocated w).
  { unfold onEnd. cbv zeta.
    match goal with
    | |- context [if ?b then ?x else fire NEnd ?x] =>
        assert (H : allocated (if b then x else fire NEnd x) = allocated x)
          by (destruct b; rewrite ?allocated_fire; done);
        generalize dependent (if b then x else fire NEnd x)
    end.
    intros w2 H2. simpl. rewrite H2. by destruct (_camera (xr w)). }
  generalize dependent (onEnd s w). intros w' Hv Hp Ha.
  unfold records_distinct, records in *. rewrite Hv, Hp, Ha. simpl.
  rewrite fmap_app in Hn, Hf. apply list.NoDup_app in Hn as (_ & _ & Hn).
  apply Forall_app in Hf as [_ Hf]. done.
Qed.

Lemma records_distinct_step a w : records_distinct w -> records_distinct (step a w).
Proof.
  apply step_preserves.
  - intros. apply preserve_start; elementary.
  - intros. apply preserve_end; elementary.
  - apply records_distinct_update.
  - apply deliver_preserves.
    + elementary.
    + intros. apply preserve_isSessionSupported_then; elementary.
    + intros. apply preserve_isSessionSupported_catch; elementary.
    + intros. apply preserve_prepareImages_callback; elementary.
    + intros. apply preserve_requestSession_then; elementary.
    + intros. apply preserve_requestSession_catch; elementary.
    + intros. apply preserve_requestReferenceSpace_then; elementary.
    + intros. apply preserve_requestReferenceSpace_catch; elementary.
    + apply records_distinct_session_end_event.
  - apply records_distinct_session_end_event.
  - intros. apply preserve_session_visibilitychange_event; elementary.
  - intros. apply preserve_deviceAvailabilityCheck; elementary.
  - intros. apply preserve_camera_set_nearClip; elementary.
  - intros. apply preserve_camera_set_farClip; elementary.
Qed.

(** X15.  In every state the manager can reach, the view records it holds, in
    the view list and in the pool together, are pairwise distinct objects,
    each built by [update]: no record is in the view list twice or in the
    list and the pool at once.  So the views of a frame are written into
    different records, and a record taken from the pool is not one that is
    in use. *)
Theorem view_records_are_distinct w :
  reachable w ->
  NoDup (vid <$> (views (xr w) ++ viewsPool (xr w)))
  /\ (forall i j v v',
         views (xr w) !! i = Some v -> views (xr w) !! j = Some v' ->
         vid v = vid v' -> i = j)
  /\ (forall v v', v ∈ views (xr w) -> v' ∈ viewsPool (xr w) -> vid v <> vid v')
  /\ forall v, v ∈ views (xr w) ++ viewsPool (xr w) -> (vid v < allocated w)%nat.
Proof.
  intros (supported & m & acts & ->).
  set (w := run acts (constructor supported m)) in *.
  assert (H : records_distinct w).
  { apply run_preserves; [apply records_distinct_step|].
    unfold records_distinct, records, constructor. cbv zeta.
    match goal with
    | |- context [if ?b then _deviceAvailabilityCheck ?x else _] =>
        destruct b;
        [rewrite (frame_deviceAvailabilityCheck views),
                 (frame_deviceAvailabilityCheck viewsPool) by done|]
    end; simpl; split; constructor. }
  clearbody w. destruct H as [Hn Hf]. unfold records in *.
  split; [exact Hn|]. split; [|split].
  - intros i j v v' Hi Hj Hv. rewrite fmap_app in Hn. apply list.NoDup_app in Hn as (Hn & _).
    apply (list.NoDup_lookup _ i j (vid v) Hn); rewrite list_lookup_fmap; [by rewrite Hi|].
    rewrite Hj. simpl. by rewrite Hv.
  - intros v v' Hv Hv' Heq. rewrite fmap_app in Hn. apply list.NoDup_app in Hn as (_ & Hn & _).
    apply (Hn (vid v)); [by apply list_elem_of_fmap_2|].
    rewrite Heq. by apply list_elem_of_fmap_2.
  - intros v Hv. rewrite list.Forall_forall in Hf. apply Hf. by apply list_elem_of_fmap_2.
Qed.

Lemma view_records_are_distinct_witness :
  reachable (update (frame_with 2) world_vr_active).1
  /\ NoDup (vid <$> (views (xr (update (frame_with 2) world_vr_active).1)
                     ++ viewsPool (xr (update (frame_with 2) world_vr_active).1))).
Proof.
  assert (Hr : reachable (update (frame_with 2) world_vr_active).1).
  { exists true, modules_plain,
      [ADeliver 1 (Supported true); AStart 7 XRTYPE_VR "local-floor" (ArgFunction 10);
       ADeliver 2 (SessionGranted 100); ADeliver 2 (SpaceGranted 200);
       AUpdate (frame_with 2)].
    vm_compute. reflexivity. }
  split; [exact Hr|].
  exact (proj1 (view_records_are_distinct _ Hr)).
Defined.

(** ** A host without XR *)

Lemma dormant_call_error callback e w :
  dormant w -> dormant (call callback (Some e) w).
Proof.
  intros (H1 & H2 & H3 & H4 & H5 & H6 & H7).
  destruct callback as [cb|]; [|done].
  repeat (split; [assumption|]). simpl. apply Forall_app. split; [done|].
  by apply Forall_singleton.
Qed.

Lemma dormant_step a w :
  starts_inherited_name a = false -> dormant w -> dormant (step a w).
Proof.
  intros Ha H. pose proof H as (H1 & H2 & H3 & H4 & H5 & H6 & H7).
  destruct a as [camera type spaceType options|callback|frame|k c|s|s state| |c v|c v
                |camera type spaceType];
    cbn [step].
  - apply bool_decide_eq_false_1 in Ha.
    unfold start. rewrite (H2 type Ha). by apply dormant_call_error.
  - unfold end_. rewrite H4. by apply dormant_call_error.
  - unfold update. by rewrite H4.
  - unfold deliver. by rewrite H3.
  - unfold session_end_event. by rewrite (proj1 (H5 s)).
  - unfold session_visibilitychange_event. cbv zeta.
    rewrite session_of_upd_session, decide_True by done.
    cbn [visibilitychange_listener sset_visibilityState_of]. rewrite (proj2 (H5 s)).
    repeat (split; [assumption|]). split; [|split; assumption].
    intros s'. rewrite session_of_upd_session.
    destruct (decide (s' = s)) as [->|Hne]; [|apply H5].
    cbn [end_listener visibilitychange_listener sset_visibilityState_of]. apply H5.
  - by rewrite H1.
  - unfold camera_set_nearClip.
    repeat (split; [assumption|]). split; [|assumption].
    intros c'. rewrite camera_of_upd_camera_cases.
    destruct (decide (c' = c)) as [->|Hne]; [|apply H6].
    cbn [on_set_nearClip on_set_farClip cset_nearClip]. apply H6.
  - unfold camera_set_farClip.
    repeat (split; [assumption|]). split; [|assumption].
    intros c'. rewrite camera_of_upd_camera_cases.
    destruct (decide (c' = c)) as [->|Hne]; [|apply H6].
    cbn [on_set_nearClip on_set_farClip cset_farClip]. apply H6.
  - exact H.
Qed.

Lemma dormant_run acts : forall w,
  Forall (fun a => starts_inherited_name a = false) acts ->
  dormant w -> dormant (run acts w).
Proof.
  unfold run. induction acts as [|a acts IH]; intros w Hacts H; simpl; [done|].
  inversion Hacts as [|a' acts' Ha Hacts']; subst.
  apply IH; [done|]. by apply dormant_step.
Qed.

(** X16.  On a host without XR (the constructor found no [navigator.xr]), the
    manager never asks the host anything and never becomes active, whatever
    is called on it and whatever events arrive, as long as no [start] names
    a member of [Object.prototype] as its type: no operation is ever
    pending, no flag of the availability object is ever set, every [start]
    for a session type, or for any string that is not such a name, with
    options that are absent, a function or an object, fails with the 'not
    available' error, a device change starts no support check, and all the
    manager ever does is to call callbacks with an error.  (For the name of
    an inherited member the availability object answers the member, and
    [start] goes past the availability guard; with [null] for options the
    call throws and changes nothing.) *)
Theorem manager_without_xr_stays_dormant m acts :
  Forall (fun a => starts_inherited_name a = false) acts ->
  let w := run acts (constructor false m) in
  pending w = []
  /\ active w = false
  /\ (forall type, type ∉ Object_prototype -> truthy (isAvailable type w) = false)
  /\ (forall type, type ∈ Object_prototype -> truthy (isAvailable type w) = true)
  /\ Forall is_error_callback (trace w)
  /\ step ADeviceChange w = w
  /\ (forall camera type spaceType options,
        type ∉ Object_prototype ->
        start camera type spaceType options w
        = failed_with "XR is not available" options w)
  /\ (forall camera type spaceType options,
        type ∈ session_types ->
        start camera type spaceType options w
        = failed_with "XR is not available" options w)
  /\ (forall camera type spaceType,
        start_null camera type spaceType w = (w, Throw TypeError)).
Proof.
  intros Hacts w.
  assert (H : dormant w).
  { apply dormant_run; [done|].
    unfold dormant, constructor. simpl.
    repeat split; try done. intros type Ht. by apply initial_flags_falsy. }
  assert (Hk : availability_keys_fixed w).
  { apply run_preserves;
      [apply availability_keys_fixed_step | apply availability_keys_fixed_constructor]. }
  clearbody w. destruct H as (H1 & H2 & H3 & H4 & H5 & H6 & H7).
  assert (Hfail : forall camera type spaceType options,
            type ∉ Object_prototype ->
            start camera type spaceType options w
            = failed_with "XR is not available" options w).
  { intros camera type spaceType options Ht. unfold start, failed_with.
    by rewrite (H2 type Ht). }
  split; [done|]. split; [unfold active; by rewrite H4|]. split; [done|].
  split.
  { intros type Hin. unfold isAvailable. apply inherited_truthy; [done|].
    apply js_get_None_keys. destruct Hk as [-> _].
    intros Hs. by apply (session_types_not_inherited type). }
  split; [done|]. split; [cbn [step]; by rewrite H1|]. split; [exact Hfail|].
  split; [|done].
  intros camera type spaceType options Hin. apply Hfail.
  by apply session_types_not_inherited.
Qed.

Lemma manager_without_xr_stays_dormant_witness :
  Forall (fun a => starts_inherited_name a = false)
         [AStart 7 XRTYPE_VR "local-floor" (ArgFunction 10); ADeviceChange;
          AStart 7 "unknown" "local" ArgUndefined; AEnd (Some 11%nat)]
  /\ Forall is_error_callback
       (trace (run [AStart 7 XRTYPE_VR "local-floor" (ArgFunction 10); ADeviceChange;
                    AStart 7 "unknown" "local" ArgUndefined; AEnd (Some 11%nat)]
                 (constructor false modules_plain))).
Proof.
  assert (H : Forall (fun a => starts_inherited_name a = false)
                [AStart 7 XRTYPE_VR "local-floor" (ArgFunction 10); ADeviceChange;
                 AStart 7 "unknown" "local" ArgUndefined; AEnd (Some 11%nat)])
    by (repeat constructor).
  split; [exact H|].
  exact (proj1 (proj2 (proj2 (proj2 (proj2
           (manager_without_xr_stays_dormant modules_plain _ H)))))).
Defined.

(** X17.  In every state the manager can reach, a change of the visibility of
    the session it holds is reported: the manager fires 'visibility:change'
    with the new state, once, and [visibilityState] then answers that
    state. *)
Theorem visibility_change_is_reported w s state :
  reachable w ->
  session w = Some s ->
  let w' := step (AVisibilityChange s state) w in
  trace w' = trace w ++ [EFire (NVisibilityChange state)]
  /\ visibilityState w' = JsString state
  /\ session w' = Some s.
Proof.
  intros (supported & m & acts & ->) Hs.
  set (w := run acts (constructor supported m)) in *.
  assert (H : session_is_listened w).
  { apply run_preserves; [apply session_is_listened_step|].
    intros s' Hs'. exfalso. revert Hs'. unfold constructor. cbv zeta.
    match goal with
    | |- context [if ?b then _deviceAvailabilityCheck ?x else _] =>
        destruct b; [rewrite (frame_deviceAvailabilityCheck _session)|]
    end; done. }
  clearbody w. destruct (H s Hs) as (_ & Hv). cbv zeta. cbn [step].
  unfold session, visibilityState in *.
  rewrite (frame_session_visibilitychange_event _session) by done. rewrite Hs.
  unfold session_visibilitychange_event, onVisibilityChange. cbv zeta.
  rewrite session_of_upd_session, decide_True by done.
  cbn [visibilitychange_listener visibilityState_of sset_visibilityState_of]. rewrite Hv.
  rewrite trace_fire by done. unfold session_of. rewrite sessions_fire. simpl.
  by rewrite lookup_insert_eq.
Qed.

Lemma visibility_change_is_reported_witness :
  reachable world_vr_active
  /\ session world_vr_active = Some 100%nat
  /\ visibilityState (step (AVisibilityChange 100 "hidden") world_vr_active)
     = JsString "hidden".
Proof.
  assert (Hr : reachable world_vr_active).
  { exists true, modules_plain,
      [ADeliver 1 (Supported true); AStart 7 XRTYPE_VR "local-floor" (ArgFunction 10);
       ADeliver 2 (SessionGranted 100); ADeliver 2 (SpaceGranted 200)].
    vm_compute. reflexivity. }
  split; [exact Hr|]. split; [reflexivity|].
  exact (proj1 (proj2 (visibility_change_is_reported world_vr_active 100 "hidden" Hr
                         eq_refl))).
Defined.

(** ** The scene-map requests and the depth layer *)

Lemma layer_delta_app l1 l2 : layer_delta (l1 ++ l2) = layer_delta l1 + layer_delta l2.
Proof.
  induction l1 as [|e l1 IH]; simpl; [lia|]. destruct e; lia.
Qed.

Lemma find_layer L ls :
  List.find (fun layerId => Z.eqb layerId L) ls = (if decide (L ∈ ls) then Some L else None).
Proof.
  induction ls as [|x ls IH]; simpl; [done|].
  destruct (Z.eqb_spec x L) as [->|Hne].
  - rewrite decide_True; [done | by left].
  - rewrite IH. destruct (decide (L ∈ ls)) as [Hin|Hout].
    + rewrite decide_True; [done | by right].
    + rewrite decide_False; [done|]. rewrite elem_of_cons. by intros [?|?].
Qed.

(** What [_enableDepthLayer] does, by whether the camera renders the depth
    layer. *)
Lemma enableDepthLayer_cases L depthLayer value c :
  _enableDepthLayer L depthLayer value c
  = if decide (L ∈ layers c /\ L <> 0)
    then (if depthLayer then [if value then EIncrementCounter else EDecrementCounter] else [],
          true)
    else ([], negb value).
Proof.
  unfold _enableDepthLayer. cbv zeta. rewrite find_layer.
  destruct (decide (L ∈ layers c)) as [Hin|Hout].
  - destruct (Z.eqb_spec L 0) as [->|Hne]; simpl.
    + rewrite decide_False by tauto. by destruct value.
    + by rewrite decide_True.
  - rewrite decide_False by tauto. by destruct value.
Qed.

(** One call of the scene-map interface: the flags, the counters, the layer
    ids, and what reaches [Debug] and the depth layer. *)
Lemma map_call_run_layers L depthLayer call c :
  layers (map_call_run L depthLayer call c).1 = layers c.
Proof.
  destruct call as [enabled|enabled|value|value]; simpl;
    unfold set_renderSceneDepthMap, set_renderSceneColorMap,
      requestSceneDepthMap, requestSceneColorMap; cbv zeta;
    repeat (match goal with
            | |- context [_enableDepthLayer ?a ?b ?v ?x] =>
                destruct (_enableDepthLayer a b v x) as [? ?]
            | |- context [if ?b then _ else _] => destruct b
            end); reflexivity.
Qed.

Lemma map_calls_run_layers L depthLayer calls : forall c,
  layers (map_calls_run L depthLayer calls c).1 = layers c.
Proof.
  induction calls as [|call calls IH]; intros c; simpl; [done|].
  pose proof (map_call_run_layers L depthLayer call c) as H1.
  destruct (map_call_run L depthLayer call c) as [c1 e1].
  specialize (IH c1). destruct (map_calls_run L depthLayer calls c1) as [c2 e2].
  simpl in *. congruence.
Qed.

Lemma map_call_run_balance L depthLayer call c :
  L ∈ layers c -> L <> 0 -> depthLayer = true ->
  let c' := (map_call_run L depthLayer call c).1 in
  layer_delta (map_call_run L depthLayer call c).2
  = (_renderSceneDepthMap c' - _renderSceneDepthMap c)
    + (_renderSceneColorMap c' - _renderSceneColorMap c).
Proof.
  intros Hin Hne ->.
  destruct call as [enabled|enabled|value|value]; simpl;
    unfold set_renderSceneDepthMap, set_renderSceneColorMap,
      requestSceneDepthMap, requestSceneColorMap; cbv zeta;
    repeat (match goal with
            | |- context [if ?b && ?b' then _ else _] => destruct (b && b')
            | |- context [if _sceneDepthMapRequested c then _ else _] =>
                destruct (_sceneDepthMapRequested c)
            | |- context [if _sceneColorMapRequested c then _ else _] =>
                destruct (_sceneColorMapRequested c)
            end);
    rewrite ?enableDepthLayer_cases; cbn [layers cset_renderSceneDepthMap cset_renderSceneColorMap];
    rewrite ?decide_True by done; cbn [fst snd];
    rewrite ?layer_delta_app;
    repeat (match goal with
            | |- context [decide ?P] => destruct (decide P)
            | enabled : bool |- _ => destruct enabled
            end); simpl; lia.
Qed.

(** X18.  On a camera that renders the depth layer, the scene-map interface
    keeps the depth layer's enable counter in step with the two request
    counters: over any sequence of depth-map and color-map requests and
    assignments to [renderSceneDepthMap] and [renderSceneColorMap], the
    increments minus the decrements the layer receives equal the change of
    [_renderSceneDepthMap] plus the change of [_renderSceneColorMap]. *)
Theorem depth_layer_counter_follows_requests L calls c :
  L ∈ layers c -> L <> 0 ->
  let c' := (map_calls_run L true calls c).1 in
  layer_delta (map_calls_run L true calls c).2
  = (_renderSceneDepthMap c' - _renderSceneDepthMap c)
    + (_renderSceneColorMap c' - _renderSceneColorMap c).
Proof.
  intros Hin Hne. revert c Hin.
  induction calls as [|call calls IH]; intros c Hin; simpl; [lia|].
  pose proof (map_call_run_balance L true call c Hin Hne eq_refl) as H1.
  pose proof (map_call_run_layers L true call c) as Hl.
  destruct (map_call_run L true call c) as [c1 e1]. simpl in H1, Hl.
  assert (Hin1 : L ∈ layers c1) by (by rewrite Hl).
  specialize (IH c1 Hin1).
  destruct (map_calls_run L true calls c1) as [c2 e2]. simpl in *.
  rewrite layer_delta_app. lia.
Qed.

Lemma depth_layer_counter_follows_requests_witness :
  (1 ∈ layers (CameraComponent_new (default_layers 0 1 2 4 3)))
  /\ 1 <> 0
  /\ layer_delta
       (map_calls_run 1 true
          [SetRenderSceneDepthMap true; RequestColorMap true; RequestColorMap true;
           SetRenderSceneDepthMap false; RequestColorMap false]
          (CameraComponent_new (default_layers 0 1 2 4 3))).2
     = 1.
Proof.
  assert (Hin : 1 ∈ layers (CameraComponent_new (default_layers 0 1 2 4 3)))
    by (right; left).
  split; [exact Hin|]. split; [discriminate|].
  exact (depth_layer_counter_follows_requests 1
           [SetRenderSceneDepthMap true; RequestColorMap true; RequestColorMap true;
            SetRenderSceneDepthMap false; RequestColorMap false]
           (CameraComponent_new (default_layers 0 1 2 4 3)) Hin ltac:(discriminate)).
Defined.

Lemma map_call_run_no_layer L depthLayer call c :
  L ∉ layers c ->
  let r := map_call_run L depthLayer call c in
  filter is_layer_call r.2 = []
  /\ (is_request call = true ->
      _renderSceneDepthMap r.1 + _renderSceneColorMap r.1
      = _renderSceneDepthMap c + _renderSceneColorMap c
        + (if is_enabling_request call then 1 else -1))
  /\ (is_request call = true ->
      length (filter is_warning r.2) = if is_enabling_request call then 1%nat else 0%nat).
Proof.
  intros Hout.
  destruct call as [enabled|enabled|value|value]; simpl;
    unfold set_renderSceneDepthMap, set_renderSceneColorMap,
      requestSceneDepthMap, requestSceneColorMap; cbv zeta;
    repeat (match goal with
            | |- context [if ?b && ?b' then _ else _] => destruct (b && b')
            | |- context [if _sceneDepthMapRequested c then _ else _] =>
                destruct (_sceneDepthMapRequested c)
            | |- context [if _sceneColorMapRequested c then _ else _] =>
                destruct (_sceneColorMapRequested c)
            end);
    rewrite ?enableDepthLayer_cases; cbn [layers cset_renderSceneDepthMap cset_renderSceneColorMap];
    rewrite ?decide_False by tauto; cbn [fst snd negb];
    repeat (match goal with
            | |- context [decide ?P] => destruct (decide P)
            | enabled : bool |- _ => destruct enabled
            end); simpl; repeat split; try done; try lia.
Qed.

(** X19.  On a camera that does not render the depth layer, no call of the
    scene-map interface reaches the depth layer.  A request still moves its
    own counter, by 1 up or down: [requestSceneDepthMap] moves
    [_renderSceneDepthMap] and leaves [_renderSceneColorMap] as it is,
    [requestSceneColorMap] moves [_renderSceneColorMap] and leaves
    [_renderSceneDepthMap] as it is, and neither touches the flags or the
    layers.  The warning that the request is ignored, which names the method
    that was called, is given for an enabling request and never for a
    disabling one. *)
Theorem scene_map_requests_without_depth_layer L depthLayer calls c :
  L ∉ layers c ->
  filter is_layer_call (map_calls_run L depthLayer calls c).2 = []
  /\ (forall enabled,
        let r := requestSceneDepthMap L depthLayer enabled c in
        _renderSceneDepthMap r.1 = _renderSceneDepthMap c + (if enabled then 1 else -1)
        /\ _renderSceneColorMap r.1 = _renderSceneColorMap c
        /\ _sceneDepthMapRequested r.1 = _sceneDepthMapRequested c
        /\ _sceneColorMapRequested r.1 = _sceneColorMapRequested c
        /\ layers r.1 = layers c
        /\ filter is_warning r.2
           = if enabled
             then [EDebugWarnOnce "CameraComponent.requestSceneDepthMap was called, but the camera does not have a Depth layer, ignoring."]
             else [])
  /\ (forall enabled,
        let r := requestSceneColorMap L depthLayer enabled c in
        _renderSceneColorMap r.1 = _renderSceneColorMap c + (if enabled then 1 else -1)
        /\ _renderSceneDepthMap r.1 = _renderSceneDepthMap c
        /\ _sceneDepthMapRequested r.1 = _sceneDepthMapRequested c
        /\ _sceneColorMapRequested r.1 = _sceneColorMapRequested c
        /\ layers r.1 = layers c
        /\ filter is_warning r.2
           = if enabled
             then [EDebugWarnOnce "CameraComponent.requestSceneColorMap was called, but the camera does not have a Depth layer, ignoring."]
             else []).
Proof.
  intros Hout. split; [|split].
  - revert c Hout. induction calls as [|call calls IH]; intros c Hout; simpl; [done|].
    pose proof (map_call_run_no_layer L depthLayer call c Hout) as (H1 & _).
    pose proof (map_call_run_layers L depthLayer call c) as Hl.
    destruct (map_call_run L depthLayer call c) as [c1 e1]. simpl in H1, Hl.
    assert (Hout1 : L ∉ layers c1) by (by rewrite Hl).
    specialize (IH c1 Hout1).
    destruct (map_calls_run L depthLayer calls c1) as [c2 e2]. simpl in *.
    by rewrite list.filter_app, H1, IH.
  - intros enabled. cbv zeta. unfold requestSceneDepthMap. cbv zeta.
    rewrite enableDepthLayer_cases. cbn [layers cset_renderSceneDepthMap].
    rewrite decide_False by tauto.
    destruct enabled; cbn [fst snd negb];
      match goal with |- context [decide ?P] => destruct (decide P) end; done.
  - intros enabled. cbv zeta. unfold requestSceneColorMap. cbv zeta.
    rewrite enableDepthLayer_cases. cbn [layers cset_renderSceneColorMap].
    rewrite decide_False by tauto.
    destruct enabled; cbn [fst snd negb];
      match goal with |- context [decide ?P] => destruct (decide P) end; done.
Qed.

Lemma scene_map_requests_without_depth_layer_witness :
  (1 ∉ layers (CameraComponent_new [0; 2; 4; 3]))
  /\ filter is_layer_call
       (map_calls_run 1 true [RequestDepthMap true; SetRenderSceneColorMap true]
          (CameraComponent_new [0; 2; 4; 3])).2 = []
  /\ _renderSceneDepthMap
       (requestSceneDepthMap 1 true true (CameraComponent_new [0; 2; 4; 3])).1 = 0 + 1
  /\ _renderSceneColorMap
       (requestSceneDepthMap 1 true true (CameraComponent_new [0; 2; 4; 3])).1 = 0.
Proof.
  assert (Hout : 1 ∉ layers (CameraComponent_new [0; 2; 4; 3])).
  { simpl. rewrite !elem_of_cons, elem_of_nil. intros [H|[H|[H|[H|[]]]]]; discriminate H. }
  split; [exact Hout|]. split.
  - exact (proj1 (scene_map_requests_without_depth_layer 1 true
                    [RequestDepthMap true; SetRenderSceneColorMap true]
                    (CameraComponent_new [0; 2; 4; 3]) Hout)).
  - pose proof (proj1 (proj2 (scene_map_requests_without_depth_layer 1 true []
                                (CameraComponent_new [0; 2; 4; 3]) Hout)) true) as H.
    split; [exact (proj1 H) | exact (proj1 (proj2 H))].
Defined.

Lemma map_call_run_setter L depthLayer call c :
  is_setter call = true ->
  counters_follow_flags c ->
  counters_follow_flags (map_call_run L depthLayer call c).1
  /\ EDebugAssertFailed ∉ (map_call_run L depthLayer call c).2.
Proof.
  intros Hset (Hd & Hc).
  destruct call as [enabled|enabled|value|value]; try discriminate; simpl;
    unfold counters_follow_flags, set_renderSceneDepthMap, set_renderSceneColorMap,
      requestSceneDepthMap, requestSceneColorMap; cbv zeta;
    rewrite ?enableDepthLayer_cases;
    destruct (_sceneDepthMapRequested c) eqn:Ed, (_sceneColorMapRequested c) eqn:Ec, value;
    cbn [andb negb];
    repeat (match goal with
            | |- context [decide ?P] => destruct (decide P)
            end);
    cbn [fst snd _renderSceneDepthMap _renderSceneColorMap
         _sceneDepthMapRequested _sceneColorMapRequested
         cset_renderSceneDepthMap cset_renderSceneColorMap
         cset_sceneDepthMapRequested cset_sceneColorMapRequested layers] in *;
    rewrite ?Ed, ?Ec, ?Hd, ?Hc in *;
    try lia; (split; [split; lia|]);
    destruct depthLayer; simpl; intros Hin;
    repeat (apply elem_of_cons in Hin as [Hin|Hin]; [discriminate|]);
    by apply elem_of_nil in Hin.
Qed.

(** X20.  A camera whose scene maps are asked for through the properties
    [renderSceneDepthMap] and [renderSceneColorMap] only: after any sequence
    of assignments each request counter is 1 when its flag is raised and 0
    when it is not, the assertion on the counter never fails, and reading
    the property gives the flag. *)
Theorem scene_map_setters_keep_counters L depthLayer calls c :
  Forall (fun call => is_setter call = true) calls ->
  counters_follow_flags c ->
  let c' := (map_calls_run L depthLayer calls c).1 in
  counters_follow_flags c'
  /\ (EDebugAssertFailed ∉ (map_calls_run L depthLayer calls c).2)
  /\ get_renderSceneDepthMap c' = _sceneDepthMapRequested c'
  /\ get_renderSceneColorMap c' = _sceneColorMapRequested c'.
Proof.
  intros Hcalls Hc.
  assert (H : counters_follow_flags (map_calls_run L depthLayer calls c).1
              /\ EDebugAssertFailed ∉ (map_calls_run L depthLayer calls c).2).
  { revert c Hc. induction Hcalls as [|call calls Hcall Hcalls IH]; intros c Hc; simpl.
    - split; [done | apply not_elem_of_nil].
    - destruct (map_call_run_setter L depthLayer call c Hcall Hc) as (H1 & H2).
      destruct (map_call_run L depthLayer call c) as [c1 e1]. simpl in H1, H2.
      specialize (IH c1 H1).
      destruct (map_calls_run L depthLayer calls c1) as [c2 e2]. simpl in *.
      split; [tauto|]. rewrite elem_of_app. tauto. }
  destruct H as ((Hd & Hcol) & Ha). cbv zeta.
  split; [done|]. split; [done|].
  unfold get_renderSceneDepthMap, get_renderSceneColorMap. rewrite Hd, Hcol.
  by destruct (_sceneDepthMapRequested _), (_sceneColorMapRequested _).
Qed.

Lemma scene_map_setters_keep_counters_witness :
  Forall (fun call => is_setter call = true)
         [SetRenderSceneDepthMap true; SetRenderSceneColorMap true;
          SetRenderSceneDepthMap false]
  /\ counters_follow_flags (CameraComponent_new (default_layers 0 1 2 4 3))
  /\ get_renderSceneDepthMap
       (map_calls_run 1 true
          [SetRenderSceneDepthMap true; SetRenderSceneColorMap true;
           SetRenderSceneDepthMap false]
          (CameraComponent_new (default_layers 0 1 2 4 3))).1
     = _sceneDepthMapRequested
         (map_calls_run 1 true
            [SetRenderSceneDepthMap true; SetRenderSceneColorMap true;
             SetRenderSceneDepthMap false]
            (CameraComponent_new (default_layers 0 1 2 4 3))).1.
Proof.
  assert (H1 : Forall (fun call => is_setter call = true)
                 [SetRenderSceneDepthMap true; SetRenderSceneColorMap true;
                  SetRenderSceneDepthMap false]) by (repeat constructor).
  assert (H2 : counters_follow_flags (CameraComponent_new (default_layers 0 1 2 4 3)))
    by (split; reflexivity).
  split; [exact H1|]. split; [exact H2|].
  exact (proj1 (proj2 (proj2 (scene_map_setters_keep_counters 1 true _ _ H1 H2)))).
Defined.

(** X21.  An assignment to [renderSceneDepthMap] raises the flag only when the
    value is true and the flag was down; in every other case the flag ends
    down.  Assigning [true] while the flag is raised therefore releases the
    request: when the counter followed the flag, the property then reads
    [false]. *)
Theorem set_renderSceneDepthMap_toggles L depthLayer value c :
  let c' := (set_renderSceneDepthMap L depthLayer value c).1 in
  _sceneDepthMapRequested c' = value && negb (_sceneDepthMapRequested c)
  /\ _renderSceneDepthMap c'
     = _renderSceneDepthMap c
       + (if _sceneDepthMapRequested c then -1 else if value then 1 else 0)
  /\ _renderSceneColorMap c' = _renderSceneColorMap c
  /\ _sceneColorMapRequested c' = _sceneColorMapRequested c
  /\ (_renderSceneDepthMap c = (if _sceneDepthMapRequested c then 1 else 0) ->
      get_renderSceneDepthMap c' = value && negb (_sceneDepthMapRequested c)).
Proof.
  unfold set_renderSceneDepthMap, requestSceneDepthMap, get_renderSceneDepthMap. cbv zeta.
  rewrite ?enableDepthLayer_cases.
  destruct (_sceneDepthMapRequested c) eqn:Hf, value; cbn [andb negb];
    repeat (match goal with
            | |- context [decide ?P] => destruct (decide P)
            end); cbn [fst snd _renderSceneDepthMap _renderSceneColorMap
         _sceneDepthMapRequested _sceneColorMapRequested
         cset_renderSceneDepthMap cset_renderSceneColorMap
         cset_sceneDepthMapRequested cset_sceneColorMapRequested];
    rewrite ?Hf; repeat split; try lia; try done;
    intros ->; reflexivity.
Qed.

(** ** [Mat3]: the elements after each method *)

(** A list of nine elements, spelled out. *)
Lemma Mat3_elements (m : Mat3) :
  length m = 9%nat ->
  m = [elem m 0; elem m 1; elem m 2; elem m 3; elem m 4; elem m 5; elem m 6; elem m 7;
       elem m 8].
Proof.
  intros H. do 9 (destruct m as [|? m]; [discriminate|]).
  destruct m; [reflexivity | discriminate].
Qed.

Ltac mat9 m H :=
  do 9 (destruct m as [|? m]; [discriminate H|]);
  destruct m; [clear H | discriminate H].

(** [===] on two elements is equality of the two, except on NaN. *)
Lemma strict_equals_true (a b : float32) :
  strict_equals a b = true <-> a = b /\ a <> NaN.
Proof.
  destruct a, b; simpl; rewrite ?bool_decide_eq_true;
    (split; [intros H; try discriminate H; split; congruence
            | intros [H Hn]; congruence]).
Qed.

(** X22.  [transpose] exchanges rows and columns: the element at row [r],
    column [c] of the result is the element at row [c], column [r] of the
    matrix, for the nine elements of the array; the array keeps its length,
    and transposing twice gives the matrix back. *)
Theorem Mat3_transpose_exchanges (m : Mat3) :
  length m = 9%nat ->
  length (Mat3_transpose m) = 9%nat
  /\ (forall r c : nat, (r < 3)%nat -> (c < 3)%nat ->
        elem (Mat3_transpose m) (3 * r + c) = elem m (3 * c + r))
  /\ Mat3_transpose (Mat3_transpose m) = m.
Proof.
  intros H. mat9 m H. split; [reflexivity|]. split; [|reflexivity].
  intros r c Hr Hc.
  destruct r as [|[|[|r]]]; [| | |lia];
    (destruct c as [|[|[|c]]]; [| | |lia]); reflexivity.
Qed.

Lemma Mat3_transpose_exchanges_witness :
  length [Finite 1; Finite (Q2Qc (2 # 1)); NaN; Finite 0; Finite 1; PosInfinity;
          Finite 0; Finite 0; Finite 1] = 9%nat
  /\ Mat3_transpose
       (Mat3_transpose
          [Finite 1; Finite (Q2Qc (2 # 1)); NaN; Finite 0; Finite 1; PosInfinity;
           Finite 0; Finite 0; Finite 1])
     = [Finite 1; Finite (Q2Qc (2 # 1)); NaN; Finite 0; Finite 1; PosInfinity;
        Finite 0; Finite 0; Finite 1].
Proof.
  split; [reflexivity|].
  exact (proj2 (proj2 (Mat3_transpose_exchanges
                         [Finite 1; Finite (Q2Qc (2 # 1)); NaN; Finite 0; Finite 1;
                          PosInfinity; Finite 0; Finite 0; Finite 1]
                         eq_refl))).
Defined.

(** X23.  [equals] answers [true] exactly when the two matrices hold the same
    nine elements and none of them is NaN: the elements are compared with
    [===], which answers [false] on NaN, so a matrix that holds a NaN is not
    equal to any matrix, itself included. *)
Theorem Mat3_equals_iff (l r : Mat3) :
  length l = 9%nat -> length r = 9%nat ->
  (Mat3_equals l r = true <-> l = r /\ NaN ∉ l)
  /\ (NaN ∈ l -> Mat3_equals l l = false).
Proof.
  intros Hl Hr.
  assert (Hiff : forall a b : Mat3, length a = 9%nat -> length b = 9%nat ->
            Mat3_equals a b = true <-> a = b /\ NaN ∉ a).
  { clear. intros a b Ha Hb. mat9 a Ha. mat9 b Hb. unfold Mat3_equals, elem. simpl.
    rewrite !andb_true_iff, !strict_equals_true. split.
    - intros (((((((([-> ?] & [-> ?]) & [-> ?]) & [-> ?]) & [-> ?]) & [-> ?]) & [-> ?])
                & [-> ?]) & [-> ?]).
      split; [reflexivity|]. intros Hin.
      repeat (apply elem_of_cons in Hin as [Hin|Hin]; [congruence|]).
      by apply elem_of_nil in Hin.
    - intros [Heq Hn]. injection Heq as -> -> -> -> -> -> -> -> ->.
      repeat split; intros ->; apply Hn; repeat constructor. }
  split; [by apply Hiff|].
  intros Hin. apply not_true_is_false. intros H.
  by apply (Hiff l l Hl Hl) in H as [_ Hn].
Qed.

Lemma Mat3_equals_iff_witness :
  length [Finite 1; Finite 0; Finite 0; Finite 0; NaN; Finite 0; Finite 0; Finite 0;
          Finite 1] = 9%nat
  /\ Mat3_equals
       [Finite 1; Finite 0; Finite 0; Finite 0; NaN; Finite 0; Finite 0; Finite 0; Finite 1]
       [Finite 1; Finite 0; Finite 0; Finite 0; NaN; Finite 0; Finite 0; Finite 0; Finite 1]
     = false
  /\ (Mat3_equals Mat3_new (Mat3_transpose Mat3_new) = true
      <-> Mat3_new = Mat3_transpose Mat3_new /\ NaN ∉ Mat3_new).
Proof.
  split; [reflexivity|]. split.
  - apply (proj2 (Mat3_equals_iff
                    [Finite 1; Finite 0; Finite 0; Finite 0; NaN; Finite 0; Finite 0;
                     Finite 0; Finite 1]
                    [Finite 1; Finite 0; Finite 0; Finite 0; NaN; Finite 0; Finite 0;
                     Finite 0; Finite 1]
                    eq_refl eq_refl)).
    rewrite !elem_of_cons. tauto.
  - exact (proj1 (Mat3_equals_iff Mat3_new (Mat3_transpose Mat3_new) eq_refl eq_refl)).
Defined.

(** X24.  [copy] overwrites all nine elements of the destination with those
    of the source, whatever the destination held, and a [clone] holds the
    elements of the matrix it was made from.  [equals] answers [true] on a
    matrix and its clone exactly when the matrix holds no NaN. *)
Theorem Mat3_copy_overwrites (src dst : Mat3) :
  length src = 9%nat -> length dst = 9%nat ->
  Mat3_copy src dst = src
  /\ Mat3_clone src = src
  /\ (Mat3_equals (Mat3_clone src) src = true <-> NaN ∉ src).
Proof.
  intros Hs Hd.
  assert (Hcopy : forall d : Mat3, length d = 9%nat -> Mat3_copy src d = src).
  { intros d H. mat9 d H.
    etransitivity; [|symmetry; exact (Mat3_elements src Hs)]. reflexivity. }
  split; [by apply Hcopy|].
  assert (Hclone : Mat3_clone src = src) by (by apply Hcopy).
  split; [done|]. rewrite Hclone. clear Hcopy Hclone Hd dst.
  mat9 src Hs. unfold Mat3_equals, elem. simpl.
  rewrite !andb_true_iff, !strict_equals_true. split.
  - intros (((((((([_ ?] & [_ ?]) & [_ ?]) & [_ ?]) & [_ ?]) & [_ ?]) & [_ ?])
              & [_ ?]) & [_ ?]) Hin.
    repeat (apply elem_of_cons in Hin as [Hin|Hin]; [congruence|]).
    by apply elem_of_nil in Hin.
  - intros Hn. repeat split; intros ->; apply Hn; repeat constructor.
Qed.

Lemma Mat3_copy_overwrites_witness :
  length [Finite 0; Finite 1; Finite 0; Finite 1; NaN; Finite 0; Finite 0; Finite 0;
          Finite 1] = 9%nat
  /\ length Mat3_new = 9%nat
  /\ Mat3_copy [Finite 0; Finite 1; Finite 0; Finite 1; NaN; Finite 0; Finite 0; Finite 0;
                Finite 1] Mat3_new
     = [Finite 0; Finite 1; Finite 0; Finite 1; NaN; Finite 0; Finite 0; Finite 0;
        Finite 1].
Proof.
  split; [reflexivity|]. split; [reflexivity|].
  exact (proj1 (Mat3_copy_overwrites
                  [Finite 0; Finite 1; Finite 0; Finite 1; NaN; Finite 0; Finite 0;
                   Finite 0; Finite 1] Mat3_new
                  eq_refl eq_refl)).
Defined.

(** X25.  [isIdentity] answers [true] exactly on the matrix that [new Mat3()]
    builds, and [setIdentity] turns every matrix into it. *)
Theorem Mat3_isIdentity_iff (m : Mat3) :
  length m = 9%nat ->
  (Mat3_isIdentity m = true <-> m = Mat3_new)
  /\ Mat3_setIdentity m = Mat3_new
  /\ Mat3_isIdentity (Mat3_setIdentity m) = true.
Proof.
  intros H. split; [|mat9 m H; split; reflexivity].
  split.
  - unfold Mat3_isIdentity. rewrite !andb_true_iff, !strict_equals_true.
    intros (((((((([H0 _] & [H1 _]) & [H2 _]) & [H3 _]) & [H4 _]) & [H5 _]) & [H6 _])
              & [H7 _]) & [H8 _]).
    rewrite (Mat3_elements m H). unfold Mat3_new. congruence.
  - intros ->. reflexivity.
Qed.

Lemma Mat3_isIdentity_iff_witness :
  length (Mat3_transpose Mat3_new) = 9%nat
  /\ Mat3_setIdentity (Mat3_transpose Mat3_new) = Mat3_new.
Proof.
  split; [reflexivity|].
  exact (proj1 (proj2 (Mat3_isIdentity_iff (Mat3_transpose Mat3_new) eq_refl))).
Defined.

(** X26.  [setFromMat4] takes the upper-left 3x3 block of the 4x4 matrix: the
    element at row [r], column [c] of the result is the element at row [r],
    column [c] of the source, and nothing of what the destination held is
    left. *)
Theorem Mat3_setFromMat4_block (src : Mat4) (dst : Mat3) :
  length src = 16%nat -> length dst = 9%nat ->
  length (Mat3_setFromMat4 src dst) = 9%nat
  /\ forall r c : nat, (r < 3)%nat -> (c < 3)%nat ->
       elem (Mat3_setFromMat4 src dst) (3 * r + c) = elem src (4 * r + c).
Proof.
  intros _ Hd. mat9 dst Hd. split; [reflexivity|].
  intros r c Hr Hc.
  destruct r as [|[|[|r]]]; [| | |lia];
    (destruct c as [|[|[|c]]]; [| | |lia]); reflexivity.
Qed.

Lemma Mat3_setFromMat4_block_witness :
  length Mat4_new = 16%nat
  /\ length (Mat3_transpose Mat3_new) = 9%nat
  /\ elem (Mat3_setFromMat4 Mat4_new (Mat3_transpose Mat3_new)) (3 * 1 + 1)
     = elem Mat4_new (4 * 1 + 1).
Proof.
  split; [reflexivity|]. split; [reflexivity|].
  apply (proj2 (Mat3_setFromMat4_block Mat4_new (Mat3_transpose Mat3_new) eq_refl eq_refl));
    lia.
Defined.
